(** * The llama model runtime of trexsql-ext: context pool, model registry,
      generation, streaming sessions and metrics

    A shallow embedding of [src/llama/src/llama_core.cpp] (with the type
    declarations of [src/plugins/ai/src/include/ai_core.hpp]) and the
    properties of it that the specification states.

    Conventions of the embedding:
    - [size_t] and [uint64_t] are [N] with the wrap-around at [2^64] written
      out where the code can reach it; [int] is [Z];
    - a [steady_clock::time_point] is a [Z] (ticks of one nanosecond);
    - a raw pointer is the address ([N]) of the heap object it points to, a
      nullable [unique_ptr] or raw pointer is an [option];
    - a [std::queue] is a list whose head is the front, a [std::vector] is a
      list, a [std::unordered_map] keyed by strings is a [gmap string];
    - what the inference engine, the clock and the file system answer is an
      explicit argument of the function that asks;
    - a function that would dereference a dangling pointer returns [None]. *)

From Stdlib Require Import ZArith NArith Floats.SpecFloat.
From stdpp Require Import gmap strings list fin_maps pretty.

Open Scope N_scope.

(* ===================================================================== *)
(** * Part I: the embedding                                               *)
(* ===================================================================== *)

(** ** Machine integers and time *)

Definition uint64_modulus : N := 2 ^ 64.

Definition wrap64 (n : N) : N := n mod uint64_modulus.

(** [a -= b] on a [uint64_t] *)
Definition sub64 (a b : N) : N :=
  Z.to_N ((Z.of_N a - Z.of_N b) mod Z.of_N uint64_modulus).

(** conversion of a signed count to [uint64_t] *)
Definition to_uint64 (z : Z) : N := Z.to_N (z mod Z.of_N uint64_modulus).

Definition time_point := Z.

(** [std::chrono::minutes(n)] in ticks of [steady_clock] *)
Definition minutes_to_ticks (n : Z) : Z := (n * 60 * 1000000000)%Z.

(** [duration_cast<milliseconds>(d).count()]: truncation toward zero *)
Definition ticks_to_ms (d : Z) : Z := (d ÷ 1000000)%Z.

(** ** Plain data *)

Record ModelConfig := mkModelConfig {
  model_path : string;
  n_ctx : Z;
  n_batch : Z;
  n_threads : Z;
  n_gpu_layers : Z;
  cfg_seed : Z;
  use_mmap : bool;
  use_mlock : bool;
  embeddings : bool;
  memory_f16 : bool
}.

Record ChatMessage := mkChatMessage {
  role : string;
  content : string
}.

(** A [float] is carried as its bit pattern; no claim computes with it. *)
Definition float32 := N.

Record GenerationParams := mkGenerationParams {
  max_tokens : Z;
  temperature : float32;
  top_p : float32;
  top_k : Z;
  repeat_penalty : float32;
  repeat_last_n : Z;
  gen_seed : Z;
  stream : bool;
  stop_sequences : list string
}.

(** What the engine keeps behind a [llama_model*]. *)
Record llama_model := mkLlamaModel {
  model_addr : N;
  model_n_params : N;      (* llama_model_n_params *)
  model_n_embd : Z         (* llama_model_n_embd *)
}.

(** ** ContextPoolEntry *)

Record ContextPoolEntry := mkEntry {
  entry_addr : N;          (* address of the object the unique_ptr owns *)
  context : N;             (* llama_context*, never null in an entry *)
  sampler : N;             (* llama_sampler* *)
  last_used : time_point;
  in_use : bool;
  usage_count : N
}.

Definition set_in_use (b : bool) (e : ContextPoolEntry) : ContextPoolEntry :=
  mkEntry (entry_addr e) (context e) (sampler e) (last_used e) b (usage_count e).

Definition set_last_used (t : time_point) (e : ContextPoolEntry) : ContextPoolEntry :=
  mkEntry (entry_addr e) (context e) (sampler e) t (in_use e) (usage_count e).

Definition incr_usage_count (e : ContextPoolEntry) : ContextPoolEntry :=
  mkEntry (entry_addr e) (context e) (sampler e) (last_used e) (in_use e)
          (wrap64 (usage_count e + 1)).

(** ** ContextPool *)

Record ContextPool := mkPool {
  available_contexts_ : list N;               (* queue of raw pointers *)
  all_contexts_ : list ContextPoolEntry;      (* vector of owning pointers *)
  model_ : option llama_model;
  config_ : ModelConfig;
  max_pool_size_ : N;
  context_ttl_ : Z                            (* std::chrono::minutes *)
}.

Definition with_contexts (q : list N) (v : list ContextPoolEntry) (p : ContextPool)
  : ContextPool :=
  mkPool q v (model_ p) (config_ p) (max_pool_size_ p) (context_ttl_ p).

(** [ContextPool::ContextPool] *)
Definition ContextPool_new (model : option llama_model) (config : ModelConfig)
    (max_size : N) : ContextPool :=
  mkPool [] [] model config max_size 30.

(** What the engine and the allocator answer inside [CreateNewContext]. *)
Record ContextAlloc := mkContextAlloc {
  llama_init_from_model : option N;       (* None: returned nullptr *)
  llama_sampler_chain_init : option N;
  make_unique_addr : N                    (* where the new entry is placed *)
}.

(** [ContextPool::CreateNewContext] *)
Definition CreateNewContext (now : time_point) (a : ContextAlloc) (p : ContextPool)
  : option ContextPoolEntry :=
  match model_ p with
  | None => None
  | Some _ =>
    match llama_init_from_model a with
    | None => None
    | Some ctx =>
      match llama_sampler_chain_init a with
      | None => None                            (* llama_free(context) *)
      | Some smp => Some (mkEntry (make_unique_addr a) ctx smp now true 1)
      end
    end
  end.

(** The scan of [all_contexts_] for the slot that owns [raw]: the entry
    found first is moved out and its slot erased. *)
Fixpoint take_entry (raw : N) (v : list ContextPoolEntry)
  : option (ContextPoolEntry * list ContextPoolEntry) :=
  match v with
  | [] => None
  | e :: v' =>
    if entry_addr e =? raw then Some (e, v')
    else match take_entry raw v' with
         | Some (r, rest) => Some (r, e :: rest)
         | None => None
         end
  end.

(** Reading through a raw pointer: the object lives in [all_contexts_]. *)
Definition deref (raw : N) (v : list ContextPoolEntry) : option ContextPoolEntry :=
  List.find (fun e => entry_addr e =? raw) v.

(** [ContextPool::AcquireContext]. The result is [None] when the front of
    the queue dangles (the writes through [raw_entry] are then undefined);
    otherwise the returned pointer and the pool after the call. *)
Definition AcquireContext (now : time_point) (a : ContextAlloc) (p : ContextPool)
  : option (option ContextPoolEntry * ContextPool) :=
  match available_contexts_ p with
  | raw_entry :: rest =>
    match take_entry raw_entry (all_contexts_ p) with
    | None => None
    | Some (e, v') =>
      let result := incr_usage_count (set_last_used now (set_in_use true e)) in
      Some (Some result, with_contexts rest v' p)
    end
  | [] =>
    if N.of_nat (length (all_contexts_ p)) <? max_pool_size_ p
    then Some (CreateNewContext now a p, p)
    else Some (None, p)
  end.

(** [ContextPool::ReleaseContext] *)
Definition ReleaseContext (now : time_point) (entry : option ContextPoolEntry)
    (p : ContextPool) : ContextPool :=
  match entry with
  | None => p
  | Some e =>
    let e' := set_last_used now (set_in_use false e) in
    with_contexts (available_contexts_ p ++ [entry_addr e'])
                  (all_contexts_ p ++ [e']) p
  end.

(** The loop of [ContextPool::CleanupExpiredContexts]: [queue] is what is
    left of [available_contexts_], [new_queue] and [v] are the locals. *)
Fixpoint cleanup_loop (now : time_point) (ttl : Z) (queue new_queue : list N)
    (v : list ContextPoolEntry) : option (list N * list ContextPoolEntry) :=
  match queue with
  | [] => Some (new_queue, v)
  | entry :: queue' =>
    match deref entry v with
    | None => None
    | Some e =>
      if (now - last_used e <? minutes_to_ticks ttl)%Z
      then cleanup_loop now ttl queue' (new_queue ++ [entry]) v
      else cleanup_loop now ttl queue' new_queue
             (List.filter (fun ptr => negb (entry_addr ptr =? entry)) v)
    end
  end.

(** [ContextPool::CleanupExpiredContexts] *)
Definition CleanupExpiredContexts (now : time_point) (p : ContextPool)
  : option ContextPool :=
  match cleanup_loop now (context_ttl_ p) (available_contexts_ p) [] (all_contexts_ p) with
  | Some (q, v) => Some (with_contexts q v p)
  | None => None
  end.

Definition GetPoolSize (p : ContextPool) : N := N.of_nat (length (all_contexts_ p)).

Definition GetAvailableCount (p : ContextPool) : N :=
  N.of_nat (length (available_contexts_ p)).

(** ** A pool together with the entries its callers hold

    [held] are the entries handed out by [AcquireContext] and not yet given
    back: each is owned by the [unique_ptr] of one caller. *)

Record PoolSys := mkPoolSys {
  pool : ContextPool;
  held : list ContextPoolEntry
}.

Definition live_addrs (s : PoolSys) : list N :=
  map entry_addr (all_contexts_ (pool s)) ++ map entry_addr (held s).

Inductive pool_step : PoolSys -> PoolSys -> Prop :=
| step_acquire s now a r p' :
    make_unique_addr a ∉ live_addrs s ->
    AcquireContext now a (pool s) = Some (r, p') ->
    pool_step s (mkPoolSys p' (option_list r ++ held s))
| step_release s now h1 e h2 :
    held s = h1 ++ e :: h2 ->
    pool_step s (mkPoolSys (ReleaseContext now (Some e) (pool s)) (h1 ++ h2))
| step_release_null s now :
    pool_step s (mkPoolSys (ReleaseContext now None (pool s)) (held s))
| step_destroy s h1 e h2 :
    held s = h1 ++ e :: h2 ->
    pool_step s (mkPoolSys (pool s) (h1 ++ h2))
| step_cleanup s now p' :
    CleanupExpiredContexts now (pool s) = Some p' ->
    pool_step s (mkPoolSys p' (held s)).

Definition pool_init (model : option llama_model) (config : ModelConfig) (max_size : N)
  : PoolSys :=
  mkPoolSys (ContextPool_new model config max_size) [].

Definition pool_reachable (model : option llama_model) (config : ModelConfig)
    (max_size : N) (s : PoolSys) : Prop :=
  rtc pool_step (pool_init model config max_size) s.

(** The state a pool keeps between calls: the queue lists the owned
    entries in order, and no two live entries share an address. *)
Definition pool_wf (s : PoolSys) : Prop :=
  available_contexts_ (pool s) = map entry_addr (all_contexts_ (pool s))
  /\ NoDup (live_addrs s).

(** The test of the sweep: an entry is kept when it has been idle for less
    than the time to live. *)
Definition fresh_enough (now : time_point) (ttl : Z) (e : ContextPoolEntry) : bool :=
  (now - last_used e <? minutes_to_ticks ttl)%Z.

(** The settings the constructor stored. *)
Definition same_settings (p q : ContextPool) : Prop :=
  model_ q = model_ p /\ config_ q = config_ p
  /\ max_pool_size_ q = max_pool_size_ p /\ context_ttl_ q = context_ttl_ p.

(** ** PerformanceMetrics and PerformanceSnapshot *)

Record PerformanceMetrics := mkMetrics {
  total_requests : N;
  total_tokens_generated : N;
  total_generation_time_ms : N;
  metrics_memory_usage_bytes : N;
  peak_memory_bytes : N;
  active_contexts : N;
  metrics_pool_size : N
}.

Record PerformanceSnapshot := mkSnapshot {
  snap_total_requests : N;
  snap_total_tokens_generated : N;
  snap_total_generation_time_ms : N;
  snap_memory_usage_bytes : N;
  snap_peak_memory_bytes : N;
  snap_active_contexts : N;
  snap_pool_size : N
}.

Definition set_memory (usage peak : N) (x : PerformanceMetrics) : PerformanceMetrics :=
  mkMetrics (total_requests x) (total_tokens_generated x) (total_generation_time_ms x)
            usage peak (active_contexts x) (metrics_pool_size x).

Definition set_counters (requests tokens time_ms : N) (x : PerformanceMetrics)
  : PerformanceMetrics :=
  mkMetrics requests tokens time_ms (metrics_memory_usage_bytes x)
            (peak_memory_bytes x) (active_contexts x) (metrics_pool_size x).

(** ** LoadedModel and SimpleModelManager *)

Record LoadedModel := mkLoadedModel {
  model : option llama_model;
  context_pool : option ContextPool;
  config : ModelConfig;
  load_time : time_point;
  last_access : time_point;
  reference_count : N;
  memory_usage_bytes : N
}.

Definition set_context_pool (p : option ContextPool) (lm : LoadedModel) : LoadedModel :=
  mkLoadedModel (model lm) p (config lm) (load_time lm) (last_access lm)
                (reference_count lm) (memory_usage_bytes lm).

Definition set_reference (rc : N) (t : time_point) (lm : LoadedModel) : LoadedModel :=
  mkLoadedModel (model lm) (context_pool lm) (config lm) (load_time lm) t
                rc (memory_usage_bytes lm).

(** The registry. The table of streaming sessions and the batch queue are
    left out: no function below reads or writes them. [cleanup_thread_] is
    kept as what [joinable()] answers. *)
Record SimpleModelManager := mkManager {
  models_ : gmap string LoadedModel;
  backend_initialized_ : bool;
  metrics_ : PerformanceMetrics;
  memory_limit_bytes_ : N;
  max_context_pool_size_ : N;
  background_cleanup_enabled_ : bool;
  cleanup_thread_joinable : bool
}.

Definition set_models (ms : gmap string LoadedModel) (m : SimpleModelManager)
  : SimpleModelManager :=
  mkManager ms (backend_initialized_ m) (metrics_ m) (memory_limit_bytes_ m)
            (max_context_pool_size_ m) (background_cleanup_enabled_ m)
            (cleanup_thread_joinable m).

Definition set_metrics (x : PerformanceMetrics) (m : SimpleModelManager)
  : SimpleModelManager :=
  mkManager (models_ m) (backend_initialized_ m) x (memory_limit_bytes_ m)
            (max_context_pool_size_ m) (background_cleanup_enabled_ m)
            (cleanup_thread_joinable m).

Definition set_backend_initialized (b : bool) (m : SimpleModelManager)
  : SimpleModelManager :=
  mkManager (models_ m) b (metrics_ m) (memory_limit_bytes_ m)
            (max_context_pool_size_ m) (background_cleanup_enabled_ m)
            (cleanup_thread_joinable m).

(** [cleanup_thread_ = std::thread(...)] after [background_cleanup_enabled_ = true] *)
Definition start_cleanup_thread (m : SimpleModelManager) : SimpleModelManager :=
  mkManager (models_ m) (backend_initialized_ m) (metrics_ m) (memory_limit_bytes_ m)
            (max_context_pool_size_ m) true true.

(** [SimpleModelManager::SimpleModelManager] *)
Definition SimpleModelManager_new (memory_limit_mb max_context_pool_size : N)
  : SimpleModelManager :=
  mkManager ∅ false (mkMetrics 0 0 0 0 0 0 0)
            (wrap64 (memory_limit_mb * 1024 * 1024)) max_context_pool_size false false.

(** What the engine, the file system and the clock answer to [LoadModel]. *)
Record LoadEnv := mkLoadEnv {
  llama_backend_init_throws : bool;
  filesystem_exists : string -> bool;
  llama_model_load_from_file : string -> option llama_model;
  load_now : time_point
}.

(** [SimpleModelManager::Initialize] *)
Definition Initialize (env : LoadEnv) (m : SimpleModelManager)
  : bool * SimpleModelManager :=
  if backend_initialized_ m then (true, m)
  else if llama_backend_init_throws env then (false, m)
  else (true, set_backend_initialized true m).

(** [SimpleModelManager::CheckMemoryLimit] *)
Definition CheckMemoryLimit (m : SimpleModelManager) : bool :=
  (memory_limit_bytes_ m =? 0)
  || (metrics_memory_usage_bytes (metrics_ m) <? memory_limit_bytes_ m).

(** [SimpleModelManager::EstimateModelMemoryUsage] *)
Definition EstimateModelMemoryUsage (mdl : option llama_model) : N :=
  match mdl with
  | None => 0
  | Some x => wrap64 (model_n_params x * 2)
  end.

(** The [return] statement [LoadModel] leaves through, named after what it
    prints; [LoadModel_result] is the [bool] it returns. *)
Inductive LoadReturn :=
| ret_backend_not_initialized
| ret_already_loaded
| ret_memory_limit_reached
| ret_model_file_not_found
| ret_failed_to_load
| ret_successfully_loaded.

Definition LoadModel_result (r : LoadReturn) : bool :=
  match r with
  | ret_already_loaded | ret_successfully_loaded => true
  | _ => false
  end.

(** [SimpleModelManager::LoadModel] *)
Definition LoadModel (env : LoadEnv) (model_name : string) (cfg : ModelConfig)
    (m : SimpleModelManager) : LoadReturn * SimpleModelManager :=
  let '(ok, m1) :=
    if backend_initialized_ m then (true, m) else Initialize env m in
  if negb ok then (ret_backend_not_initialized, m1)
  else
    match models_ m1 !! model_name with
    | Some _ => (ret_already_loaded, m1)
    | None =>
      let m2 :=
        if bool_decide (size (models_ m1) = 0%nat) && negb (cleanup_thread_joinable m1)
        then start_cleanup_thread m1 else m1 in
      if negb (CheckMemoryLimit m2) then (ret_memory_limit_reached, m2)
      else if negb (filesystem_exists env (model_path cfg))
      then (ret_model_file_not_found, m2)
      else
        match llama_model_load_from_file env (model_path cfg) with
        | None => (ret_failed_to_load, m2)
        | Some mdl =>
          let model_size := EstimateModelMemoryUsage (Some mdl) in
          let loaded_model :=
            mkLoadedModel (Some mdl)
              (Some (ContextPool_new (Some mdl) cfg (max_context_pool_size_ m2)))
              cfg (load_now env) (load_now env) 0 model_size in
          let usage := wrap64 (metrics_memory_usage_bytes (metrics_ m2) + model_size) in
          let peak := N.max (peak_memory_bytes (metrics_ m2)) usage in
          let m3 := set_metrics (set_memory usage peak (metrics_ m2)) m2 in
          (ret_successfully_loaded,
           set_models (<[model_name := loaded_model]> (models_ m3)) m3)
        end
    end.

(** [SimpleModelManager::GetModel]: the object the returned pointer refers
    to, as it is when the call returns. *)
Definition GetModel (now : time_point) (model_name : string) (m : SimpleModelManager)
  : option LoadedModel * SimpleModelManager :=
  match models_ m !! model_name with
  | None => (None, m)
  | Some lm =>
    let lm' := set_reference (wrap64 (reference_count lm + 1)) now lm in
    (Some lm', set_models (<[model_name := lm']> (models_ m)) m)
  end.

(** [SimpleModelManager::ReleaseModelReference], the deleter of the pointer
    [GetModel] returns. *)
Definition ReleaseModelReference (model_name : string) (m : SimpleModelManager)
  : SimpleModelManager :=
  match models_ m !! model_name with
  | None => m
  | Some lm =>
    let lm' := set_reference (sub64 (reference_count lm) 1) (last_access lm) lm in
    set_models (<[model_name := lm']> (models_ m)) m
  end.

Definition IsModelLoaded (model_name : string) (m : SimpleModelManager) : bool :=
  bool_decide (is_Some (models_ m !! model_name)).

Definition GetLoadedModelCount (m : SimpleModelManager) : N :=
  N.of_nat (size (models_ m)).

(** [SimpleModelManager::GetLoadedModelNames] *)
Definition GetLoadedModelNames (m : SimpleModelManager) : list string :=
  (map_to_list (models_ m)).*1.

(** [SimpleModelManager::GetMetrics] *)
Definition GetMetrics (m : SimpleModelManager) : PerformanceSnapshot :=
  let x := metrics_ m in
  mkSnapshot (total_requests x) (total_tokens_generated x) (total_generation_time_ms x)
             (metrics_memory_usage_bytes x) (peak_memory_bytes x)
             (active_contexts x) (metrics_pool_size x).

(** ** UnloadModel, one loop iteration at a time

    [UnloadModel] holds [models_mutex_] from its first line to its return and
    sleeps inside two loops. Where the calling thread stands: *)
Inductive unload_pc :=
| AtEntry                       (* has the lock, before [models_.find] *)
| AtRefWait                     (* at the test of [while (reference_count > 0)] *)
| AtPoolWait (wait_ms : N)      (* at the test of [while (wait_ms < max_wait_ms)] *)
| Returned (result : bool).

(** From [context_pool.reset()] to [return true]. *)
Definition UnloadModel_erase (model_name : string) (lm : LoadedModel)
    (m : SimpleModelManager) : SimpleModelManager :=
  let x := metrics_ m in
  let usage := sub64 (metrics_memory_usage_bytes x) (memory_usage_bytes lm) in
  set_models (delete model_name (models_ m))
             (set_metrics (set_memory usage (peak_memory_bytes x) x) m).

Definition pool_quiescent (p : ContextPool) : bool :=
  GetPoolSize p =? GetAvailableCount p.

(** One step of the thread inside [UnloadModel(model_name)]: up to the next
    sleep or to the return. [None]: the iterator [it] no longer points at
    an element of [models_]. *)
Definition UnloadModel_step (model_name : string) (pc : unload_pc)
    (m : SimpleModelManager) : option (unload_pc * SimpleModelManager) :=
  match pc with
  | AtEntry =>
    match models_ m !! model_name with
    | None => Some (Returned false, m)
    | Some _ => Some (AtRefWait, m)
    end
  | AtRefWait =>
    match models_ m !! model_name with
    | None => None
    | Some lm =>
      if 0 <? reference_count lm then Some (AtRefWait, m)     (* sleep 100 ms *)
      else match context_pool lm with
           | Some _ => Some (AtPoolWait 0, m)
           | None => Some (Returned true, UnloadModel_erase model_name lm m)
           end
    end
  | AtPoolWait wait_ms =>
    match models_ m !! model_name with
    | None => None
    | Some lm =>
      match context_pool lm with
      | None => None
      | Some p =>
        if (wait_ms <? 5000) && negb (pool_quiescent p)
        then Some (AtPoolWait (wait_ms + 100), m)             (* sleep 100 ms *)
        else Some (Returned true, UnloadModel_erase model_name lm m)
      end
    end
  | Returned b => Some (Returned b, m)
  end.

(** [SimpleModelManager::UnloadModel] run by a thread that is alone:
    [fuel] bounds the number of loop tests, [None] means the call has not
    returned within them. *)
Fixpoint UnloadModel_from (fuel : nat) (model_name : string) (pc : unload_pc)
    (m : SimpleModelManager) : option (bool * SimpleModelManager) :=
  match pc with
  | Returned b => Some (b, m)
  | _ =>
    match fuel with
    | O => None
    | S fuel' =>
      match UnloadModel_step model_name pc m with
      | None => None
      | Some (pc', m') => UnloadModel_from fuel' model_name pc' m'
      end
    end
  end.

Definition UnloadModel (fuel : nat) (model_name : string) (m : SimpleModelManager)
  : option (bool * SimpleModelManager) :=
  UnloadModel_from fuel model_name AtEntry m.

(** ** The registry and the threads that use it

    [unloading] is the thread inside [UnloadModel], if any, with the name it
    was called with; it owns [models_mutex_]. [LoadModel], [GetModel] and
    [ReleaseModelReference] take the same mutex for their whole body, so
    they run only when no thread is inside [UnloadModel]. A pool has its
    own mutex: its callers, and the sweep of the cleanup thread, change it
    at any time. The teardown ([Cleanup] and the destructor, which clear
    [models_] whatever the reference counts) is not among the steps. *)
Record Registry := mkRegistry {
  mgr : SimpleModelManager;
  unloading : option (string * unload_pc)
}.

Definition change_pool (model_name : string) (p : ContextPool) (m : SimpleModelManager)
  : SimpleModelManager :=
  match models_ m !! model_name with
  | None => m
  | Some lm =>
    match context_pool lm with
    | None => m
    | Some _ => set_models (<[model_name := set_context_pool (Some p) lm]> (models_ m)) m
    end
  end.

Inductive registry_step : Registry -> Registry -> Prop :=
| reg_unload_call s model_name :
    unloading s = None ->
    registry_step s (mkRegistry (mgr s) (Some (model_name, AtEntry)))
| reg_unload_step s model_name pc pc' m' :
    unloading s = Some (model_name, pc) ->
    (forall b, pc <> Returned b) ->
    UnloadModel_step model_name pc (mgr s) = Some (pc', m') ->
    registry_step s (mkRegistry m' (Some (model_name, pc')))
| reg_unload_return s model_name b :
    unloading s = Some (model_name, Returned b) ->
    registry_step s (mkRegistry (mgr s) None)
| reg_load s env model_name cfg :
    unloading s = None ->
    registry_step s (mkRegistry (snd (LoadModel env model_name cfg (mgr s))) None)
| reg_get_model s now model_name :
    unloading s = None ->
    registry_step s (mkRegistry (snd (GetModel now model_name (mgr s))) None)
| reg_release_reference s model_name :
    unloading s = None ->
    registry_step s (mkRegistry (ReleaseModelReference model_name (mgr s)) None)
| reg_pool s model_name p :
    registry_step s (mkRegistry (change_pool model_name p (mgr s)) (unloading s)).

(** What holds of the thread inside [UnloadModel] between its steps. *)
Definition unload_inv (s : Registry) : Prop :=
  match unloading s with
  | Some (model_name, AtRefWait) => is_Some (models_ (mgr s) !! model_name)
  | Some (model_name, AtPoolWait _) =>
    exists lm, models_ (mgr s) !! model_name = Some lm
               /\ reference_count lm = 0 /\ is_Some (context_pool lm)
  | _ => True
  end.

(** ** Calls that may throw

    The bodies of [Generate], [GetEmbeddings] and of the streaming task sit
    in [try] blocks that catch [std::exception]. A call into the engine
    either returns or throws; [what] is the text of the exception. *)
Inductive thrown (A : Type) : Type :=
| Ret (a : A)
| Throw (what : string).
Arguments Ret {A} a.
Arguments Throw {A} what.

Definition thrown_bind {A B} (c : thrown A) (k : A -> thrown B) : thrown B :=
  match c with
  | Ret a => k a
  | Throw w => Throw w
  end.

Notation "'let!' x := c 'in' k" := (thrown_bind c (fun x => k))
  (at level 10, x name, c at level 200, k at level 200).

(** The prompt is tokenized into a buffer of [length + 100] tokens; a
    negative answer is the size that is needed, and the call is repeated. *)
Definition tokenize_twice (first again : thrown Z) : thrown Z :=
  let! n_tokens := first in
  if (n_tokens <? 0)%Z then again else Ret n_tokens.

(** [model->context_pool] of the model registered as [model_name] *)
Definition pool_of (model_name : string) (m : SimpleModelManager) : option ContextPool :=
  lm ← models_ m !! model_name; context_pool lm.

(** [model->context_pool->ReleaseContext(std::move(context_entry))] *)
Definition release_context (model_name : string) (now : time_point)
    (entry : ContextPoolEntry) (m : SimpleModelManager) : SimpleModelManager :=
  match models_ m !! model_name with
  | None => m
  | Some lm =>
    match context_pool lm with
    | None => m
    | Some p => change_pool model_name (ReleaseContext now (Some entry) p) m
    end
  end.

(** ** Generate *)

(** What the engine answers in one turn of the sampling loop. *)
Record SampleStep := mkSampleStep {
  llama_sampler_sample : thrown Z;
  llama_vocab_is_eog : bool;
  llama_token_to_piece : Z * string;   (* the count returned and the bytes *)
  llama_get_logits_probability : float32; (* [token_probability], streaming only *)
  llama_decode_token : thrown Z
}.

(** What the engine and the clock answer during one call. *)
Record EngineRun := mkEngineRun {
  now_get_model : time_point;
  now_acquire : time_point;
  acquire_alloc : ContextAlloc;
  start_time : time_point;
  llama_sampler_reset : thrown unit;         (* inside ConfigureSampler *)
  llama_tokenize : string -> thrown Z;       (* of the text that is tokenized *)
  llama_tokenize_again : string -> thrown Z;
  llama_decode_prompt : thrown Z;
  sample_step : nat -> SampleStep;
  llama_get_embeddings : thrown (option (list float32));
  end_time : time_point;
  now_release : time_point
}.

(** The [for] loop of [Generate]; [fuel] is [max_tokens - i]. *)
Fixpoint generate_loop (run : EngineRun) (fuel i : nat) (result : string)
    (tokens_generated : Z) : thrown (string * Z) :=
  match fuel with
  | O => Ret (result, tokens_generated)
  | S fuel' =>
    let st := sample_step run i in
    let! new_token := llama_sampler_sample st in
    if llama_vocab_is_eog st then Ret (result, tokens_generated)
    else
      let '(n, piece) := llama_token_to_piece st in
      let '(result', generated') :=
        if (0 <? n)%Z then (result +:+ piece, (tokens_generated + 1)%Z)
        else (result, tokens_generated) in
      let! r := llama_decode_token st in
      if (r =? 0)%Z then generate_loop run fuel' (S i) result' generated'
      else Ret (result', generated')
  end.

Definition add_generation (duration_ms tokens_generated : Z) (x : PerformanceMetrics)
  : PerformanceMetrics :=
  set_counters (total_requests x)
    (wrap64 (total_tokens_generated x + to_uint64 tokens_generated))
    (wrap64 (total_generation_time_ms x + to_uint64 duration_ms)) x.

(** The [try] block of [Generate]. No call into the engine follows a write
    to the registry, so an exception leaves the registry as it was when
    the block was entered, with [context_entry] still held. *)
Definition Generate_try (run : EngineRun) (model_name prompt : string)
    (params : GenerationParams) (context_entry : ContextPoolEntry)
    (m : SimpleModelManager) : thrown (string * SimpleModelManager) :=
  let! _ := llama_sampler_reset run in
  let! n_tokens :=
    tokenize_twice (llama_tokenize run prompt) (llama_tokenize_again run prompt) in
  if (n_tokens <=? 0)%Z
  then Ret ("Error: Failed to tokenize prompt",
            release_context model_name (now_release run) context_entry m)
  else
    let! r := llama_decode_prompt run in
    if negb (r =? 0)%Z
    then Ret ("Error: Failed to process prompt",
              release_context model_name (now_release run) context_entry m)
    else
      let! out := generate_loop run (Z.to_nat (max_tokens params)) 0 EmptyString 0%Z in
      let '(result, tokens_generated) := out in
      let duration_ms := ticks_to_ms (end_time run - start_time run) in
      let m' := set_metrics (add_generation duration_ms tokens_generated (metrics_ m)) m in
      Ret (result, release_context model_name (now_release run) context_entry m').

Definition count_request (m : SimpleModelManager) : SimpleModelManager :=
  let x := metrics_ m in
  set_metrics (set_counters (wrap64 (total_requests x + 1))
                 (total_tokens_generated x) (total_generation_time_ms x) x) m.

(** [SimpleModelManager::Generate]. [None]: the model has no pool, or the
    pool dereferences a dangling pointer. The pointer [model] is released
    when the function returns. *)
Definition Generate (run : EngineRun) (model_name prompt : string)
    (params : GenerationParams) (m : SimpleModelManager)
  : option (string * SimpleModelManager) :=
  match GetModel (now_get_model run) model_name m with
  | (None, _) => Some ("Error: Model not found: " +:+ model_name, m)
  | (Some mdl, m1) =>
    p ← context_pool mdl;
    '(context_entry, p1) ← AcquireContext (now_acquire run) (acquire_alloc run) p;
    let m2 := change_pool model_name p1 m1 in
    match context_entry with
    | None =>
      Some ("Error: No available context for model: " +:+ model_name,
            ReleaseModelReference model_name m2)
    | Some entry =>
      let m3 := count_request m2 in
      match Generate_try run model_name prompt params entry m3 with
      | Ret (text, m4) => Some (text, ReleaseModelReference model_name m4)
      | Throw what =>
        let m4 := release_context model_name (now_release run) entry m3 in
        Some ("Error: " +:+ what, ReleaseModelReference model_name m4)
      end
    end
  end.

(** [SimpleModelManager::ChatCompletion]: the loop over [messages] *)
Definition append_message (prompt : string) (message : ChatMessage) : string :=
  if String.eqb (role message) "system"
  then prompt +:+ ("System: " +:+ content message +:+ "
")
  else if String.eqb (role message) "user"
  then prompt +:+ ("User: " +:+ content message +:+ "
")
  else if String.eqb (role message) "assistant"
  then prompt +:+ ("Assistant: " +:+ content message +:+ "
")
  else prompt.

Definition ChatCompletion (run : EngineRun) (model_name : string)
    (messages : list ChatMessage) (params : GenerationParams)
    (m : SimpleModelManager) : option (string * SimpleModelManager) :=
  let prompt := fold_left append_message messages EmptyString in
  let prompt := prompt +:+ "Assistant: " in
  Generate run model_name prompt params m.

(** The transcript as the specification words it: each message gives one
    line by its role, messages of another role give nothing, and the
    prompt ends with the tag of the assistant. *)
Definition transcript_line (message : ChatMessage) : string :=
  if String.eqb (role message) "system"
  then "System: " +:+ content message +:+ "
"
  else if String.eqb (role message) "user"
  then "User: " +:+ content message +:+ "
"
  else if String.eqb (role message) "assistant"
  then "Assistant: " +:+ content message +:+ "
"
  else EmptyString.

Definition transcript_spec (messages : list ChatMessage) : string :=
  String.concat EmptyString (map transcript_line messages) +:+ "Assistant: ".

(** ** GetEmbeddings *)

(** The [try] block of [GetEmbeddings]; the vector is the first [n_embd]
    floats of the buffer the engine returns. *)
Definition GetEmbeddings_try (run : EngineRun) (model_name text : string)
    (mdl : LoadedModel) (context_entry : ContextPoolEntry)
    (m : SimpleModelManager) : thrown (list float32 * SimpleModelManager) :=
  let! n_tokens :=
    tokenize_twice (llama_tokenize run text) (llama_tokenize_again run text) in
  if (n_tokens <=? 0)%Z
  then Ret ([], release_context model_name (now_release run) context_entry m)
  else
    let! r := llama_decode_prompt run in
    if negb (r =? 0)%Z
    then Ret ([], release_context model_name (now_release run) context_entry m)
    else
      let! embeddings := llama_get_embeddings run in
      match embeddings with
      | None => Ret ([], release_context model_name (now_release run) context_entry m)
      | Some buffer =>
        let n_embd := match model mdl with Some x => model_n_embd x | None => 0%Z end in
        Ret (take (Z.to_nat n_embd) buffer,
             release_context model_name (now_release run) context_entry m)
      end.

(** [SimpleModelManager::GetEmbeddings] *)
Definition GetEmbeddings (run : EngineRun) (model_name text : string)
    (m : SimpleModelManager) : option (list float32 * SimpleModelManager) :=
  match GetModel (now_get_model run) model_name m with
  | (None, _) => Some ([], m)
  | (Some mdl, m1) =>
    p ← context_pool mdl;
    '(context_entry, p1) ← AcquireContext (now_acquire run) (acquire_alloc run) p;
    let m2 := change_pool model_name p1 m1 in
    match context_entry with
    | None => Some ([], ReleaseModelReference model_name m2)
    | Some entry =>
      match GetEmbeddings_try run model_name text mdl entry m2 with
      | Ret (v, m3) => Some (v, ReleaseModelReference model_name m3)
      | Throw what =>
        let m3 := release_context model_name (now_release run) entry m2 in
        Some ([], ReleaseModelReference model_name m3)
      end
    end
  end.

(** ** StreamingSession *)

Record StreamToken := mkStreamToken {
  text : string;
  is_final : bool;
  probability : float32;
  token_id : Z
}.

Record StreamingSession := mkSession {
  session_id : string;
  stream_model_name : string;
  prompt : string;
  params : GenerationParams;
  token_queue : list StreamToken;
  finished : bool;
  error : bool;
  error_message : string
}.

(** [StreamingSession::StreamingSession] *)
Definition StreamingSession_new (id model_name prompt_text : string)
    (gen_params : GenerationParams) : StreamingSession :=
  mkSession id model_name prompt_text gen_params [] false false EmptyString.

Definition emplace (t : StreamToken) (s : StreamingSession) : StreamingSession :=
  mkSession (session_id s) (stream_model_name s) (prompt s) (params s)
            (token_queue s ++ [t]) (finished s) (error s) (error_message s).

Definition set_error (message : string) (s : StreamingSession) : StreamingSession :=
  mkSession (session_id s) (stream_model_name s) (prompt s) (params s)
            (token_queue s) (finished s) true message.

Definition set_finished (s : StreamingSession) : StreamingSession :=
  mkSession (session_id s) (stream_model_name s) (prompt s) (params s)
            (token_queue s) true (error s) (error_message s).

(** The token the task puts last: empty text, final, probability 0, id -1. *)
Definition final_token : StreamToken := mkStreamToken EmptyString true 0 (-1).

(** The [while] loop of the generation task. [stop_seen i] is what
    [finished.load()] answers at the [i]-th test: [Stop], called by another
    thread, sets the flag. [fuel] is [max_tokens - n_generated]. The
    session is returned also when a call throws: the tokens pushed so far
    stay in the queue. *)
Fixpoint stream_loop (run : EngineRun) (stop_seen : nat -> bool) (fuel i : nat)
    (s : StreamingSession) : thrown unit * StreamingSession :=
  match fuel with
  | O => (Ret tt, s)
  | S fuel' =>
    if stop_seen i then (Ret tt, s)
    else
      let st := sample_step run i in
      match llama_sampler_sample st with
      | Throw w => (Throw w, s)
      | Ret token =>
        if llama_vocab_is_eog st then (Ret tt, s)
        else
          let '(n_chars, piece) := llama_token_to_piece st in
          let token_text := if (0 <? n_chars)%Z then piece else "[UNK]" in
          let s1 :=
            emplace (mkStreamToken token_text false
                       (llama_get_logits_probability st) token) s in
          match llama_decode_token st with
          | Throw w => (Throw w, s1)
          | Ret r =>
            if (r =? 0)%Z then stream_loop run stop_seen fuel' (S i) s1
            else (Ret tt, set_error "Failed to decode token" s1)
          end
      end
  end.

(** The way the generation task leaves its body. *)
Inductive StreamExit :=
| exit_model_not_found
| exit_no_context
| exit_tokenize_failed
| exit_prompt_failed
| exit_loop_left            (* the statements after the loop were run *)
| exit_exception.

(** The [try] block of the task from [ConfigureSampler] on. On [Throw] the
    registry is as it was on entry and [context_entry] is destroyed by the
    unwinding, not given back to the pool. *)
Definition stream_try (run : EngineRun) (stop_seen : nat -> bool)
    (context_entry : ContextPoolEntry) (s : StreamingSession)
    (m : SimpleModelManager)
  : thrown StreamExit * StreamingSession * SimpleModelManager :=
  let model_name := stream_model_name s in
  match llama_sampler_reset run with
  | Throw w => (Throw w, s, m)
  | Ret _ =>
    match tokenize_twice (llama_tokenize run (prompt s))
                         (llama_tokenize_again run (prompt s)) with
    | Throw w => (Throw w, s, m)
    | Ret n_tokens =>
      if (n_tokens <=? 0)%Z
      then (Ret exit_tokenize_failed,
            set_finished (set_error "Failed to tokenize prompt" s),
            release_context model_name (now_release run) context_entry m)
      else
        match llama_decode_prompt run with
        | Throw w => (Throw w, s, m)
        | Ret r =>
          if negb (r =? 0)%Z
          then (Ret exit_prompt_failed,
                set_finished (set_error "Failed to evaluate prompt" s),
                release_context model_name (now_release run) context_entry m)
          else
            match stream_loop run stop_seen (Z.to_nat (max_tokens (params s))) 0 s with
            | (Throw w, s1) => (Throw w, s1, m)
            | (Ret _, s1) =>
              (Ret exit_loop_left,
               set_finished (emplace final_token s1),
               release_context model_name (now_release run) context_entry m)
            end
        end
    end
  end.

(** The thread [StreamingSession::StartGeneration] starts, run to its end.
    [None] as for [Generate]. *)
Definition StartGeneration (run : EngineRun) (stop_seen : nat -> bool)
    (s : StreamingSession) (m : SimpleModelManager)
  : option (StreamExit * StreamingSession * SimpleModelManager) :=
  let model_name := stream_model_name s in
  match GetModel (now_get_model run) model_name m with
  | (None, _) =>
    Some (exit_model_not_found,
          set_finished (set_error ("Model not found: " +:+ model_name) s), m)
  | (Some mdl, m1) =>
    p ← context_pool mdl;
    '(context_entry, p1) ← AcquireContext (now_acquire run) (acquire_alloc run) p;
    let m2 := change_pool model_name p1 m1 in
    match context_entry with
    | None =>
      Some (exit_no_context,
            set_finished (set_error "Failed to get context for streaming" s),
            ReleaseModelReference model_name m2)
    | Some entry =>
      match stream_try run stop_seen entry s m2 with
      | (Ret e, s1, m3) => Some (e, s1, ReleaseModelReference model_name m3)
      | (Throw what, s1, m3) =>
        Some (exit_exception, set_finished (set_error what s1),
              ReleaseModelReference model_name m3)
      end
    end
  end.

(** [StreamingSession::GetNextToken]: [None] while the caller waits on the
    condition variable, else the token, if any, and the session. *)
Definition GetNextToken (s : StreamingSession)
  : option (option StreamToken * StreamingSession) :=
  match token_queue s with
  | t :: q =>
    Some (Some t,
          mkSession (session_id s) (stream_model_name s) (prompt s) (params s)
                    q (finished s) (error s) (error_message s))
  | [] => if finished s then Some (None, s) else None
  end.





(** ** The derived averages

    A [double] is an IEEE 754 binary64 number ([prec = 53], [emax = 1024])
    with the operations of [SpecFloat], which round to nearest, ties to
    even. [static_cast<double>] of a [uint64_t], and the conversion of an
    integer operand of [/], is the rounding of the integer. *)
Definition double := spec_float.

Definition double_of_uint64 (n : N) : double :=
  binary_normalize 53 1024 (Z.of_N n) 0 false.

Definition double_div : double -> double -> double := SFdiv 53 1024.
Definition double_mul : double -> double -> double := SFmul 53 1024.

Definition double_zero : double := S754_zero false.          (* 0.0 *)
Definition double_1000 : double := double_of_uint64 1000.    (* 1000.0 *)

(** A finite number other than zero: what a divisor has to be for the
    division not to be one by zero, by an infinity or by a NaN. *)
Definition finite_nonzero (x : double) : bool :=
  match x with
  | S754_finite _ _ _ => true
  | _ => false
  end.

(** [PerformanceMetrics::GetAverageTokensPerSecond] *)
Definition Metrics_GetAverageTokensPerSecond (x : PerformanceMetrics) : double :=
  let requests := total_requests x in
  let time_ms := total_generation_time_ms x in
  if (0 <? requests) && (0 <? time_ms)
  then double_mul (double_div (double_of_uint64 (total_tokens_generated x))
                              (double_of_uint64 time_ms))
                  double_1000
  else double_zero.

(** [PerformanceMetrics::GetAverageLatencyMs] *)
Definition Metrics_GetAverageLatencyMs (x : PerformanceMetrics) : double :=
  let requests := total_requests x in
  if 0 <? requests
  then double_div (double_of_uint64 (total_generation_time_ms x))
                  (double_of_uint64 requests)
  else double_zero.

(** [PerformanceSnapshot::GetAverageTokensPerSecond] *)
Definition Snapshot_GetAverageTokensPerSecond (x : PerformanceSnapshot) : double :=
  if (0 <? snap_total_requests x) && (0 <? snap_total_generation_time_ms x)
  then double_mul (double_div (double_of_uint64 (snap_total_tokens_generated x))
                              (double_of_uint64 (snap_total_generation_time_ms x)))
                  double_1000
  else double_zero.

(** [PerformanceSnapshot::GetAverageLatencyMs] *)
Definition Snapshot_GetAverageLatencyMs (x : PerformanceSnapshot) : double :=
  if 0 <? snap_total_requests x
  then double_div (double_of_uint64 (snap_total_generation_time_ms x))
                  (double_of_uint64 (snap_total_requests x))
  else double_zero.

(** The averages with the divisions the code performs made explicit: the
    value, and the divisor of the division that produced it, if any. *)
Definition latency_division (x : PerformanceSnapshot) : option (double * double) :=
  if 0 <? snap_total_requests x
  then Some (double_of_uint64 (snap_total_generation_time_ms x),
             double_of_uint64 (snap_total_requests x))
  else None.

Definition throughput_division (x : PerformanceSnapshot) : option (double * double) :=
  if (0 <? snap_total_requests x) && (0 <? snap_total_generation_time_ms x)
  then Some (double_of_uint64 (snap_total_tokens_generated x),
             double_of_uint64 (snap_total_generation_time_ms x))
  else None.

(** The fields of a snapshot are [uint64_t]. *)
Definition snapshot_in_range (x : PerformanceSnapshot) : Prop :=
  snap_total_requests x < uint64_modulus
  /\ snap_total_tokens_generated x < uint64_modulus
  /\ snap_total_generation_time_ms x < uint64_modulus.

(** ** Concrete inputs for the examples below *)

Definition tiny_model : llama_model := mkLlamaModel 4096 1000000 64.

Definition tiny_config : ModelConfig :=
  mkModelConfig "/models/tiny.gguf" 2048 512 4 0 (-1) true false false true.

(** The engine hands out a context and a sampler; the entry is placed at [addr]. *)
Definition alloc_at (addr : N) : ContextAlloc :=
  mkContextAlloc (Some (addr + 1000)) (Some (addr + 2000)) addr.

Definition entry_at (addr : N) (t : time_point) : ContextPoolEntry :=
  mkEntry addr (addr + 1000) (addr + 2000) t true 1.

(** A registry built by [SimpleModelManager(1, 10)], its backend
    initialised, and an engine that loads [tiny_model] from any path. *)
Definition one_megabyte_manager : SimpleModelManager :=
  set_backend_initialized true (SimpleModelManager_new 1 10).

Definition willing_engine : LoadEnv :=
  mkLoadEnv false (fun _ => true) (fun _ => Some tiny_model) 0%Z.

(** A registry with [tiny_model] loaded as "tiny", parameters with
    [max_tokens = 3], and two runs of the engine: one that samples the
    tokens 7, 8, 9, ... without end, one whose tokenizer throws. *)
Definition tiny_manager : SimpleModelManager :=
  snd (LoadModel willing_engine "tiny" tiny_config one_megabyte_manager).

Definition three_tokens : GenerationParams :=
  mkGenerationParams 3 0 0 40 0 64 (-1) false [].

Definition steady_step (i : nat) : SampleStep :=
  mkSampleStep (Ret (7 + Z.of_nat i)%Z) false (1%Z, "a") 0 (Ret 0%Z).

Definition steady_run : EngineRun :=
  mkEngineRun 1%Z 2%Z (alloc_at 1) 3%Z (Ret tt) (fun _ => Ret 4%Z) (fun _ => Ret 4%Z)
              (Ret 0%Z) steady_step (Ret (Some [1; 2; 3])) 9%Z 10%Z.

Definition throwing_run : EngineRun :=
  mkEngineRun 1%Z 2%Z (alloc_at 1) 3%Z (Ret tt) (fun _ => Throw "std::bad_alloc")
              (fun _ => Ret 4%Z) (Ret 0%Z) steady_step (Ret (Some [1; 2; 3])) 9%Z 10%Z.

(** A run whose tokenizer finds tokens in the text [accepted] and in no
    other, and whose sampler ends the generation at once; a registry with
    [tiny_model] loaded under a given name. *)
Definition ending_step (i : nat) : SampleStep :=
  mkSampleStep (Ret 2%Z) true (0%Z, EmptyString) 0 (Ret 0%Z).

Definition picky_run (accepted : string) : EngineRun :=
  mkEngineRun 1%Z 2%Z (alloc_at 1) 3%Z (Ret tt)
              (fun text => Ret (if String.eqb text accepted then 4%Z else 0%Z))
              (fun text => Ret (if String.eqb text accepted then 4%Z else 0%Z))
              (Ret 0%Z) ending_step (Ret (Some [1; 2; 3])) 9%Z 10%Z.

Definition manager_with (model_name : string) : SimpleModelManager :=
  mkManager
    {[ model_name :=
         mkLoadedModel (Some tiny_model)
                       (Some (ContextPool_new (Some tiny_model) tiny_config 4))
                       tiny_config 0%Z 0%Z 0 0 ]}
    true (mkMetrics 0 0 0 0 0 0 0) 0 4 false false.

Definition never_stopped : nat -> bool := fun _ => false.

(** A pool of at most 4 entries with one entry out; the same pool with
    two idle entries, one last used at tick 0 and one at tick 10^12; a
    registry whose model "tiny" has one reference out; registries with a
    thread inside [UnloadModel]; a registry that has served 2 requests. *)
Definition one_held : PoolSys :=
  mkPoolSys (ContextPool_new (Some tiny_model) tiny_config 4) [entry_at 1 10%Z].

Definition two_idle : PoolSys :=
  mkPoolSys
    (mkPool [1; 2]
            [mkEntry 1 1001 2001 0%Z false 1; mkEntry 2 1002 2002 1000000000000%Z false 1]
            (Some tiny_model) tiny_config 4 30)
    [].

Definition referenced_manager : SimpleModelManager :=
  snd (GetModel 5%Z "tiny" tiny_manager).

Definition idle_registry : Registry := mkRegistry referenced_manager None.

Definition waiting_registry : Registry :=
  mkRegistry referenced_manager (Some ("tiny", AtRefWait)).

Definition released_registry : Registry :=
  mkRegistry (ReleaseModelReference "tiny" referenced_manager) None.

Definition draining_registry : Registry :=
  mkRegistry (ReleaseModelReference "tiny" referenced_manager)
             (Some ("tiny", AtPoolWait 0)).

Definition busy_manager : SimpleModelManager :=
  set_metrics (mkMetrics 2 10 500 2000000 2000000 0 0) tiny_manager.

(** ** Further definitions for the properties of Part III *)

(** The flag of an entry tells where it is: idle entries carry
    [in_use = false], entries a caller holds carry [in_use = true]. *)
Definition pool_flags (s : PoolSys) : Prop :=
  Forall (fun e => in_use e = false) (all_contexts_ (pool s))
  /\ Forall (fun e => in_use e = true) (held s).

(** What [AcquireContext] makes of the idle entry it hands out. *)
Definition reused (now : time_point) (e : ContextPoolEntry) : ContextPoolEntry :=
  mkEntry (entry_addr e) (context e) (sampler e) now true (wrap64 (usage_count e + 1)).

(** [PerformanceMetrics::GetMemoryUsageMB] and
    [PerformanceSnapshot::GetMemoryUsageMB] *)
Definition Metrics_GetMemoryUsageMB (x : PerformanceMetrics) : N :=
  metrics_memory_usage_bytes x / (1024 * 1024).

Definition Snapshot_GetMemoryUsageMB (x : PerformanceSnapshot) : N :=
  snap_memory_usage_bytes x / (1024 * 1024).

(** [SimpleModelManager::GetTotalMemoryUsage] *)
Definition GetTotalMemoryUsage (m : SimpleModelManager) : N :=
  Metrics_GetMemoryUsageMB (metrics_ m).

(** The sum of the footprints the loaded models carry. *)
Definition models_memory (ms : gmap string LoadedModel) : N :=
  map_fold (fun _ lm acc => memory_usage_bytes lm + acc) 0 ms.

(** The counter of the accountant agrees with the loaded models. *)
Definition memory_accounted (m : SimpleModelManager) : Prop :=
  metrics_memory_usage_bytes (metrics_ m) = wrap64 (models_memory (models_ m)).

(** What an operation on a loaded model has no business changing: which
    models are loaded, what they are, how many references each has, the
    memory counters and the settings of the registry. The pools, the
    times of last access and the request counters are left free. *)
Definition model_identity (lm : LoadedModel)
  : option llama_model * ModelConfig * time_point * N :=
  (model lm, config lm, load_time lm, memory_usage_bytes lm).

Definition registry_kept (m m' : SimpleModelManager) : Prop :=
  model_identity <$> models_ m' = model_identity <$> models_ m
  /\ reference_count <$> models_ m' = reference_count <$> models_ m
  /\ metrics_memory_usage_bytes (metrics_ m') = metrics_memory_usage_bytes (metrics_ m)
  /\ peak_memory_bytes (metrics_ m') = peak_memory_bytes (metrics_ m)
  /\ memory_limit_bytes_ m' = memory_limit_bytes_ m
  /\ max_context_pool_size_ m' = max_context_pool_size_ m
  /\ backend_initialized_ m' = backend_initialized_ m
  /\ cleanup_thread_joinable m' = cleanup_thread_joinable m.

(** The reference counts are in the range of [size_t]. *)
Definition references_in_range (m : SimpleModelManager) : Prop :=
  forall name lm, models_ m !! name = Some lm -> reference_count lm < uint64_modulus.

(** The same without the reference counts: what each single step of an
    operation keeps. *)
Definition kept_but_references (m m' : SimpleModelManager) : Prop :=
  model_identity <$> models_ m' = model_identity <$> models_ m
  /\ metrics_memory_usage_bytes (metrics_ m') = metrics_memory_usage_bytes (metrics_ m)
  /\ peak_memory_bytes (metrics_ m') = peak_memory_bytes (metrics_ m)
  /\ memory_limit_bytes_ m' = memory_limit_bytes_ m
  /\ max_context_pool_size_ m' = max_context_pool_size_ m
  /\ backend_initialized_ m' = backend_initialized_ m
  /\ cleanup_thread_joinable m' = cleanup_thread_joinable m.


(** The text a reader of the stream puts together from its tokens. *)
Definition streamed_text (ts : list StreamToken) : string :=
  String.concat EmptyString (map text ts).

(** Every piece the engine returns in the sampling loop has a positive
    length. *)
Definition pieces_nonempty (run : EngineRun) : Prop :=
  forall i, (0 < fst (llama_token_to_piece (sample_step run i)))%Z.

(** [n] calls of [GetNextToken] one after the other: what each call
    returns, and the session after the last. [None] if a call waits. *)
Fixpoint next_tokens (n : nat) (s : StreamingSession)
  : option (list (option StreamToken) * StreamingSession) :=
  match n with
  | O => Some ([], s)
  | S n' =>
    '(t, s1) ← GetNextToken s;
    '(ts, s2) ← next_tokens n' s1;
    Some (t :: ts, s2)
  end.

(** ** The table of streaming sessions

    [streaming_sessions_], guarded by [streaming_mutex_]. The sessions in
    the table are filled by their generation threads. *)
Definition SessionTable := gmap string StreamingSession.

(** [std::to_string] of a tick count *)
Definition to_string (ticks : Z) : string := pretty ticks.

(** [SimpleModelManager::StartStreamingSession]; [now] is the clock at the
    call. The session is entered as its thread finds it. *)
Definition StartStreamingSession (now : time_point) (model_name prompt_text : string)
    (gen_params : GenerationParams) (table : SessionTable)
  : string * SessionTable :=
  let session_id := "stream_" +:+ to_string now in
  let session := StreamingSession_new session_id model_name prompt_text gen_params in
  (session_id, <[session_id := session]> table).

(** [SimpleModelManager::GetNextStreamToken]: [None] while the call waits
    inside [GetNextToken], holding [streaming_mutex_]. *)
Definition GetNextStreamToken (session_id : string) (table : SessionTable)
  : option (option StreamToken * SessionTable) :=
  match table !! session_id with
  | Some s =>
    '(t, s1) ← GetNextToken s;
    Some (t, <[session_id := s1]> table)
  | None => Some (None, table)
  end.

(** [SimpleModelManager::StopStreamingSession] *)
Definition StopStreamingSession (session_id : string) (table : SessionTable)
  : SessionTable :=
  match table !! session_id with
  | Some _ => delete session_id table
  | None => table
  end.

(** [SimpleModelManager::CleanupExpiredSessions] *)
Definition CleanupExpiredSessions (table : SessionTable) : SessionTable :=
  filter (fun kv => finished kv.2 = false) table.

(** The characters of a string up to its first NUL: what [strcpy] copies
    and what a function that takes a [const char*] reads. *)
Fixpoint c_str (s : string) : string :=
  match s with
  | EmptyString => EmptyString
  | String c rest =>
    if Ascii.eqb c Ascii.zero then EmptyString else String c (c_str rest)
  end.

(** The members [cpp_llama_get_stream_token] puts into the object it
    answers with. The token is handed over as [token.text.c_str()]: the
    member holds the text up to its first NUL. *)
Record StreamTokenResponse := mkStreamTokenResponse {
  response_token : string;
  response_is_final : bool;
  response_probability : float32
}.

(** [cpp_llama_get_stream_token] for a [session_id] that is not null. *)
Definition cpp_llama_get_stream_token (session_id : string) (table : SessionTable)
  : option (StreamTokenResponse * SessionTable) :=
  '(token, table1) ← GetNextStreamToken session_id table;
  match token with
  | Some t =>
    Some (mkStreamTokenResponse (c_str (text t)) (is_final t) (probability t), table1)
  | None => Some (mkStreamTokenResponse EmptyString true 0, table1)
  end.


(** ** Batch requests *)

Record BatchRequest := mkBatchRequest {
  request_id : string;
  batch_model_name : string;
  batch_prompt : string;
  batch_params : GenerationParams;
  submitted_at : time_point;
  completed : bool
}.

Record BatchResult := mkBatchResult {
  result_request_id : string;
  response : string;
  success : bool;
  result_error_message : string;
  completed_at : time_point;
  processing_time_ms : N
}.

(** [batch_queue_] and [batch_results_], guarded by [batch_mutex_]. *)
Record BatchState := mkBatchState {
  batch_queue_ : list BatchRequest;
  batch_results_ : gmap string BatchResult
}.

(** The two members as the constructor of the manager leaves them. *)
Definition BatchState_new : BatchState := mkBatchState [] ∅.

(** [SimpleModelManager::SubmitBatchRequest]; the clock is read twice. *)
Definition SubmitBatchRequest (now submitted : time_point)
    (model_name prompt_text : string) (gen_params : GenerationParams)
    (b : BatchState) : string * BatchState :=
  let id := "batch_" +:+ to_string now in
  let request := mkBatchRequest id model_name prompt_text gen_params submitted false in
  (id, mkBatchState (batch_queue_ b ++ [request]) (batch_results_ b)).

(** [SimpleModelManager::GetBatchResult]. The result built for an unknown
    id leaves [processing_time_ms] without a value: [indeterminate] stands
    for what is read from it. *)
Definition GetBatchResult (indeterminate : N) (id : string) (b : BatchState)
  : BatchResult :=
  match batch_results_ b !! id with
  | Some r => r
  | None => mkBatchResult id EmptyString false "Request not found" 0%Z indeterminate
  end.

(** [SimpleModelManager::GetAllBatchResults], in the order of the table. *)
Definition GetAllBatchResults (b : BatchState) : list BatchResult :=
  (map_to_list (batch_results_ b)).*2.

(** A call of the batch interface. *)
Inductive batch_step : BatchState -> BatchState -> Prop :=
| batch_submit b now submitted model_name prompt_text gen_params :
    batch_step b (snd (SubmitBatchRequest now submitted model_name prompt_text gen_params b)).



(** [SimpleModelManager::GetModelRaw]: the shared pointer is destroyed at
    the return, which runs its deleter; the object the raw pointer refers
    to is returned as it is then. *)
Definition GetModelRaw (now : time_point) (model_name : string) (m : SimpleModelManager)
  : option LoadedModel * SimpleModelManager :=
  match GetModel now model_name m with
  | (None, m1) => (None, m1)
  | (Some _, m1) =>
    let m2 := ReleaseModelReference model_name m1 in
    (models_ m2 !! model_name, m2)
  end.

(** [PerformanceMetrics::Reset] and [SimpleModelManager::ResetMetrics] *)
Definition PerformanceMetrics_Reset (x : PerformanceMetrics) : PerformanceMetrics :=
  mkMetrics 0 0 0 0 0 0 0.

Definition ResetMetrics (m : SimpleModelManager) : SimpleModelManager :=
  set_metrics (PerformanceMetrics_Reset (metrics_ m)) m.

(** The members of a manager that its functions read or write: the
    registry, the table of sessions and the batch state. ([start_time_],
    [should_stop_cleanup_] and [batch_processor_] are declared and used by
    no function.) *)
Definition ManagerState : Type := SimpleModelManager * SessionTable * BatchState.

(** The state the constructor leaves. *)
Definition ManagerState_new (memory_limit_mb max_context_pool_size : N) : ManagerState :=
  (SimpleModelManager_new memory_limit_mb max_context_pool_size, ∅, BatchState_new).

(** [SimpleModelManager::Cleanup]: the cleanup thread is joined, every
    session stopped and the table cleared, the models cleared, the backend
    freed and the metrics reset. [batch_queue_] and [batch_results_] are
    not touched. *)
Definition Cleanup (m : SimpleModelManager) (table : SessionTable) (b : BatchState)
  : ManagerState :=
  let m1 := mkManager (models_ m) (backend_initialized_ m) (metrics_ m)
                      (memory_limit_bytes_ m) (max_context_pool_size_ m) false false in
  let table1 : SessionTable := ∅ in
  let m2 := set_models ∅ m1 in
  let m3 := if backend_initialized_ m2 then set_backend_initialized false m2 else m2 in
  (ResetMetrics m3, table1, b).

(** ** The C interface of the bridge *)

(** [string_to_cstring]; [malloc_ok] tells whether [malloc] returns memory.
    [None] is the null pointer. *)
Definition string_to_cstring (malloc_ok : bool) (str : string) : option string :=
  match str with
  | EmptyString => None
  | _ => if malloc_ok then Some (c_str str) else None
  end.

(** [cstring_to_string] *)
Definition cstring_to_string (cstr : option string) : string :=
  match cstr with
  | Some s => s
  | None => EmptyString
  end.

(** [cpp_llama_generate]; [gen_params] is what [parse_generation_params]
    makes of [options_json]. *)
Definition cpp_llama_generate (malloc_ok : bool) (run : EngineRun)
    (model_arg prompt_arg : option string) (gen_params : GenerationParams)
    (m : SimpleModelManager) : option (option string * SimpleModelManager) :=
  match model_arg, prompt_arg with
  | Some _, Some _ =>
    let model_str := cstring_to_string model_arg in
    let prompt_str := cstring_to_string prompt_arg in
    '(response, m') ← Generate run model_str prompt_str gen_params m;
    Some (string_to_cstring malloc_ok response, m')
  | _, _ =>
    Some (string_to_cstring malloc_ok "Error: Model name and prompt are required", m)
  end.

(* ===================================================================== *)
(** * Part II: properties                                                 *)
(* ===================================================================== *)

(** ** The context pool *)

Section PoolInvariant.

Lemma take_entry_front e v :
  take_entry (entry_addr e) (e :: v) = Some (e, v).
Proof. simpl. by rewrite N.eqb_refl. Qed.

Lemma deref_fresh raw (v1 v2 : list ContextPoolEntry) e :
  raw ∉ map entry_addr v1 ->
  entry_addr e = raw ->
  deref raw (v1 ++ e :: v2) = Some e.
Proof.
  unfold deref. induction v1 as [|x v1 IH]; simpl; intros Hnot Haddr.
  - rewrite Haddr. by rewrite N.eqb_refl.
  - apply not_elem_of_cons in Hnot as [Hne Hnot].
    destruct (N.eqb_spec (entry_addr x) raw) as [Heq|_]; [congruence|].
    by apply IH.
Qed.

Lemma filter_other_addr raw (v : list ContextPoolEntry) :
  raw ∉ map entry_addr v ->
  List.filter (fun ptr => negb (entry_addr ptr =? raw)) v = v.
Proof.
  induction v as [|x v IH]; simpl; intros Hnot; [done|].
  apply not_elem_of_cons in Hnot as [Hne Hnot].
  destruct (N.eqb_spec (entry_addr x) raw) as [Heq|_]; [congruence|].
  simpl. by rewrite IH.
Qed.

Lemma filter_erases_one (v1 v2 : list ContextPoolEntry) e :
  NoDup (map entry_addr (v1 ++ e :: v2)) ->
  List.filter (fun ptr => negb (entry_addr ptr =? entry_addr e)) (v1 ++ e :: v2)
  = v1 ++ v2.
Proof.
  intros Hnd. rewrite map_app in Hnd. simpl in Hnd.
  apply NoDup_app in Hnd as (_ & Hdisj & Hnd2).
  apply NoDup_cons in Hnd2 as [Hnot2 _].
  rewrite List.filter_app. simpl. rewrite N.eqb_refl. simpl.
  rewrite !filter_other_addr; [done|done|].
  intros Hin. apply (Hdisj _ Hin). left.
Qed.

Lemma cleanup_loop_filter now ttl (v2 : list ContextPoolEntry) :
  forall (v1 : list ContextPoolEntry) (nq : list N),
    NoDup (map entry_addr (v1 ++ v2)) ->
    cleanup_loop now ttl (map entry_addr v2) nq (v1 ++ v2)
    = Some (nq ++ map entry_addr (List.filter (fresh_enough now ttl) v2),
            v1 ++ List.filter (fresh_enough now ttl) v2).
Proof.
  induction v2 as [|e v2 IH]; intros v1 nq Hnd; simpl.
  - by rewrite !app_nil_r.
  - assert (Hnot1 : entry_addr e ∉ map entry_addr v1).
    { rewrite map_app in Hnd. simpl in Hnd.
      apply NoDup_app in Hnd as (_ & Hdisj & _).
      intros Hin. apply (Hdisj _ Hin). left. }
    rewrite (deref_fresh _ v1 v2 e Hnot1 eq_refl).
    unfold fresh_enough at 1 2. fold (fresh_enough now ttl e).
    destruct (fresh_enough now ttl e) eqn:Hk.
    + replace (v1 ++ e :: v2) with ((v1 ++ [e]) ++ v2) in * by by rewrite <- app_assoc.
      rewrite (IH (v1 ++ [e]) (nq ++ [entry_addr e]) Hnd).
      simpl. by rewrite <- !app_assoc.
    + rewrite (filter_erases_one v1 v2 e Hnd).
      apply IH.
      rewrite map_app in *. simpl in Hnd.
      apply NoDup_app in Hnd as (Hnd1 & Hdisj & Hnd2).
      apply NoDup_cons in Hnd2 as [_ Hnd2].
      apply NoDup_app. split_and!; [done| |done].
      intros x Hx1 Hx2. apply (Hdisj x Hx1). by right.
Qed.

Lemma cleanup_wf_result now (s : PoolSys) :
  pool_wf s ->
  CleanupExpiredContexts now (pool s)
  = Some (with_contexts
            (map entry_addr (List.filter (fresh_enough now (context_ttl_ (pool s)))
                                         (all_contexts_ (pool s))))
            (List.filter (fresh_enough now (context_ttl_ (pool s)))
                         (all_contexts_ (pool s)))
            (pool s)).
Proof.
  intros [Hq Hnd]. unfold CleanupExpiredContexts. rewrite Hq.
  unfold live_addrs in Hnd. apply NoDup_app in Hnd as (Hnd & _ & _).
  by rewrite (cleanup_loop_filter now _ (all_contexts_ (pool s)) [] [] Hnd).
Qed.

Lemma NoDup_filter_sub (f : ContextPoolEntry -> bool) (v : list ContextPoolEntry)
    (h : list N) :
  NoDup (map entry_addr v ++ h) ->
  NoDup (map entry_addr (List.filter f v) ++ h).
Proof.
  intros Hnd. apply NoDup_app in Hnd as (Hv & Hdisj & Hh).
  assert (Hsub : forall x, x ∈ map entry_addr (List.filter f v) -> x ∈ map entry_addr v).
  { intros x Hx. apply list_elem_of_fmap in Hx as (y & -> & Hy).
    apply list_elem_of_fmap. exists y. split; [done|].
    apply list_elem_of_In. apply list_elem_of_In in Hy.
    by apply List.filter_In in Hy as [Hy _]. }
  apply NoDup_app. split_and!; [|naive_solver|done].
  clear Hdisj Hsub. induction v as [|x v IH]; simpl; [constructor|].
  apply NoDup_cons in Hv as [Hx Hv].
  destruct (f x); simpl; [|by apply IH].
  apply NoDup_cons. split; [|by apply IH].
  intros Hin. apply Hx.
  apply list_elem_of_fmap in Hin as (y & -> & Hy).
  apply list_elem_of_fmap. exists y. split; [done|].
  apply list_elem_of_In. apply list_elem_of_In in Hy.
  by apply List.filter_In in Hy as [Hy _].
Qed.

Lemma pool_step_wf s s' : pool_wf s -> pool_step s s' -> pool_wf s'.
Proof.
  intros [Hq Hnd] Hstep. unfold pool_wf, live_addrs in *.
  destruct Hstep as [s now a r p' Hfresh Hacq | s now h1 e h2 Hh
                    | s now | s h1 e h2 Hh | s now p' Hcl]; simpl.
  - unfold AcquireContext in Hacq.
    destruct (available_contexts_ (pool s)) as [|raw rest] eqn:Hav.
    + symmetry in Hq. apply fmap_nil_inv in Hq.
      rewrite Hq in *. simpl in *.
      assert (Hnot : make_unique_addr a ∉ map entry_addr (held s)).
      { unfold live_addrs in Hfresh. rewrite Hq in Hfresh. by simpl in Hfresh. }
      destruct (_ <? _); simplify_eq; simpl;
        rewrite ?Hq, ?Hav; simpl; [|done].
      unfold CreateNewContext.
      destruct (model_ (pool s)), (llama_init_from_model a),
        (llama_sampler_chain_init a); simpl; split; try done.
      by apply NoDup_cons.
    + destruct (all_contexts_ (pool s)) as [|e v] eqn:Hall; [done|].
      simpl in Hq. injection Hq as -> ->.
      rewrite take_entry_front in Hacq. simplify_eq. simpl.
      split; [done|].
      simpl in Hnd. by rewrite <- Permutation_middle.
  - rewrite Hh in Hnd. rewrite !map_app. simpl. rewrite Hq. split; [done|].
    rewrite <- Permutation_middle in Hnd. simpl in Hnd.
    rewrite map_app in Hnd.
    by rewrite <- app_assoc.
  - done.
  - split; [done|]. rewrite Hh in Hnd.
    rewrite !map_app in *. simpl in Hnd.
    apply NoDup_app in Hnd as (H1 & Hdisj & H2).
    apply NoDup_app in H2 as (H21 & Hd2 & H22).
    apply NoDup_cons in H22 as [Hne H22].
    apply NoDup_app. split_and!; [done| |].
    + intros x Hx1 Hx2. apply (Hdisj x Hx1).
      apply elem_of_app in Hx2 as [?|?]; apply elem_of_app; [by left|].
      right. by right.
    + apply NoDup_app. split_and!; [done| |done].
      intros x Hx1 Hx2. apply (Hd2 x Hx1). by right.
  - rewrite (cleanup_wf_result now s) in Hcl by done.
    simplify_eq. simpl. split; [done|].
    by apply NoDup_filter_sub.
Qed.

Lemma pool_init_wf model config max_size : pool_wf (pool_init model config max_size).
Proof. split; simpl; [done|]. unfold live_addrs. simpl. constructor. Qed.

Lemma pool_reachable_wf model config max_size s :
  pool_reachable model config max_size s -> pool_wf s.
Proof.
  unfold pool_reachable. revert s.
  apply rtc_ind_r; [apply pool_init_wf|].
  intros y z _ Hstep Hwf. by eapply pool_step_wf.
Qed.

Lemma pool_step_settings s s' :
  pool_step s s' -> same_settings (pool s) (pool s').
Proof.
  intros Hstep.
  destruct Hstep as [s now a r p' Hfresh Hacq | s now h1 e h2 Hh
                    | s now | s h1 e h2 Hh | s now p' Hcl]; simpl;
    try (by repeat split).
  - unfold AcquireContext in Hacq.
    destruct (available_contexts_ (pool s)).
    + destruct (_ <? _); simplify_eq; by repeat split.
    + destruct (take_entry _ _) as [[? ?]|]; simplify_eq. by repeat split.
  - unfold CleanupExpiredContexts in Hcl.
    destruct (cleanup_loop _ _ _ _ _) as [[? ?]|]; simplify_eq. by repeat split.
Qed.

Lemma pool_reachable_ttl model config max_size s :
  pool_reachable model config max_size s -> context_ttl_ (pool s) = 30%Z.
Proof.
  unfold pool_reachable. revert s.
  apply rtc_ind_r; [done|]. intros y z _ Hstep Hy.
  apply pool_step_settings in Hstep as (_ & _ & _ & Ht). congruence.
Qed.

End PoolInvariant.

Section PoolClaims.

Lemma pool_reachable_step model config max_size s s' :
  pool_reachable model config max_size s -> pool_step s s' ->
  pool_reachable model config max_size s'.
Proof. intros Hr Hs. eapply rtc_r; eauto. Qed.

Lemma wf_sizes s : pool_wf s -> GetPoolSize (pool s) = GetAvailableCount (pool s).
Proof.
  intros [Hq _]. unfold GetPoolSize, GetAvailableCount.
  by rewrite Hq, length_map.
Qed.

(** In a state the pool reaches, a model that is there and an engine
    that answers are enough for [AcquireContext] to hand out an entry:
    the test against [max_pool_size_] only sees the idle entries, and it
    is made when there are none. *)
Lemma AcquireContext_never_exhausted s now a mdl :
  pool_wf s ->
  model_ (pool s) = Some mdl ->
  0 < max_pool_size_ (pool s) ->
  is_Some (llama_init_from_model a) ->
  is_Some (llama_sampler_chain_init a) ->
  exists e p', AcquireContext now a (pool s) = Some (Some e, p').
Proof.
  intros [Hq _] Hm Hmax [ctx Hctx] [smp Hsmp]. unfold AcquireContext.
  destruct (available_contexts_ (pool s)) as [|raw rest] eqn:Hav.
  - symmetry in Hq. apply fmap_nil_inv in Hq. rewrite Hq.
    change (N.of_nat (length [])) with 0.
    apply N.ltb_lt in Hmax. rewrite Hmax.
    unfold CreateNewContext. rewrite Hm, Hctx, Hsmp. eauto.
  - destruct (all_contexts_ (pool s)) as [|e v]; [done|].
    simpl in Hq. injection Hq as -> _. rewrite take_entry_front. eauto.
Qed.

(** Any number of entries can be out at once, whatever the maximum. *)
Lemma outstanding_unbounded mdl config max_size (k : nat) :
  0 < max_size ->
  exists s, pool_reachable (Some mdl) config max_size s
            /\ pool s = ContextPool_new (Some mdl) config max_size
            /\ held s = map (fun i => entry_at (N.of_nat i) 0%Z) (rev (seq 0 k)).
Proof.
  intros Hmax. induction k as [|k (s & Hr & Hp & Hh)].
  - exists (pool_init (Some mdl) config max_size). split; [apply rtc_refl|done].
  - exists (mkPoolSys (pool s) (option_list (Some (entry_at (N.of_nat k) 0%Z)) ++ held s)).
    split_and!.
    + eapply pool_reachable_step; [exact Hr|].
      apply (step_acquire s 0%Z (alloc_at (N.of_nat k))).
      * unfold live_addrs. rewrite Hp, Hh. simpl.
        rewrite map_map. simpl. intros Hin.
        apply list_elem_of_fmap in Hin as (i & Hi & Hin).
        apply list_elem_of_In in Hin. rewrite <- in_rev in Hin.
        apply in_seq in Hin. lia.
      * rewrite Hp. unfold AcquireContext. simpl available_contexts_.
        change (N.of_nat (length _)) with 0. simpl max_pool_size_.
        apply N.ltb_lt in Hmax. by rewrite Hmax.
    + done.
    + rewrite seq_S, rev_app_distr. simpl. by rewrite Hh.
Qed.

(** C1 (evaluation at the failing input): a pool built with maximum size
    1 hands out a second entry while the first is still held, so two
    entries are out at once. *)
Theorem C1_two_held_from_pool_of_one :
  let p0 := ContextPool_new (Some tiny_model) tiny_config 1 in
  AcquireContext 10%Z (alloc_at 1) p0 = Some (Some (entry_at 1 10%Z), p0)
  /\ AcquireContext 20%Z (alloc_at 2) p0 = Some (Some (entry_at 2 20%Z), p0)
  /\ pool_reachable (Some tiny_model) tiny_config 1
       (mkPoolSys p0 [entry_at 2 20%Z; entry_at 1 10%Z])
  /\ max_pool_size_ p0 < N.of_nat (length [entry_at 2 20%Z; entry_at 1 10%Z]).
Proof.
  simpl. split_and!; [done|done| |done].
  eapply rtc_l.
  { apply (step_acquire _ 10%Z (alloc_at 1) (Some (entry_at 1 10%Z))
                        (ContextPool_new (Some tiny_model) tiny_config 1));
      [|done].
    unfold live_addrs. simpl. apply not_elem_of_nil. }
  eapply rtc_l; [|apply rtc_refl].
  apply (step_acquire (mkPoolSys _ [entry_at 1 10%Z]) 20%Z (alloc_at 2)
                      (Some (entry_at 2 20%Z))); [|done].
  unfold live_addrs. simpl. rewrite list_elem_of_singleton. done.
Qed.

(** C6: in every state a pool reaches, with entries checked out or not,
    [GetPoolSize] equals [GetAvailableCount]; an entry [AcquireContext]
    hands out is in neither collection of the pool afterwards; and the
    drain wait of [UnloadModel] on such a pool leaves its loop at the
    first test, without sleeping. *)
Theorem C6_pool_size_equals_available model config max_size s :
  pool_reachable model config max_size s ->
  GetPoolSize (pool s) = GetAvailableCount (pool s)
  /\ pool_quiescent (pool s) = true
  /\ (forall now a e p',
        make_unique_addr a ∉ live_addrs s ->
        AcquireContext now a (pool s) = Some (Some e, p') ->
        (entry_addr e ∉ map entry_addr (all_contexts_ p'))
        /\ (entry_addr e ∉ available_contexts_ p')
        /\ GetPoolSize p' = GetAvailableCount p')
  /\ (forall model_name lm m,
        models_ m !! model_name = Some lm ->
        context_pool lm = Some (pool s) ->
        UnloadModel_step model_name (AtPoolWait 0) m
        = Some (Returned true, UnloadModel_erase model_name lm m)).
Proof.
  intros Hr. pose proof (pool_reachable_wf _ _ _ _ Hr) as Hwf.
  pose proof (wf_sizes s Hwf) as Hsz.
  assert (Hqt : pool_quiescent (pool s) = true).
  { unfold pool_quiescent. by apply N.eqb_eq. }
  split_and!; [done|done| |].
  - intros now a e p' Hfresh Hacq.
    assert (Hstep : pool_step s (mkPoolSys p' (option_list (Some e) ++ held s)))
      by by eapply step_acquire.
    pose proof (pool_step_wf _ _ Hwf Hstep) as Hwf'.
    pose proof (wf_sizes _ Hwf') as Hsz'.
    destruct Hwf' as [Hq' Hnd']. unfold live_addrs in Hnd'. simpl in *.
    apply NoDup_app in Hnd' as (_ & Hdisj & _).
    assert (Hnot : entry_addr e ∉ map entry_addr (all_contexts_ p')).
    { intros Hin. apply (Hdisj _ Hin). left. }
    split_and!; [done| |done]. by rewrite Hq'.
  - intros model_name lm m Hlk Hp. simpl. by rewrite Hlk, Hp, Hqt.
Qed.

(** C8: the sweep keeps exactly the idle entries that have been idle for
    less than 30 minutes: an idle entry with [now - last_used >= 30 min]
    leaves both the owning collection and the queue, one under it stays
    in both, and the entries that callers hold are out of its reach and
    stay as they are. *)
Theorem C8_cleanup_removes_exactly_expired model config max_size s now :
  pool_reachable model config max_size s ->
  exists p',
    CleanupExpiredContexts now (pool s) = Some p'
    /\ all_contexts_ p'
       = List.filter (fun e => (now - last_used e <? 30 * 60 * 1000000000)%Z)
                     (all_contexts_ (pool s))
    /\ available_contexts_ p' = map entry_addr (all_contexts_ p')
    /\ (forall e, e ∈ all_contexts_ (pool s) ->
          (30 * 60 * 1000000000 <= now - last_used e)%Z ->
          (e ∉ all_contexts_ p') /\ (entry_addr e ∉ available_contexts_ p'))
    /\ (forall e, e ∈ all_contexts_ (pool s) ->
          (now - last_used e < 30 * 60 * 1000000000)%Z ->
          e ∈ all_contexts_ p' /\ entry_addr e ∈ available_contexts_ p')
    /\ (forall e, e ∈ held s -> entry_addr e ∉ available_contexts_ (pool s))
    /\ pool_reachable model config max_size (mkPoolSys p' (held s)).
Proof.
  intros Hr. pose proof (pool_reachable_wf _ _ _ _ Hr) as Hwf.
  pose proof (pool_reachable_ttl _ _ _ _ Hr) as Httl.
  pose proof (cleanup_wf_result now s Hwf) as Hcl. rewrite Httl in Hcl.
  eexists. split; [exact Hcl|]. simpl.
  assert (Hstep : pool_step s (mkPoolSys _ (held s)))
    by (eapply step_cleanup; exact Hcl).
  pose proof (pool_step_wf _ _ Hwf Hstep) as [Hq' Hnd']. simpl in *.
  destruct Hwf as [Hq Hnd]. unfold live_addrs in *. simpl in *.
  assert (Hin_addr : forall e,
    entry_addr e ∈ map entry_addr (List.filter (fresh_enough now 30) (all_contexts_ (pool s))) ->
    e ∈ all_contexts_ (pool s) ->
    e ∈ List.filter (fresh_enough now 30) (all_contexts_ (pool s))).
  { intros e Hin He.
    apply list_elem_of_fmap in Hin as (y & Hy & Hin).
    apply list_elem_of_In, List.filter_In in Hin as [Hin Hk].
    apply list_elem_of_In in Hin.
    assert (y = e) as ->; [|by apply list_elem_of_In, List.filter_In;
                             split; [apply list_elem_of_In|]].
    apply NoDup_app in Hnd as (Hnd & _ & _).
    apply list_elem_of_lookup in Hin as [i Hi].
    apply list_elem_of_lookup in He as [j Hj].
    assert (i = j); [|congruence].
    eapply NoDup_lookup; [exact Hnd| |].
    - by rewrite list_lookup_fmap, Hi.
    - rewrite list_lookup_fmap, Hj. simpl. by rewrite Hy. }
  split_and!.
  - done.
  - done.
  - intros e He Hold.
    assert (Hk : fresh_enough now 30 e = false).
    { unfold fresh_enough, minutes_to_ticks. apply Z.ltb_ge. lia. }
    assert (Hno : e ∉ List.filter (fresh_enough now 30) (all_contexts_ (pool s))).
    { intros Hin. apply list_elem_of_In, List.filter_In in Hin as [_ Hin]. congruence. }
    split; [done|]. intros Hin. apply Hno. by apply Hin_addr.
  - intros e He Hyoung.
    assert (Hk : fresh_enough now 30 e = true).
    { unfold fresh_enough, minutes_to_ticks. apply Z.ltb_lt. lia. }
    assert (Hin : e ∈ List.filter (fresh_enough now 30) (all_contexts_ (pool s))).
    { apply list_elem_of_In, List.filter_In. split; [by apply list_elem_of_In|done]. }
    split; [done|]. apply list_elem_of_fmap. by exists e.
  - intros e He Hin. rewrite Hq in Hin.
    apply NoDup_app in Hnd as (_ & Hdisj & _).
    apply (Hdisj _ Hin). apply list_elem_of_fmap. by exists e.
  - by eapply pool_reachable_step.
Qed.

End PoolClaims.

(** ** The registry: LoadModel *)

Section LoadClaims.

Lemma LoadModel_success_loaded env model_name cfg m r m1 :
  LoadModel env model_name cfg m = (r, m1) ->
  LoadModel_result r = true ->
  backend_initialized_ m1 = true /\ is_Some (models_ m1 !! model_name).
Proof.
  unfold LoadModel, Initialize. intros Hload Hres.
  destruct (backend_initialized_ m) eqn:Hb; simpl in Hload.
  - destruct (models_ m !! model_name) eqn:Hlk.
    + simplify_eq. by rewrite Hlk.
    + repeat (case_match; simplify_eq; try done);
        simpl; rewrite lookup_insert_eq; split; try done.
  - destruct (llama_backend_init_throws env); simpl in Hload;
      [by simplify_eq|].
    destruct (models_ m !! model_name) eqn:Hlk.
    + simplify_eq. simpl. by rewrite Hlk.
    + repeat (case_match; simplify_eq; try done);
        simpl; rewrite lookup_insert_eq; split; try done.
Qed.

Lemma LoadModel_already_loaded env model_name cfg m :
  backend_initialized_ m = true ->
  is_Some (models_ m !! model_name) ->
  LoadModel env model_name cfg m = (ret_already_loaded, m).
Proof.
  intros Hb [lm Hlk]. unfold LoadModel. rewrite Hb. simpl. by rewrite Hlk.
Qed.

Lemma names_count_one (m : SimpleModelManager) model_name :
  is_Some (models_ m !! model_name) ->
  count_occ String.string_dec (GetLoadedModelNames m) model_name = 1%nat.
Proof.
  intros [lm Hlk]. unfold GetLoadedModelNames.
  apply NoDup_count_occ'.
  - apply NoDup_ListNoDup, NoDup_fst_map_to_list.
  - apply list_elem_of_In, list_elem_of_fmap. exists (model_name, lm).
    split; [done|]. by apply elem_of_map_to_list.
Qed.

(** C7: loading a name twice succeeds both times; the second call leaves
    through the already-loaded return without touching the registry, so
    the model of the first call stays, the count of loaded models is the
    same, and the name is listed exactly once. *)
Theorem C7_load_twice_is_idempotent env1 env2 model_name c1 c2 m r1 m1 :
  LoadModel env1 model_name c1 m = (r1, m1) ->
  LoadModel_result r1 = true ->
  LoadModel env2 model_name c2 m1 = (ret_already_loaded, m1)
  /\ LoadModel_result ret_already_loaded = true
  /\ GetLoadedModelCount (snd (LoadModel env2 model_name c2 m1))
     = GetLoadedModelCount m1
  /\ IsModelLoaded model_name m1 = true
  /\ count_occ String.string_dec (GetLoadedModelNames m1) model_name = 1%nat.
Proof.
  intros Hload Hres.
  destruct (LoadModel_success_loaded _ _ _ _ _ _ Hload Hres) as [Hb Hin].
  pose proof (LoadModel_already_loaded env2 model_name c2 m1 Hb Hin) as H2.
  rewrite H2. split_and!; try done.
  - unfold IsModelLoaded. by apply bool_decide_eq_true.
  - by apply names_count_one.
Qed.

(** C2 (as stated, refuted): with a limit of 1 MB and nothing loaded, a
    model estimated at 2 000 000 bytes is loaded all the same, and the
    tracked usage ends above the limit. *)
Lemma C2_load_over_limit_succeeds :
  let m := one_megabyte_manager in
  let r := LoadModel willing_engine "tiny" tiny_config m in
  memory_limit_bytes_ m = 1048576
  /\ EstimateModelMemoryUsage (Some tiny_model) = 2000000
  /\ memory_limit_bytes_ m
     < metrics_memory_usage_bytes (metrics_ m) + EstimateModelMemoryUsage (Some tiny_model)
  /\ fst r = ret_successfully_loaded
  /\ LoadModel_result (fst r) = true
  /\ IsModelLoaded "tiny" (snd r) = true
  /\ metrics_memory_usage_bytes (metrics_ (snd r)) = 2000000.
Proof. vm_compute. split_and!; done. Qed.

(** C2 (amended): with a non-zero limit that the tracked usage has
    already reached, [LoadModel] of a name that is not loaded leaves
    through the memory-limit return with [false]; the loaded models and
    the counters are as before, and so is the whole registry when it
    holds a model or its cleanup thread already runs. *)
Theorem C2_load_at_limit_fails env model_name cfg m :
  backend_initialized_ m = true ->
  memory_limit_bytes_ m <> 0 ->
  memory_limit_bytes_ m <= metrics_memory_usage_bytes (metrics_ m) ->
  models_ m !! model_name = None ->
  exists m',
    LoadModel env model_name cfg m = (ret_memory_limit_reached, m')
    /\ LoadModel_result ret_memory_limit_reached = false
    /\ models_ m' = models_ m
    /\ metrics_ m' = metrics_ m
    /\ memory_limit_bytes_ m' = memory_limit_bytes_ m
    /\ (size (models_ m) <> 0%nat \/ cleanup_thread_joinable m = true -> m' = m).
Proof.
  intros Hb Hlim Hfull Hlk. unfold LoadModel. rewrite Hb. simpl. rewrite Hlk.
  assert (Hcheck : forall m2, memory_limit_bytes_ m2 = memory_limit_bytes_ m ->
                              metrics_ m2 = metrics_ m -> CheckMemoryLimit m2 = false).
  { intros m2 H1 H2. unfold CheckMemoryLimit. rewrite H1, H2.
    apply orb_false_iff. split; [by apply N.eqb_neq|by apply N.ltb_ge]. }
  destruct (bool_decide (size (models_ m) = 0%nat)
            && negb (cleanup_thread_joinable m)) eqn:Hstart.
  - rewrite (Hcheck (start_cleanup_thread m)) by done. simpl.
    eexists. split_and!; try done.
    apply andb_true_iff in Hstart as [Hsz Hj].
    apply bool_decide_eq_true in Hsz. apply negb_true_iff in Hj.
    intros [?|?]; congruence.
  - rewrite (Hcheck m) by done. simpl. eexists. split_and!; done.
Qed.

End LoadClaims.

(** ** The registry: UnloadModel among other threads *)

Section UnloadClaims.

Lemma change_pool_lookup model_name p m name lm :
  models_ m !! name = Some lm ->
  exists lm', models_ (change_pool model_name p m) !! name = Some lm'
              /\ reference_count lm' = reference_count lm
              /\ memory_usage_bytes lm' = memory_usage_bytes lm
              /\ (is_Some (context_pool lm) -> is_Some (context_pool lm')).
Proof.
  intros Hlk. unfold change_pool.
  destruct (models_ m !! model_name) as [x|] eqn:Hx; [|by exists lm].
  destruct (context_pool x) eqn:Hp; [|by exists lm]. simpl.
  destruct (decide (model_name = name)) as [->|Hne].
  - rewrite lookup_insert_eq. simplify_eq. eexists. split_and!; try done.
  - rewrite lookup_insert_ne by done. by exists lm.
Qed.

Lemma change_pool_lookup_None model_name p m name :
  models_ (change_pool model_name p m) !! name = None ->
  models_ m !! name = None.
Proof.
  intros Hnone. destruct (models_ m !! name) as [lm|] eqn:Hlk; [|done].
  destruct (change_pool_lookup model_name p m name lm Hlk) as (lm' & Hlk' & _).
  congruence.
Qed.

Lemma unload_inv_step s s' :
  unload_inv s -> registry_step s s' -> unload_inv s'.
Proof.
  intros Hinv Hstep. unfold unload_inv in *.
  destruct Hstep as [s name Hun | s name pc pc' m' Hun Hnr Hst | s name b Hun
                    | s env name cfg Hun | s now name Hun | s name Hun
                    | s name p]; simpl; try done.
  - rewrite Hun in Hinv. destruct pc as [| |w|b]; simpl in Hst.
    + destruct (models_ (mgr s) !! name) eqn:Hlk; simplify_eq; [|done].
      by rewrite Hlk.
    + destruct (models_ (mgr s) !! name) as [lm|] eqn:Hlk; [|done].
      destruct (0 <? reference_count lm) eqn:Hrc; simplify_eq.
      { by rewrite Hlk. }
      destruct (context_pool lm) eqn:Hp; simplify_eq; [|done].
      exists lm. split_and!; [done| |by eexists].
      apply N.ltb_ge in Hrc. lia.
    + destruct Hinv as (lm & Hlk & Hrc & [p Hp]). rewrite Hlk, Hp in Hst.
      destruct ((w <? 5000) && negb (pool_quiescent p)); simplify_eq; [|done].
      exists lm. split_and!; [done|done|by eexists].
    + by destruct (Hnr b).
  - destruct (unloading s) as [[n pc]|]; [|done].
    destruct pc as [| |w|b]; try done.
    + destruct Hinv as [lm Hlk].
      destruct (change_pool_lookup name p (mgr s) n lm Hlk) as (lm' & -> & _).
      by eexists.
    + destruct Hinv as (lm & Hlk & Hrc & Hp).
      destruct (change_pool_lookup name p (mgr s) n lm Hlk)
        as (lm' & Hlk' & Hrc' & _ & Hp').
      exists lm'. split_and!; [done|congruence|by apply Hp'].
Qed.

Lemma unload_inv_reachable s0 s :
  unloading s0 = None -> rtc registry_step s0 s -> unload_inv s.
Proof.
  intros H0. revert s. apply rtc_ind_r.
  - unfold unload_inv. by rewrite H0.
  - intros y z _ Hstep Hy. by eapply unload_inv_step.
Qed.

(** The wait on the reference count cannot end: the thread that waits
    holds [models_mutex_], and the only decrement of the count,
    [ReleaseModelReference], takes that mutex first. *)
Lemma ref_wait_stuck model_name s lm :
  unloading s = Some (model_name, AtRefWait) ->
  models_ (mgr s) !! model_name = Some lm ->
  0 < reference_count lm ->
  forall s', rtc registry_step s s' ->
    unloading s' = Some (model_name, AtRefWait)
    /\ exists lm', models_ (mgr s') !! model_name = Some lm'
                   /\ reference_count lm' = reference_count lm.
Proof.
  intros Hun Hlk Hrc. apply rtc_ind_r; [by eauto|].
  intros y z _ Hstep (Huny & lmy & Hlky & Hrcy).
  destruct Hstep as [s1 name Hun1 | s1 name pc pc' m' Hun1 Hnr Hst | s1 name b Hun1
                    | s1 env name cfg Hun1 | s1 now name Hun1 | s1 name Hun1
                    | s1 name p]; simpl; try congruence.
  - rewrite Huny in Hun1. simplify_eq. simpl in Hst. rewrite Hlky in Hst.
    assert (Hpos : (0 <? reference_count lmy) = true) by (apply N.ltb_lt; lia).
    rewrite Hpos in Hst. simplify_eq. eauto.
  - split; [done|].
    destruct (change_pool_lookup name p (mgr s1) model_name lmy Hlky)
      as (lm' & Hlk' & Hrc' & _).
    exists lm'. split; [done|congruence].
Qed.

Lemma insert_keeps_lookup (ms : gmap string LoadedModel) n x name :
  is_Some (ms !! name) -> is_Some (<[n := x]> ms !! name).
Proof.
  intros Hsome. destruct (decide (n = name)) as [->|Hne].
  - rewrite lookup_insert_eq. by eexists.
  - by rewrite lookup_insert_ne.
Qed.

Lemma LoadModel_keeps_models env n cfg m name :
  is_Some (models_ m !! name) ->
  is_Some (models_ (snd (LoadModel env n cfg m)) !! name).
Proof.
  intros Hsome. unfold LoadModel, Initialize.
  repeat (case_match; simplify_eq; simpl; try done).
  all: by apply insert_keeps_lookup.
Qed.

Lemma GetModel_keeps_models now n m name :
  is_Some (models_ m !! name) ->
  is_Some (models_ (snd (GetModel now n m)) !! name).
Proof.
  intros Hsome. unfold GetModel. case_match; simpl; [|done].
  by apply insert_keeps_lookup.
Qed.

Lemma ReleaseModelReference_keeps_models n m name :
  is_Some (models_ m !! name) ->
  is_Some (models_ (ReleaseModelReference n m) !! name).
Proof.
  intros Hsome. unfold ReleaseModelReference. case_match; simpl; [|done].
  by apply insert_keeps_lookup.
Qed.

Lemma erase_lookup_None n x m name lm :
  models_ m !! name = Some lm ->
  models_ (UnloadModel_erase n x m) !! name = None ->
  n = name.
Proof.
  simpl. intros Hlk Hnone. destruct (decide (n = name)) as [|Hne]; [done|].
  rewrite lookup_delete_ne in Hnone by done. congruence.
Qed.

(** A model leaves [models_] only in the last step of [UnloadModel] on
    its name, and then its reference count is zero. *)
Lemma erased_at_zero model_name s s' lm :
  unload_inv s ->
  registry_step s s' ->
  models_ (mgr s) !! model_name = Some lm ->
  models_ (mgr s') !! model_name = None ->
  reference_count lm = 0 /\ unloading s' = Some (model_name, Returned true).
Proof.
  intros Hinv Hstep Hlk Hnone.
  assert (Hsome : is_Some (models_ (mgr s) !! model_name)) by by eexists.
  assert (Hcontra : forall ms : gmap string LoadedModel,
            is_Some (ms !! model_name) -> ms !! model_name = None -> False).
  { intros ms [x Hx] Hn. congruence. }
  destruct Hstep as [s name Hun | s name pc pc' m' Hun Hnr Hst | s name b Hun
                    | s env name cfg Hun | s now name Hun | s name Hun
                    | s name p]; simpl in *.
  - congruence.
  - unfold unload_inv in Hinv. rewrite Hun in Hinv.
    destruct pc as [| |w|b]; simpl in Hst.
    + destruct (models_ (mgr s) !! name); simplify_eq.
    + destruct (models_ (mgr s) !! name) as [x|] eqn:Hx; [|done].
      destruct (0 <? reference_count x) eqn:Hrc; [simplify_eq|].
      destruct (context_pool x); simplify_eq.
      pose proof (erase_lookup_None _ _ _ _ _ Hlk Hnone) as ->.
      simplify_eq. apply N.ltb_ge in Hrc. split; [lia|done].
    + destruct Hinv as (x & Hx & Hrc & [p Hp]). rewrite Hx, Hp in Hst.
      destruct ((w <? 5000) && negb (pool_quiescent p)); simplify_eq.
      pose proof (erase_lookup_None _ _ _ _ _ Hlk Hnone) as ->.
      by simplify_eq.
    + by destruct (Hnr b).
  - congruence.
  - destruct (Hcontra _ (LoadModel_keeps_models env name cfg _ _ Hsome) Hnone).
  - destruct (Hcontra _ (GetModel_keeps_models now name _ _ Hsome) Hnone).
  - destruct (Hcontra _ (ReleaseModelReference_keeps_models name _ _ Hsome) Hnone).
  - apply change_pool_lookup_None in Hnone. congruence.
Qed.

End UnloadClaims.

(** ** Generation: what happens to the context an operation acquired *)

Section ContextRelease.

Lemma pool_of_change_pool model_name p q m :
  pool_of model_name m = Some q ->
  pool_of model_name (change_pool model_name p m) = Some p.
Proof.
  unfold pool_of, change_pool. intros Hq.
  destruct (models_ m !! model_name) as [lm|] eqn:Hlk; [|done]. simpl in Hq.
  rewrite Hq. simpl. by rewrite lookup_insert_eq.
Qed.

Lemma pool_of_release_context model_name now e p m :
  pool_of model_name m = Some p ->
  pool_of model_name (release_context model_name now e m)
  = Some (ReleaseContext now (Some e) p).
Proof.
  intros Hp. unfold release_context. pose proof Hp as Hp'.
  unfold pool_of in Hp. destruct (models_ m !! model_name) as [lm|]; [|done].
  simpl in Hp. rewrite Hp. by eapply pool_of_change_pool.
Qed.

Lemma pool_of_ReleaseModelReference model_name m :
  pool_of model_name (ReleaseModelReference model_name m) = pool_of model_name m.
Proof.
  unfold pool_of, ReleaseModelReference.
  destruct (models_ m !! model_name) as [lm|] eqn:Hlk; [|by rewrite Hlk].
  simpl. by rewrite lookup_insert_eq.
Qed.

Lemma pool_of_GetModel now model_name m mdl m1 :
  GetModel now model_name m = (Some mdl, m1) ->
  pool_of model_name m1 = context_pool mdl
  /\ pool_of model_name m = context_pool mdl.
Proof.
  unfold GetModel, pool_of. intros Hget.
  destruct (models_ m !! model_name) as [lm|] eqn:Hlk; simplify_eq.
  simpl. by rewrite lookup_insert_eq.
Qed.

Lemma pool_of_set_metrics model_name x m :
  pool_of model_name (set_metrics x m) = pool_of model_name m.
Proof. done. Qed.

(** Every return of the [try] block of [Generate] has given the entry back. *)
Lemma Generate_try_releases run model_name input params e m p text m' :
  pool_of model_name m = Some p ->
  Generate_try run model_name input params e m = Ret (text, m') ->
  pool_of model_name m' = Some (ReleaseContext (now_release run) (Some e) p).
Proof.
  intros Hp. unfold Generate_try, thrown_bind.
  repeat (case_match; simplify_eq; try done); intros ?; simplify_eq;
    by apply pool_of_release_context.
Qed.

Lemma GetEmbeddings_try_releases run model_name input mdl e m p v m' :
  pool_of model_name m = Some p ->
  GetEmbeddings_try run model_name input mdl e m = Ret (v, m') ->
  pool_of model_name m' = Some (ReleaseContext (now_release run) (Some e) p).
Proof.
  intros Hp. unfold GetEmbeddings_try, thrown_bind.
  repeat (case_match; simplify_eq; try done); intros ?; simplify_eq;
    by apply pool_of_release_context.
Qed.

(** [Generate] gives the entry it acquired back to the pool, once, on
    every path, the [catch] included. *)
Lemma Generate_releases run model_name prompt_text params m mdl m1 p e p1 :
  GetModel (now_get_model run) model_name m = (Some mdl, m1) ->
  context_pool mdl = Some p ->
  AcquireContext (now_acquire run) (acquire_alloc run) p = Some (Some e, p1) ->
  exists out m',
    Generate run model_name prompt_text params m = Some (out, m')
    /\ pool_of model_name m' = Some (ReleaseContext (now_release run) (Some e) p1).
Proof.
  intros Hget Hpool Hacq. unfold Generate. rewrite Hget, Hpool. simpl.
  rewrite Hacq. simpl.
  apply pool_of_GetModel in Hget as [Hp1 _]. rewrite Hpool in Hp1.
  pose proof (pool_of_change_pool model_name p1 p m1 Hp1) as Hp2.
  destruct (Generate_try _ _ _ _ _ _) as [[text m4]|what] eqn:Htry.
  - do 2 eexists. split; [done|]. rewrite pool_of_ReleaseModelReference.
    eapply Generate_try_releases; [|exact Htry]. done.
  - do 2 eexists. split; [done|]. rewrite pool_of_ReleaseModelReference.
    by apply pool_of_release_context.
Qed.

(** So does [GetEmbeddings]. *)
Lemma GetEmbeddings_releases run model_name input m mdl m1 p e p1 :
  GetModel (now_get_model run) model_name m = (Some mdl, m1) ->
  context_pool mdl = Some p ->
  AcquireContext (now_acquire run) (acquire_alloc run) p = Some (Some e, p1) ->
  exists out m',
    GetEmbeddings run model_name input m = Some (out, m')
    /\ pool_of model_name m' = Some (ReleaseContext (now_release run) (Some e) p1).
Proof.
  intros Hget Hpool Hacq. unfold GetEmbeddings. rewrite Hget, Hpool. simpl.
  rewrite Hacq. simpl.
  apply pool_of_GetModel in Hget as [Hp1 _]. rewrite Hpool in Hp1.
  pose proof (pool_of_change_pool model_name p1 p m1 Hp1) as Hp2.
  destruct (GetEmbeddings_try _ _ _ _ _ _) as [[v m3]|what] eqn:Htry.
  - do 2 eexists. split; [done|]. rewrite pool_of_ReleaseModelReference.
    eapply GetEmbeddings_try_releases; [|exact Htry]. done.
  - do 2 eexists. split; [done|]. rewrite pool_of_ReleaseModelReference.
    by apply pool_of_release_context.
Qed.

Lemma stream_try_pool run stop_seen e s m p r s1 m3 :
  pool_of (stream_model_name s) m = Some p ->
  stream_try run stop_seen e s m = (r, s1, m3) ->
  match r with
  | Ret _ => pool_of (stream_model_name s) m3
             = Some (ReleaseContext (now_release run) (Some e) p)
  | Throw _ => m3 = m
  end.
Proof.
  intros Hp. unfold stream_try.
  repeat (case_match; simplify_eq; try done); intros ?; simplify_eq;
    try done; by apply pool_of_release_context.
Qed.

(** The streaming task gives the entry back on every path but one: when
    a call throws, the pool is left as [AcquireContext] left it. *)
Lemma StartGeneration_release run stop_seen s m mdl m1 p e p1 :
  GetModel (now_get_model run) (stream_model_name s) m = (Some mdl, m1) ->
  context_pool mdl = Some p ->
  AcquireContext (now_acquire run) (acquire_alloc run) p = Some (Some e, p1) ->
  exists out s' m',
    StartGeneration run stop_seen s m = Some (out, s', m')
    /\ pool_of (stream_model_name s) m'
       = Some (match out with
               | exit_exception => p1
               | _ => ReleaseContext (now_release run) (Some e) p1
               end).
Proof.
  intros Hget Hpool Hacq. unfold StartGeneration. rewrite Hget, Hpool. simpl.
  rewrite Hacq. simpl.
  apply pool_of_GetModel in Hget as [Hp1 _]. rewrite Hpool in Hp1.
  pose proof (pool_of_change_pool (stream_model_name s) p1 p m1 Hp1) as Hp2.
  destruct (stream_try _ _ _ _ _) as [[r s1] m3] eqn:Htry.
  pose proof (stream_try_pool _ _ _ _ _ _ _ _ _ Hp2 Htry) as Hres.
  destruct r as [out|what].
  - do 3 eexists. split; [done|]. rewrite pool_of_ReleaseModelReference.
    rewrite Hres. f_equal.
    unfold stream_try in Htry.
    repeat (case_match; simplify_eq; try done).
  - do 3 eexists. split; [done|]. rewrite pool_of_ReleaseModelReference.
    by subst m3.
Qed.

End ContextRelease.

Section GenerationClaims.

(** C4 (evaluation at the failing input): the tokenizer throws inside the
    streaming task after the context was acquired. The task ends in its
    [catch]; the entry is not given back and the pool of the model stays
    empty. [Generate], given the same answers, returns the entry. *)
Theorem C4_stream_exception_keeps_context :
  let s0 := StreamingSession_new "stream_1" "tiny" "hello" three_tokens in
  (exists p, pool_of "tiny" tiny_manager = Some p
             /\ AcquireContext 2%Z (alloc_at 1) p = Some (Some (entry_at 1 2%Z), p))
  /\ (exists s m',
        StartGeneration throwing_run never_stopped s0 tiny_manager
        = Some (exit_exception, s, m')
        /\ error s = true /\ finished s = true
        /\ GetAvailableCount <$> pool_of "tiny" m' = Some 0
        /\ GetPoolSize <$> pool_of "tiny" m' = Some 0)
  /\ (exists out m',
        Generate throwing_run "tiny" "hello" three_tokens tiny_manager = Some (out, m')
        /\ out = "Error: std::bad_alloc"
        /\ GetAvailableCount <$> pool_of "tiny" m' = Some 1).
Proof.
  simpl. split_and!.
  - eexists. split; vm_compute; reflexivity.
  - do 2 eexists. split; [vm_compute; reflexivity|]. by vm_compute.
  - do 2 eexists. split; [vm_compute; reflexivity|]. by vm_compute.
Qed.

Lemma append_assoc (a b c : string) : (a +:+ b) +:+ c = a +:+ (b +:+ c).
Proof.
  induction a as [|x a IH]; [done|].
  change (String x ((a +:+ b) +:+ c) = String x (a +:+ (b +:+ c))). by rewrite IH.
Qed.

Lemma append_empty_r (a : string) : a +:+ EmptyString = a.
Proof.
  induction a as [|x a IH]; [done|].
  change (String x (a +:+ EmptyString) = String x a). by rewrite IH.
Qed.

Lemma concat_cons (x : string) (l : list string) :
  String.concat EmptyString (x :: l) = x +:+ String.concat EmptyString l.
Proof. destruct l; simpl; [by rewrite append_empty_r|done]. Qed.

Lemma append_message_line (acc : string) (message : ChatMessage) :
  append_message acc message = acc +:+ transcript_line message.
Proof.
  unfold append_message, transcript_line.
  repeat case_match; try done. by rewrite append_empty_r.
Qed.

Lemma fold_append_message (messages : list ChatMessage) (acc : string) :
  fold_left append_message messages acc
  = acc +:+ String.concat EmptyString (map transcript_line messages).
Proof.
  revert acc. induction messages as [|message messages IH]; intros acc.
  - simpl. by rewrite append_empty_r.
  - cbn [fold_left map]. rewrite IH, append_message_line, concat_cons.
    by rewrite append_assoc.
Qed.

(** [Generate] hands its prompt to the tokenizer: on a registry that
    holds the model, with an engine that finds tokens in one text only,
    the answer tells whether the prompt was that text. *)
Lemma Generate_picky accepted model_name input params :
  fst <$> Generate (picky_run accepted) model_name input params (manager_with model_name)
  = Some (if String.eqb input accepted
          then EmptyString else "Error: Failed to tokenize prompt").
Proof.
  unfold Generate, GetModel, manager_with. simpl.
  rewrite lookup_singleton_eq. simpl.
  match goal with |- context [count_request ?x] => generalize (count_request x) end.
  intros m3. unfold Generate_try, thrown_bind. simpl.
  destruct (String.eqb input accepted); simpl; [|done].
  by destruct (Z.to_nat (max_tokens params)).
Qed.

(** C9: [ChatCompletion] is [Generate] on the transcript: one line per
    message with role system, user or assistant, in message order,
    nothing for any other role, and "Assistant: " at the end. The
    transcript is the only prompt of which this holds: a prompt on which
    [Generate] answers as [ChatCompletion] does, whatever the engine and
    the registry, is the transcript. *)
Theorem C9_chat_completion_is_generate_on_transcript
    run model_name messages params m :
  ChatCompletion run model_name messages params m
  = Generate run model_name (transcript_spec messages) params m
  /\ (forall p : string,
        (forall run' m', ChatCompletion run' model_name messages params m'
                         = Generate run' model_name p params m') ->
        p = transcript_spec messages).
Proof.
  assert (Hchat : forall run' m',
            ChatCompletion run' model_name messages params m'
            = Generate run' model_name (transcript_spec messages) params m').
  { intros run' m'. unfold ChatCompletion, transcript_spec.
    by rewrite fold_append_message. }
  split; [apply Hchat|].
  intros p Hp.
  specialize (Hp (picky_run (transcript_spec messages)) (manager_with model_name)).
  rewrite Hchat in Hp. apply (f_equal (fmap fst)) in Hp.
  rewrite !Generate_picky, String.eqb_refl in Hp.
  destruct (String.eqb p (transcript_spec messages)) eqn:Heq; [|done].
  by apply String.eqb_eq.
Qed.








End GenerationClaims.

Section UnloadTheorems.

Lemma UnloadModel_unknown fuel model_name m :
  models_ m !! model_name = None ->
  UnloadModel (S fuel) model_name m = Some (false, m).
Proof.
  intros Hlk. unfold UnloadModel. simpl. rewrite Hlk. by destruct fuel.
Qed.

(** Run alone, a call that finds the count above zero never returns. *)
Lemma UnloadModel_spins fuel model_name m lm :
  models_ m !! model_name = Some lm ->
  0 < reference_count lm ->
  UnloadModel fuel model_name m = None.
Proof.
  intros Hlk Hrc. apply N.ltb_lt in Hrc. unfold UnloadModel.
  destruct fuel as [|fuel]; [done|]. simpl. rewrite Hlk.
  induction fuel as [|fuel IH]; [done|]. simpl. by rewrite Hlk, Hrc.
Qed.

Lemma UnloadModel_from_waiting n model_name pc m :
  (forall b, pc <> Returned b) ->
  UnloadModel_from (S n) model_name pc m
  = match UnloadModel_step model_name pc m with
    | None => None
    | Some (pc', m') => UnloadModel_from n model_name pc' m'
    end.
Proof. intros Hnr. destruct pc; try done. by destruct (Hnr result). Qed.

Lemma UnloadModel_from_returned n model_name b m :
  UnloadModel_from n model_name (Returned b) m = Some (b, m).
Proof. by destruct n. Qed.

Lemma pool_wait_returns model_name m lm p (n : nat) :
  models_ m !! model_name = Some lm ->
  context_pool lm = Some p ->
  forall w, 5000 <= w + 100 * N.of_nat n ->
    UnloadModel_from (S n) model_name (AtPoolWait w) m
    = Some (true, UnloadModel_erase model_name lm m).
Proof.
  intros Hlk Hp. induction n as [|n IH]; intros w Hw;
    rewrite UnloadModel_from_waiting by done;
    cbn [UnloadModel_step]; rewrite Hlk, Hp.
  - assert (Hge : (w <? 5000) = false) by (apply N.ltb_ge; lia).
    rewrite Hge. cbn [andb]. apply UnloadModel_from_returned.
  - destruct ((w <? 5000) && negb (pool_quiescent p)).
    + apply IH. lia.
    + apply UnloadModel_from_returned.
Qed.

(** Run alone on a model nobody refers to, the call returns [true]
    within 53 loop tests, the model erased. *)
Lemma UnloadModel_returns model_name m lm :
  models_ m !! model_name = Some lm ->
  reference_count lm = 0 ->
  UnloadModel (50 + 3) model_name m
  = Some (true, UnloadModel_erase model_name lm m).
Proof.
  intros Hlk Hrc. unfold UnloadModel.
  change (50 + 3)%nat with (S (S (S 50))).
  rewrite UnloadModel_from_waiting by done.
  cbn [UnloadModel_step]. rewrite Hlk.
  rewrite UnloadModel_from_waiting by done.
  cbn [UnloadModel_step]. rewrite Hlk, Hrc.
  change (0 <? 0) with false. cbv iota.
  destruct (context_pool lm) as [p|] eqn:Hp.
  - apply (pool_wait_returns model_name m lm p 50 Hlk Hp). lia.
  - apply UnloadModel_from_returned.
Qed.

(** C5: in every state the registry reaches from one where no thread is
    inside [UnloadModel]: (1) a call that waits on a reference count
    above zero is still waiting, the count unchanged, in every later
    state: it does not complete while a reference is out; (2) the one
    step that takes a model out of the registry is the return of
    [UnloadModel] on its name, and the count is zero then; (3) on a
    name that is not registered the call returns [false] and the
    registry is as before. *)
Theorem C5_unload_waits_for_references model_name s0 s :
  unloading s0 = None ->
  rtc registry_step s0 s ->
  (forall lm,
      unloading s = Some (model_name, AtRefWait) ->
      models_ (mgr s) !! model_name = Some lm ->
      0 < reference_count lm ->
      forall s', rtc registry_step s s' ->
        unloading s' = Some (model_name, AtRefWait)
        /\ exists lm', models_ (mgr s') !! model_name = Some lm'
                       /\ reference_count lm' = reference_count lm)
  /\ (forall s' lm,
        registry_step s s' ->
        models_ (mgr s) !! model_name = Some lm ->
        models_ (mgr s') !! model_name = None ->
        reference_count lm = 0
        /\ unloading s' = Some (model_name, Returned true))
  /\ (models_ (mgr s) !! model_name = None ->
      UnloadModel_step model_name AtEntry (mgr s) = Some (Returned false, mgr s)
      /\ forall fuel, UnloadModel (S fuel) model_name (mgr s) = Some (false, mgr s)).
Proof.
  intros H0 Hreach. split_and!.
  - intros lm Hun Hlk Hrc. by apply ref_wait_stuck.
  - intros s' lm Hstep Hlk Hnone.
    eapply erased_at_zero; eauto using unload_inv_reachable.
  - intros Hlk. split; [simpl; by rewrite Hlk|].
    intros fuel. by apply UnloadModel_unknown.
Qed.

End UnloadTheorems.

(** ** The derived averages *)

Section DoubleConversion.

Local Open Scope Z_scope.

Lemma shr_1_shiftr mrs : 0 <= shr_m mrs -> shr_m (shr_1 mrs) = Z.shiftr (shr_m mrs) 1.
Proof.
  destruct mrs as [m r s]. simpl. intros Hm.
  destruct m as [|p|p]; [done| |lia]. by destruct p.
Qed.

Lemma iter_shr_1_shiftr p :
  forall mrs, 0 <= shr_m mrs ->
    shr_m (SpecFloat.iter_pos shr_1 p mrs) = Z.shiftr (shr_m mrs) (Z.pos p).
Proof.
  induction p as [p IH|p IH|]; intros mrs Hm; simpl.
  - assert (H1 : 0 <= shr_m (shr_1 mrs)).
    { rewrite shr_1_shiftr by done. by apply Z.shiftr_nonneg. }
    assert (H2 : 0 <= shr_m (SpecFloat.iter_pos shr_1 p (shr_1 mrs))).
    { rewrite IH by done. by apply Z.shiftr_nonneg. }
    rewrite IH, IH, shr_1_shiftr by done.
    rewrite !Z.shiftr_shiftr by lia. f_equal. lia.
  - assert (H2 : 0 <= shr_m (SpecFloat.iter_pos shr_1 p mrs)).
    { rewrite IH by done. by apply Z.shiftr_nonneg. }
    rewrite IH, IH by done.
    rewrite !Z.shiftr_shiftr by lia. f_equal. lia.
  - by apply shr_1_shiftr.
Qed.

Lemma digits2_bounds p :
  2 ^ (Z.pos (digits2_pos p) - 1) <= Z.pos p < 2 ^ Z.pos (digits2_pos p).
Proof.
  induction p as [p IH|p IH|]; simpl digits2_pos; [| |done].
  - rewrite Pos2Z.inj_succ.
    replace (Z.succ (Z.pos (digits2_pos p)) - 1) with (Z.succ (Z.pos (digits2_pos p) - 1)) by lia.
    rewrite !Z.pow_succ_r by lia. lia.
  - rewrite Pos2Z.inj_succ.
    replace (Z.succ (Z.pos (digits2_pos p)) - 1) with (Z.succ (Z.pos (digits2_pos p) - 1)) by lia.
    rewrite !Z.pow_succ_r by lia. lia.
Qed.

Lemma Zdigits2_pos_bounds m :
  0 < m -> 1 <= Zdigits2 m /\ 2 ^ (Zdigits2 m - 1) <= m < 2 ^ Zdigits2 m.
Proof.
  destruct m as [|p|p]; [lia| |lia]. intros _. simpl.
  split; [lia|apply digits2_bounds].
Qed.

Lemma Zdigits2_mono a b : 0 < a -> a <= b -> Zdigits2 a <= Zdigits2 b.
Proof.
  intros Ha Hab.
  destruct (Zdigits2_pos_bounds a Ha) as (Ha1 & Ha2 & _).
  destruct (Zdigits2_pos_bounds b ltac:(lia)) as (Hb1 & _ & Hb2).
  destruct (Z.le_gt_cases (Zdigits2 a) (Zdigits2 b)) as [|Hgt]; [done|].
  assert (2 ^ Zdigits2 b <= 2 ^ (Zdigits2 a - 1)) by (apply Z.pow_le_mono_r; lia).
  lia.
Qed.

Lemma shiftr_pos m k : 0 < m -> 0 <= k < Zdigits2 m -> 0 < Z.shiftr m k <= m.
Proof.
  intros Hm Hk. destruct (Zdigits2_pos_bounds m Hm) as (_ & Hlo & _).
  rewrite Z.shiftr_div_pow2 by lia.
  assert (Hpow : 0 < 2 ^ k) by (apply Z.pow_pos_nonneg; lia).
  assert (2 ^ k <= 2 ^ (Zdigits2 m - 1)) by (apply Z.pow_le_mono_r; lia).
  split.
  - apply Z.div_str_pos. lia.
  - apply Z.div_le_upper_bound; [lia|]. nia.
Qed.

Lemma shr_m_of_loc m l : shr_m (shr_record_of_loc m l) = m.
Proof. destruct l as [|[]]; done. Qed.

(** One rounding shift of a positive mantissa that stays clear of the
    subnormal range keeps the mantissa positive. *)
Lemma shr_fexp_positive m e l :
  0 < m -> -1074 <= Zdigits2 m + e - 53 ->
  0 < shr_m (fst (shr_fexp 53 1024 m e l)) <= m
  /\ e <= snd (shr_fexp 53 1024 m e l) <= e + Z.max 0 (Zdigits2 m - 53).
Proof.
  intros Hm He. unfold shr_fexp, fexp, emin.
  destruct (Zdigits2_pos_bounds m Hm) as (Hd & _).
  replace (Z.max (Zdigits2 m + e - 53) (3 - 1024 - 53) - e)
    with (Zdigits2 m - 53) by lia.
  unfold shr. destruct (Zdigits2 m - 53) as [|k|k] eqn:Hk; simpl fst; simpl snd.
  - rewrite shr_m_of_loc. lia.
  - rewrite iter_shr_1_shiftr by (rewrite shr_m_of_loc; lia).
    rewrite shr_m_of_loc. split; [apply shiftr_pos; lia|lia].
  - rewrite shr_m_of_loc. lia.
Qed.

Lemma round_nearest_even_bounds m l : m <= round_nearest_even m l <= m + 1.
Proof.
  unfold round_nearest_even. destruct l as [|[]]; try lia.
  destruct (Z.even m); lia.
Qed.

(** Rounding a positive mantissa whose exponent is far from both ends of
    the range gives a finite number, not zero, not an infinity. *)
Lemma binary_round_aux_finite sx mx ex lx :
  0 < mx -> -1000 <= ex -> ex + 2 * Zdigits2 mx <= 900 ->
  exists m e, binary_round_aux 53 1024 sx mx ex lx = S754_finite sx m e.
Proof.
  intros Hm Hlo Hhi. unfold binary_round_aux.
  destruct (Zdigits2_pos_bounds mx Hm) as (Hd & _).
  pose proof (shr_fexp_positive mx ex lx Hm ltac:(lia)) as [[Hp1 Hle1] He1].
  destruct (shr_fexp 53 1024 mx ex lx) as [mrs' e'] eqn:H1. simpl in Hp1, Hle1, He1.
  pose proof (round_nearest_even_bounds (shr_m mrs') (loc_of_shr_record mrs')) as Hr.
  set (m2 := round_nearest_even (shr_m mrs') (loc_of_shr_record mrs')) in *.
  assert (Hm2 : 0 < m2) by lia.
  destruct (Zdigits2_pos_bounds m2 Hm2) as (Hd2 & _).
  assert (Hd2' : Zdigits2 m2 <= Zdigits2 mx + 1).
  { etrans; [apply (Zdigits2_mono m2 (mx + 1)); lia|].
    destruct (Zdigits2_pos_bounds mx Hm) as (_ & _ & Hup).
    destruct (Zdigits2_pos_bounds (mx + 1) ltac:(lia)) as (_ & Hlo' & _).
    destruct (Z.le_gt_cases (Zdigits2 (mx + 1)) (Zdigits2 mx + 1)) as [|Hgt]; [done|].
    assert (2 ^ (Zdigits2 mx + 1) <= 2 ^ (Zdigits2 (mx + 1) - 1))
      by (apply Z.pow_le_mono_r; lia).
    rewrite Z.pow_add_r in * by lia. lia. }
  pose proof (shr_fexp_positive m2 e' loc_Exact Hm2 ltac:(lia)) as [[Hp2 _] He2].
  destruct (shr_fexp 53 1024 m2 e' loc_Exact) as [mrs'' e''] eqn:H2.
  simpl in Hp2, He2.
  destruct (shr_m mrs'') as [|m|m]; [lia| |lia].
  assert (Hfit : (e'' <=? 1024 - 53) = true) by (apply Z.leb_le; lia).
  rewrite Hfit. eauto.
Qed.

Lemma digits2_iter_xO p k :
  Z.pos (digits2_pos (Pos.iter xO p k)) = Z.pos (digits2_pos p) + Z.pos k.
Proof.
  induction k as [|k IH] using Pos.peano_ind.
  - simpl. lia.
  - rewrite Pos.iter_succ. simpl digits2_pos. lia.
Qed.

(** The conversion of a positive [uint64_t] is a finite number, not 0. *)
Lemma double_of_uint64_nonzero (n : N) :
  (0 < n < uint64_modulus)%N -> finite_nonzero (double_of_uint64 n) = true.
Proof.
  intros [Hpos Hlt]. unfold double_of_uint64, binary_normalize.
  destruct n as [|p]; [lia|]. simpl Z.of_N. unfold binary_round.
  assert (Hd : 1 <= Z.pos (digits2_pos p) <= 64).
  { split; [lia|]. pose proof (digits2_bounds p) as [Hlo _].
    destruct (Z.le_gt_cases (Z.pos (digits2_pos p)) 64) as [|Hgt]; [done|].
    assert (2 ^ 64 <= 2 ^ (Z.pos (digits2_pos p) - 1)) by (apply Z.pow_le_mono_r; lia).
    unfold uint64_modulus in Hlt. lia. }
  unfold shl_align, fexp, emin.
  replace (Z.max (Z.pos (digits2_pos p) + 0 - 53) (3 - 1024 - 53) - 0)
    with (Z.pos (digits2_pos p) - 53) by lia.
  replace (Z.max (Z.pos (digits2_pos p) + 0 - 53) (3 - 1024 - 53))
    with (Z.pos (digits2_pos p) - 53) by lia.
  destruct (Z.pos (digits2_pos p) - 53) as [|k|k] eqn:Hk.
  - destruct (binary_round_aux_finite false (Z.pos p) 0 loc_Exact) as (m & e & ->);
      simpl Zdigits2; [lia|lia|lia|done].
  - destruct (binary_round_aux_finite false (Z.pos p) 0 loc_Exact) as (m & e & ->);
      simpl Zdigits2; [lia|lia|lia|done].
  - destruct (binary_round_aux_finite false (Z.pos (Pos.iter xO p k))
                (Z.neg k) loc_Exact) as (m & e & ->);
      simpl Zdigits2; rewrite ?digits2_iter_xO; [lia|lia|lia|done].
Qed.

End DoubleConversion.

Section AverageClaims.

(** C10: the averages are defined for every state of the counters. The
    latency is the quotient of the time by the number of requests when
    there is a request and 0.0 otherwise; the throughput is the quotient
    of the tokens by the time, times 1000, when there is a request and
    the time is not zero, and 0.0 otherwise. Whenever a division is
    made its divisor is a finite number other than zero. The methods of
    [PerformanceMetrics] and of the snapshot [GetMetrics] takes agree. *)
Theorem C10_averages_never_divide_by_zero (m : SimpleModelManager) :
  snapshot_in_range (GetMetrics m) ->
  let x := GetMetrics m in
  Snapshot_GetAverageLatencyMs x
  = (if 0 <? snap_total_requests x
     then double_div (double_of_uint64 (snap_total_generation_time_ms x))
                     (double_of_uint64 (snap_total_requests x))
     else S754_zero false)
  /\ Snapshot_GetAverageTokensPerSecond x
     = (if (0 <? snap_total_requests x) && (0 <? snap_total_generation_time_ms x)
        then double_mul
               (double_div (double_of_uint64 (snap_total_tokens_generated x))
                           (double_of_uint64 (snap_total_generation_time_ms x)))
               (double_of_uint64 1000)
        else S754_zero false)
  /\ (forall num den, latency_division x = Some (num, den) ->
        finite_nonzero den = true
        /\ Snapshot_GetAverageLatencyMs x = double_div num den)
  /\ (latency_division x = None ->
        snap_total_requests x = 0 /\ Snapshot_GetAverageLatencyMs x = S754_zero false)
  /\ (forall num den, throughput_division x = Some (num, den) ->
        finite_nonzero den = true
        /\ Snapshot_GetAverageTokensPerSecond x
           = double_mul (double_div num den) (double_of_uint64 1000))
  /\ (throughput_division x = None ->
        (snap_total_requests x = 0 \/ snap_total_generation_time_ms x = 0)
        /\ Snapshot_GetAverageTokensPerSecond x = S754_zero false)
  /\ Metrics_GetAverageLatencyMs (metrics_ m) = Snapshot_GetAverageLatencyMs x
  /\ Metrics_GetAverageTokensPerSecond (metrics_ m)
     = Snapshot_GetAverageTokensPerSecond x.
Proof.
  intros (Hreq & Htok & Htime) x. simpl in Hreq, Htok, Htime.
  unfold Snapshot_GetAverageLatencyMs, Snapshot_GetAverageTokensPerSecond,
    latency_division, throughput_division.
  split_and!; try done.
  - intros num den Hdiv.
    destruct (0 <? snap_total_requests x) eqn:Hpos; simplify_eq.
    split; [|done]. apply double_of_uint64_nonzero.
    apply N.ltb_lt in Hpos. by split.
  - destruct (0 <? snap_total_requests x) eqn:Hpos; [done|].
    apply N.ltb_ge in Hpos. intros _. split; [lia|done].
  - intros num den Hdiv.
    destruct (0 <? snap_total_requests x) eqn:Hpos; [|done].
    destruct (0 <? snap_total_generation_time_ms x) eqn:Hpos2;
      simpl in Hdiv; simplify_eq.
    split; [|done]. apply double_of_uint64_nonzero.
    apply N.ltb_lt in Hpos2. by split.
  - destruct (0 <? snap_total_requests x) eqn:Hpos.
    + destruct (0 <? snap_total_generation_time_ms x) eqn:Hpos2; [done|].
      apply N.ltb_ge in Hpos2. intros _. split; [right; lia|done].
    + apply N.ltb_ge in Hpos. intros _. split; [left; lia|done].
Qed.

End AverageClaims.

(** ** The theorems at concrete inputs *)

Section Witnesses.

Lemma one_held_reachable : pool_reachable (Some tiny_model) tiny_config 4 one_held.
Proof.
  eapply rtc_l; [|apply rtc_refl].
  apply (step_acquire (pool_init (Some tiny_model) tiny_config 4) 10%Z (alloc_at 1)
                      (Some (entry_at 1 10%Z))
                      (ContextPool_new (Some tiny_model) tiny_config 4)); [|done].
  unfold live_addrs. simpl. apply not_elem_of_nil.
Defined.

Lemma two_idle_reachable : pool_reachable (Some tiny_model) tiny_config 4 two_idle.
Proof.
  pose (p0 := ContextPool_new (Some tiny_model) tiny_config 4).
  eapply rtc_l.
  { apply (step_acquire (mkPoolSys p0 []) 0%Z (alloc_at 1)
                        (Some (entry_at 1 0%Z)) p0); [|done].
    unfold live_addrs. simpl. apply not_elem_of_nil. }
  eapply rtc_l.
  { apply (step_acquire (mkPoolSys p0 [entry_at 1 0%Z]) 0%Z (alloc_at 2)
                        (Some (entry_at 2 0%Z)) p0); [|done].
    unfold live_addrs. simpl. rewrite list_elem_of_singleton. done. }
  eapply rtc_l.
  { apply (step_release (mkPoolSys p0 [entry_at 2 0%Z; entry_at 1 0%Z]) 0%Z
                        [entry_at 2 0%Z] (entry_at 1 0%Z) []). done. }
  eapply rtc_l; [|apply rtc_refl].
  change two_idle
    with (mkPoolSys
            (ReleaseContext 1000000000000%Z (Some (entry_at 2 0%Z))
               (pool (mkPoolSys (ReleaseContext 0%Z (Some (entry_at 1 0%Z)) p0)
                                [entry_at 2 0%Z])))
            ([] ++ [])).
  by apply (step_release (mkPoolSys (ReleaseContext 0%Z (Some (entry_at 1 0%Z)) p0)
                                    [entry_at 2 0%Z])
                         1000000000000%Z [] (entry_at 2 0%Z) []).
Defined.

(** C6 at a pool with one entry out: the two sizes are both 0. *)
Lemma C6_witness :
  pool_reachable (Some tiny_model) tiny_config 4 one_held
  /\ held one_held <> []
  /\ GetPoolSize (pool one_held) = GetAvailableCount (pool one_held)
  /\ pool_quiescent (pool one_held) = true.
Proof.
  split; [exact one_held_reachable|]. split; [done|].
  destruct (C6_pool_size_equals_available (Some tiny_model) tiny_config 4 one_held
              one_held_reachable) as (H1 & H2 & _).
  by split.
Defined.

(** C8 at a pool with one entry idle for more than 30 minutes and one
    for less: the sweep at tick 1 800 000 000 005 keeps the second. *)
Lemma C8_witness :
  pool_reachable (Some tiny_model) tiny_config 4 two_idle
  /\ exists p',
       CleanupExpiredContexts 1800000000005%Z (pool two_idle) = Some p'
       /\ all_contexts_ p' = [mkEntry 2 1002 2002 1000000000000%Z false 1]
       /\ available_contexts_ p' = [2].
Proof.
  split; [exact two_idle_reachable|].
  destruct (C8_cleanup_removes_exactly_expired (Some tiny_model) tiny_config 4
              two_idle 1800000000005%Z two_idle_reachable)
    as (p' & Hcl & Hall & Hq & _).
  exists p'. split; [exact Hcl|]. split; [exact Hall|].
  rewrite Hq, Hall. reflexivity.
Defined.

(** C7 at the first load of "tiny", followed by a load with another
    configuration. *)
Lemma C7_witness :
  LoadModel willing_engine "tiny" tiny_config one_megabyte_manager
  = (ret_successfully_loaded, tiny_manager)
  /\ LoadModel willing_engine "tiny"
       (mkModelConfig "/models/other.gguf" 512 512 1 0 0 true false false true)
       tiny_manager
     = (ret_already_loaded, tiny_manager)
  /\ GetLoadedModelCount tiny_manager = 1
  /\ count_occ String.string_dec (GetLoadedModelNames tiny_manager) "tiny" = 1%nat.
Proof.
  assert (H1 : LoadModel willing_engine "tiny" tiny_config one_megabyte_manager
               = (ret_successfully_loaded, tiny_manager)) by reflexivity.
  split; [exact H1|].
  destruct (C7_load_twice_is_idempotent willing_engine willing_engine "tiny" tiny_config
              (mkModelConfig "/models/other.gguf" 512 512 1 0 0 true false false true)
              one_megabyte_manager ret_successfully_loaded tiny_manager H1 eq_refl)
    as (H2 & _ & _ & _ & H5).
  split; [exact H2|]. split; [by vm_compute|exact H5].
Defined.

(** C2 (amended) at a registry whose model takes 2 000 000 bytes of a
    limit of 1 MB: a second model is refused, the registry unchanged. *)
Lemma C2_witness :
  backend_initialized_ tiny_manager = true
  /\ memory_limit_bytes_ tiny_manager <> 0
  /\ memory_limit_bytes_ tiny_manager
     <= metrics_memory_usage_bytes (metrics_ tiny_manager)
  /\ models_ tiny_manager !! "other" = None
  /\ LoadModel willing_engine "other" tiny_config tiny_manager
     = (ret_memory_limit_reached, tiny_manager).
Proof.
  assert (H1 : backend_initialized_ tiny_manager = true) by reflexivity.
  assert (H2 : memory_limit_bytes_ tiny_manager <> 0) by by vm_compute.
  assert (H3 : memory_limit_bytes_ tiny_manager
               <= metrics_memory_usage_bytes (metrics_ tiny_manager)) by by vm_compute.
  assert (H4 : models_ tiny_manager !! "other" = None) by by vm_compute.
  do 4 (split; [assumption|]).
  destruct (C2_load_at_limit_fails willing_engine "other" tiny_config tiny_manager
              H1 H2 H3 H4) as (m' & Hload & _ & _ & _ & _ & Hsame).
  rewrite Hload. f_equal. apply Hsame. left. by vm_compute.
Defined.


Lemma waiting_reachable : rtc registry_step idle_registry waiting_registry.
Proof.
  eapply rtc_l; [apply (reg_unload_call idle_registry "tiny"); done|].
  eapply rtc_l; [|apply rtc_refl].
  by apply (reg_unload_step (mkRegistry referenced_manager (Some ("tiny", AtEntry)))
                            "tiny" AtEntry AtRefWait referenced_manager).
Defined.

Lemma draining_reachable : rtc registry_step released_registry draining_registry.
Proof.
  eapply rtc_l; [apply (reg_unload_call released_registry "tiny"); done|].
  eapply rtc_l.
  { by apply (reg_unload_step (mkRegistry _ (Some ("tiny", AtEntry)))
                              "tiny" AtEntry AtRefWait
                              (ReleaseModelReference "tiny" referenced_manager)). }
  eapply rtc_l; [|apply rtc_refl].
  by apply (reg_unload_step (mkRegistry _ (Some ("tiny", AtRefWait)))
                            "tiny" AtRefWait (AtPoolWait 0)
                            (ReleaseModelReference "tiny" referenced_manager)).
Defined.

(** C5 at a call that waits on one reference, at the last step of a call
    on a model without references, and at a name that is not loaded. *)
Lemma C5_witness :
  unloading idle_registry = None
  /\ rtc registry_step idle_registry waiting_registry
  /\ (forall s', rtc registry_step waiting_registry s' ->
        unloading s' = Some ("tiny", AtRefWait))
  /\ (forall s', registry_step draining_registry s' ->
        models_ (mgr s') !! "tiny" = None ->
        unloading s' = Some ("tiny", Returned true))
  /\ UnloadModel 1 "absent" referenced_manager = Some (false, referenced_manager).
Proof.
  split; [done|]. split; [exact waiting_reachable|].
  destruct (C5_unload_waits_for_references "tiny" idle_registry waiting_registry
              eq_refl waiting_reachable) as (Hwait & _ & _).
  destruct (C5_unload_waits_for_references "tiny" released_registry draining_registry
              eq_refl draining_reachable) as (_ & Herase & _).
  destruct (C5_unload_waits_for_references "absent" idle_registry idle_registry
              eq_refl (rtc_refl _ _)) as (_ & _ & Hunknown).
  split_and!.
  - intros s' Hs'.
    assert (Hlk : exists lm, models_ (mgr waiting_registry) !! "tiny" = Some lm
                             /\ 0 < reference_count lm).
    { eexists. split; [vm_compute; reflexivity|by vm_compute]. }
    destruct Hlk as (lm & Hlk & Hrc).
    by destruct (Hwait lm eq_refl Hlk Hrc s' Hs').
  - intros s' Hstep Hnone.
    assert (Hlk : exists lm, models_ (mgr draining_registry) !! "tiny" = Some lm).
    { eexists. vm_compute. reflexivity. }
    destruct Hlk as (lm & Hlk).
    by destruct (Herase s' lm Hstep Hlk Hnone).
  - by apply Hunknown.
Defined.

(** C10 at 2 requests, 10 tokens and 500 ms: 250 ms and 20 tokens/s. *)
Lemma C10_witness :
  snapshot_in_range (GetMetrics busy_manager)
  /\ Snapshot_GetAverageLatencyMs (GetMetrics busy_manager) = double_of_uint64 250
  /\ Snapshot_GetAverageTokensPerSecond (GetMetrics busy_manager) = double_of_uint64 20
  /\ Metrics_GetAverageLatencyMs (metrics_ busy_manager) = double_of_uint64 250.
Proof.
  assert (Hrange : snapshot_in_range (GetMetrics busy_manager)) by by vm_compute.
  split; [exact Hrange|].
  destruct (C10_averages_never_divide_by_zero busy_manager Hrange)
    as (H1 & H2 & _ & _ & _ & _ & H7 & _).
  split; [by rewrite H1|]. split; [by rewrite H2|].
  by rewrite H7, H1.
Defined.

End Witnesses.

(* ===================================================================== *)
(** * Part III: further properties of the code                            *)
(* ===================================================================== *)

(** ** The context pool *)

Section MorePool.

Lemma pool_step_flags s s' :
  pool_wf s -> pool_flags s -> pool_step s s' -> pool_flags s'.
Proof.
  intros Hwf [Hidle Hheld] Hstep. pose proof Hwf as [Hq Hnd]. unfold pool_flags.
  destruct Hstep as [s now a r p' Hfresh Hacq | s now h1 e h2 Hh
                    | s now | s h1 e h2 Hh | s now p' Hcl]; simpl.
  - unfold AcquireContext in Hacq.
    destruct (available_contexts_ (pool s)) as [|raw rest] eqn:Hav.
    + assert (Hp : p' = pool s) by (destruct (_ <? _); by simplify_eq).
      subst p'. split; [done|].
      destruct (_ <? _); simplify_eq; [|done].
      unfold CreateNewContext.
      destruct (model_ (pool s)), (llama_init_from_model a),
        (llama_sampler_chain_init a); simpl; try done.
      by constructor.
    + destruct (all_contexts_ (pool s)) as [|e v] eqn:Hall; [done|].
      simpl in Hq. injection Hq as -> ->.
      rewrite take_entry_front in Hacq. simplify_eq. simpl.
      apply Forall_cons in Hidle as [_ Hidle]. split; [done|].
      by constructor.
  - rewrite Hh in Hheld. apply Forall_app in Hheld as [H1 H2].
    apply Forall_cons in H2 as [_ H2]. split.
    + apply Forall_app. split; [done|]. by repeat constructor.
    + by apply Forall_app.
  - done.
  - rewrite Hh in Hheld. apply Forall_app in Hheld as [H1 H2].
    apply Forall_cons in H2 as [_ H2]. split; [done|]. by apply Forall_app.
  - rewrite (cleanup_wf_result now s Hwf) in Hcl. simplify_eq. simpl.
    split; [|done]. apply List.Forall_forall. intros e He.
    apply List.filter_In in He as [He _].
    rewrite List.Forall_forall in Hidle. by apply Hidle.
Qed.

Lemma pool_reachable_flags model config max_size s :
  pool_reachable model config max_size s -> pool_wf s /\ pool_flags s.
Proof.
  unfold pool_reachable. revert s. apply rtc_ind_r.
  - split; [apply pool_init_wf|]. by split; constructor.
  - intros y z _ Hstep [Hwf Hfl].
    split; [by eapply pool_step_wf|by eapply pool_step_flags].
Qed.

Lemma pool_reachable_settings model config max_size s :
  pool_reachable model config max_size s ->
  model_ (pool s) = model /\ max_pool_size_ (pool s) = max_size.
Proof.
  unfold pool_reachable. revert s. apply rtc_ind_r; [done|].
  intros y z _ Hstep [Hm Hx].
  apply pool_step_settings in Hstep as (Hm' & _ & Hx' & _). split; congruence.
Qed.

(** X1: in every state a pool reaches an entry is either idle or held,
    never both, and its flag says which: the idle entries carry
    [in_use = false] and are exactly those the queue lists, the held ones
    carry [in_use = true], and no address occurs twice among them all. *)
Theorem X1_entry_idle_or_held model config max_size s :
  pool_reachable model config max_size s ->
  Forall (fun e => in_use e = false) (all_contexts_ (pool s))
  /\ Forall (fun e => in_use e = true) (held s)
  /\ available_contexts_ (pool s) = map entry_addr (all_contexts_ (pool s))
  /\ NoDup (map entry_addr (all_contexts_ (pool s)) ++ map entry_addr (held s))
  /\ (forall e h, e ∈ all_contexts_ (pool s) -> h ∈ held s ->
        entry_addr e <> entry_addr h).
Proof.
  intros Hr. destruct (pool_reachable_flags _ _ _ _ Hr) as [[Hq Hnd] [Hidle Hheld]].
  split_and!; try done.
  intros e h He Hh Heq. unfold live_addrs in Hnd.
  apply NoDup_app in Hnd as (_ & Hdisj & _).
  apply (Hdisj (entry_addr e)).
  - apply list_elem_of_fmap. by exists e.
  - rewrite Heq. apply list_elem_of_fmap. by exists h.
Qed.

(** X2: the raw pointers of the queue never dangle: in every state a pool
    reaches, [AcquireContext] and [CleanupExpiredContexts] find the entry
    behind each pointer they follow. *)
Theorem X2_queue_pointers_never_dangle model config max_size s :
  pool_reachable model config max_size s ->
  (forall raw, raw ∈ available_contexts_ (pool s) ->
     is_Some (deref raw (all_contexts_ (pool s))))
  /\ (forall now a, is_Some (AcquireContext now a (pool s)))
  /\ (forall now, is_Some (CleanupExpiredContexts now (pool s))).
Proof.
  intros Hr. pose proof (pool_reachable_wf _ _ _ _ Hr) as Hwf.
  pose proof Hwf as [Hq Hnd]. split_and!.
  - intros raw Hin. rewrite Hq in Hin.
    apply list_elem_of_fmap in Hin as (e & -> & He).
    unfold deref. destruct (List.find _ _) eqn:Hfind; [by eexists|].
    apply list_elem_of_In in He.
    pose proof (List.find_none _ _ Hfind e He) as Hno. simpl in Hno.
    by rewrite N.eqb_refl in Hno.
  - intros now a. unfold AcquireContext.
    destruct (available_contexts_ (pool s)) as [|raw rest] eqn:Hav.
    + destruct (_ <? _); by eexists.
    + destruct (all_contexts_ (pool s)) as [|e v]; [done|].
      simpl in Hq. injection Hq as -> _. rewrite take_entry_front. by eexists.
  - intros now. rewrite (cleanup_wf_result now s Hwf). by eexists.
Qed.

(** X3: idle entries are handed out again before anything is created, the
    one released first first: when the pool has idle entries,
    [AcquireContext] returns the oldest of them, flagged in use, stamped
    with the time of the call and with its usage count raised by one; it
    does not ask the engine, whatever [max_pool_size_] is. *)
Theorem X3_acquire_reuses_oldest_idle model config max_size s e v now a :
  pool_reachable model config max_size s ->
  all_contexts_ (pool s) = e :: v ->
  AcquireContext now a (pool s)
  = Some (Some (reused now e), with_contexts (map entry_addr v) v (pool s))
  /\ in_use (reused now e) = true
  /\ last_used (reused now e) = now
  /\ context (reused now e) = context e
  /\ (forall t h, AcquireContext now a (ReleaseContext t (Some h) (pool s))
                  = Some (Some (reused now e),
                          with_contexts
                            (map entry_addr v ++ [entry_addr h])
                            (v ++ [set_last_used t (set_in_use false h)])
                            (pool s))).
Proof.
  intros Hr Hall. destruct (pool_reachable_wf _ _ _ _ Hr) as [Hq _].
  rewrite Hall in Hq. simpl in Hq. split_and!; try done.
  - unfold AcquireContext. rewrite Hq, Hall, take_entry_front. done.
  - intros t h. unfold AcquireContext, ReleaseContext. simpl.
    rewrite Hq, Hall. simpl. rewrite N.eqb_refl. done.
Qed.

(** X4: with no idle entry, [AcquireContext] returns the null pointer
    exactly when the maximum is 0, the pool has no model, or the engine
    fails to give a context or a sampler; the pool is unchanged either
    way, and an entry it creates is new: in use, used once, stamped now. *)
Theorem X4_acquire_from_empty_pool model config max_size s now a :
  pool_reachable model config max_size s ->
  all_contexts_ (pool s) = [] ->
  exists r,
    AcquireContext now a (pool s) = Some (r, pool s)
    /\ (r = None <->
        max_size = 0 \/ model = None \/ llama_init_from_model a = None
        \/ llama_sampler_chain_init a = None)
    /\ (forall e, r = Some e ->
          entry_addr e = make_unique_addr a /\ in_use e = true
          /\ usage_count e = 1 /\ last_used e = now
          /\ Some (context e) = llama_init_from_model a
          /\ Some (sampler e) = llama_sampler_chain_init a).
Proof.
  intros Hr Hall. destruct (pool_reachable_wf _ _ _ _ Hr) as [Hq _].
  destruct (pool_reachable_settings _ _ _ _ Hr) as [Hm Hx].
  rewrite Hall in Hq. simpl in Hq.
  unfold AcquireContext. rewrite Hq, Hall, Hx.
  change (N.of_nat (length [])) with 0.
  destruct (0 <? max_size) eqn:Hmax.
  - apply N.ltb_lt in Hmax. eexists. split; [done|].
    unfold CreateNewContext. rewrite Hm.
    destruct model as [mdl|]; [|split; [naive_solver|done]].
    destruct (llama_init_from_model a) as [ctx|]; [|split; [naive_solver|done]].
    destruct (llama_sampler_chain_init a) as [smp|]; [|split; [naive_solver|done]].
    split.
    + split; [done|]. intros [?|[?|[?|?]]]; [lia|done..].
    + intros e ?. by simplify_eq.
  - apply N.ltb_ge in Hmax. eexists. split; [done|].
    split; [|done]. split; [|done]. intros _. left. lia.
Qed.

Lemma filter_filter_implied {A} (f g : A -> bool) (l : list A) :
  (forall x, g x = true -> f x = true) ->
  List.filter g (List.filter f l) = List.filter g l.
Proof.
  intros Himp. induction l as [|x l IH]; [done|]. simpl.
  destruct (f x) eqn:Hf; simpl.
  - by rewrite IH.
  - destruct (g x) eqn:Hg; [|done]. apply Himp in Hg. congruence.
Qed.

(** X5: sweeping twice is sweeping once at the later time: for
    [now <= later], [CleanupExpiredContexts] at [later] after one at
    [now] leaves the pool that a single sweep at [later] leaves; with
    [later = now] the second sweep changes nothing. *)
Theorem X5_cleanup_twice model config max_size s now later :
  pool_reachable model config max_size s ->
  (now <= later)%Z ->
  exists p1 p2,
    CleanupExpiredContexts now (pool s) = Some p1
    /\ CleanupExpiredContexts later p1 = Some p2
    /\ CleanupExpiredContexts later (pool s) = Some p2
    /\ CleanupExpiredContexts now p1 = Some p1.
Proof.
  intros Hr Hle. pose proof (pool_reachable_wf _ _ _ _ Hr) as Hwf.
  pose proof (cleanup_wf_result now s Hwf) as H1.
  assert (Hstep : pool_step s (mkPoolSys _ (held s)))
    by (eapply step_cleanup; exact H1).
  pose proof (pool_step_wf _ _ Hwf Hstep) as Hwf1.
  pose proof (cleanup_wf_result later _ Hwf1) as H2.
  pose proof (cleanup_wf_result now _ Hwf1) as H3.
  pose proof (cleanup_wf_result later s Hwf) as H4.
  simpl in H2, H3.
  do 2 eexists. split; [exact H1|]. split; [exact H2|]. split.
  - rewrite H4. f_equal. unfold with_contexts. simpl.
    rewrite filter_filter_implied; [done|].
    intros x. unfold fresh_enough. rewrite !Z.ltb_lt. lia.
  - rewrite H3. f_equal. unfold with_contexts. simpl.
    rewrite filter_filter_implied; done.
Qed.

End MorePool.

(** ** The registry *)

Section MoreRegistry.

Lemma sub64_wrap_add (u s : N) :
  u < uint64_modulus -> sub64 (wrap64 (u + s)) s = u.
Proof.
  intros Hu. unfold sub64, wrap64.
  rewrite N2Z.inj_mod, N2Z.inj_add.
  rewrite Zminus_mod_idemp_l.
  replace (Z.of_N u + Z.of_N s - Z.of_N s)%Z with (Z.of_N u) by lia.
  rewrite Z.mod_small by (unfold uint64_modulus in *; lia).
  apply N2Z.id.
Qed.

Lemma sub64_wrap_sum (a b : N) : sub64 (wrap64 (a + b)) a = wrap64 b.
Proof.
  unfold sub64, wrap64.
  rewrite N2Z.inj_mod, N2Z.inj_add.
  rewrite Zminus_mod_idemp_l.
  replace (Z.of_N a + Z.of_N b - Z.of_N a)%Z with (Z.of_N b) by lia.
  rewrite <- N2Z.inj_mod. apply N2Z.id.
Qed.

Lemma wrap64_lt (n : N) : wrap64 n < uint64_modulus.
Proof. unfold wrap64. by apply N.mod_lt. Qed.

Lemma models_memory_insert_fresh (ms : gmap string LoadedModel) n lm :
  ms !! n = None ->
  models_memory (<[n := lm]> ms) = memory_usage_bytes lm + models_memory ms.
Proof.
  intros Hn. unfold models_memory.
  rewrite map_fold_insert_L; [done| |done]. intros; lia.
Qed.

Lemma models_memory_delete (ms : gmap string LoadedModel) n lm :
  ms !! n = Some lm ->
  models_memory ms = memory_usage_bytes lm + models_memory (delete n ms).
Proof.
  intros Hn. unfold models_memory.
  rewrite (map_fold_delete_L _ _ n lm ms); [done| |done]. intros; lia.
Qed.

Lemma models_memory_replace (ms : gmap string LoadedModel) n lm lm' :
  ms !! n = Some lm ->
  memory_usage_bytes lm' = memory_usage_bytes lm ->
  models_memory (<[n := lm']> ms) = models_memory ms.
Proof.
  intros Hn Hmem. rewrite (models_memory_delete ms n lm Hn).
  rewrite <- insert_delete_eq.
  rewrite models_memory_insert_fresh by apply lookup_delete_eq. by rewrite Hmem.
Qed.

(** X6: a call of [LoadModel] that fails, for whatever reason, leaves the
    loaded models, the counters and the limits as they were; unless the
    backend could not be initialised, the name is not loaded afterwards. *)
Theorem X6_failed_load_keeps_registry env model_name cfg m r m' :
  LoadModel env model_name cfg m = (r, m') ->
  LoadModel_result r = false ->
  models_ m' = models_ m /\ metrics_ m' = metrics_ m
  /\ memory_limit_bytes_ m' = memory_limit_bytes_ m
  /\ max_context_pool_size_ m' = max_context_pool_size_ m
  /\ (r <> ret_backend_not_initialized -> IsModelLoaded model_name m' = false).
Proof.
  unfold LoadModel. intros Hload Hres.
  destruct (if backend_initialized_ m then (true, m) else Initialize env m)
    as [ok m1] eqn:Hinit.
  assert (H1 : models_ m1 = models_ m /\ metrics_ m1 = metrics_ m
               /\ memory_limit_bytes_ m1 = memory_limit_bytes_ m
               /\ max_context_pool_size_ m1 = max_context_pool_size_ m).
  { unfold Initialize in Hinit.
    destruct (backend_initialized_ m); simplify_eq; [done|].
    destruct (llama_backend_init_throws env); by simplify_eq. }
  destruct H1 as (Hms & Hmx & Hlim & Hmax).
  destruct ok; simpl in Hload; [|by simplify_eq].
  destruct (models_ m1 !! model_name) eqn:Hlk; [by simplify_eq|].
  set (m2 := if bool_decide (size (models_ m1) = 0%nat)
                && negb (cleanup_thread_joinable m1)
             then start_cleanup_thread m1 else m1) in *.
  assert (H2 : models_ m2 = models_ m /\ metrics_ m2 = metrics_ m
               /\ memory_limit_bytes_ m2 = memory_limit_bytes_ m
               /\ max_context_pool_size_ m2 = max_context_pool_size_ m).
  { unfold m2. by destruct (_ && _). }
  destruct H2 as (Hms2 & Hmx2 & Hlim2 & Hmax2).
  assert (Hnot : IsModelLoaded model_name m2 = false).
  { unfold IsModelLoaded. apply bool_decide_eq_false.
    rewrite Hms2, <- Hms, Hlk. by intros [? ?]. }
  destruct (negb (CheckMemoryLimit m2)); [by simplify_eq|].
  destruct (negb (filesystem_exists env (model_path cfg))); [by simplify_eq|].
  destruct (llama_model_load_from_file env (model_path cfg)); by simplify_eq.
Qed.

(** What a successful load has gone through: [m2] is the registry after
    [Initialize] and the start of the cleanup thread. *)
Lemma LoadModel_loaded env model_name cfg m m' :
  LoadModel env model_name cfg m = (ret_successfully_loaded, m') ->
  exists m2 mdl,
    models_ m2 = models_ m /\ metrics_ m2 = metrics_ m
    /\ memory_limit_bytes_ m2 = memory_limit_bytes_ m
    /\ max_context_pool_size_ m2 = max_context_pool_size_ m
    /\ backend_initialized_ m2 = true
    /\ models_ m !! model_name = None
    /\ CheckMemoryLimit m2 = true
    /\ filesystem_exists env (model_path cfg) = true
    /\ llama_model_load_from_file env (model_path cfg) = Some mdl
    /\ m' = set_models
              (<[model_name :=
                   mkLoadedModel (Some mdl)
                     (Some (ContextPool_new (Some mdl) cfg (max_context_pool_size_ m)))
                     cfg (load_now env) (load_now env) 0
                     (wrap64 (model_n_params mdl * 2))]> (models_ m))
              (set_metrics
                 (set_memory
                    (wrap64 (metrics_memory_usage_bytes (metrics_ m)
                             + wrap64 (model_n_params mdl * 2)))
                    (N.max (peak_memory_bytes (metrics_ m))
                       (wrap64 (metrics_memory_usage_bytes (metrics_ m)
                                + wrap64 (model_n_params mdl * 2))))
                    (metrics_ m)) m2).
Proof.
  unfold LoadModel. intros Hload.
  destruct (if backend_initialized_ m then (true, m) else Initialize env m)
    as [ok m1] eqn:Hinit.
  assert (H1 : ok = true -> models_ m1 = models_ m /\ metrics_ m1 = metrics_ m
               /\ memory_limit_bytes_ m1 = memory_limit_bytes_ m
               /\ max_context_pool_size_ m1 = max_context_pool_size_ m
               /\ backend_initialized_ m1 = true).
  { intros ->. unfold Initialize in Hinit.
    destruct (backend_initialized_ m) eqn:Hb; simplify_eq; [done|].
    destruct (llama_backend_init_throws env); by simplify_eq. }
  destruct ok; simpl in Hload; [|by simplify_eq].
  destruct (H1 eq_refl) as (Hms & Hmx & Hlim & Hmax & Hb).
  destruct (models_ m1 !! model_name) eqn:Hlk; [by simplify_eq|].
  set (m2 := if bool_decide (size (models_ m1) = 0%nat)
                && negb (cleanup_thread_joinable m1)
             then start_cleanup_thread m1 else m1) in *.
  assert (H2 : models_ m2 = models_ m /\ metrics_ m2 = metrics_ m
               /\ memory_limit_bytes_ m2 = memory_limit_bytes_ m
               /\ max_context_pool_size_ m2 = max_context_pool_size_ m
               /\ backend_initialized_ m2 = true).
  { unfold m2. by destruct (_ && _). }
  destruct H2 as (Hms2 & Hmx2 & Hlim2 & Hmax2 & Hb2).
  destruct (CheckMemoryLimit m2) eqn:Hcheck; simpl in Hload; [|by simplify_eq].
  destruct (filesystem_exists env (model_path cfg)) eqn:Hex; simpl in Hload;
    [|by simplify_eq].
  destruct (llama_model_load_from_file env (model_path cfg)) as [mdl|] eqn:Hfile;
    [|by simplify_eq].
  exists m2, mdl. rewrite Hms in Hlk.
  split_and!; try done.
  injection Hload as <-. simpl. unfold set_models, set_metrics, set_memory. simpl.
  by rewrite Hmx2, Hms2, Hmax2.
Qed.

(** X7: a call of [LoadModel] that loads found the name free, the file
    present, the engine willing and the usage under the limit (or no
    limit); it adds one model, with no reference and an empty pool of the
    configured maximum, whose footprint is two bytes per parameter, adds
    that footprint to the usage, and leaves the peak no less than the
    usage and the backend initialised. *)
Theorem X7_successful_load env model_name cfg m m' :
  LoadModel env model_name cfg m = (ret_successfully_loaded, m') ->
  models_ m !! model_name = None
  /\ filesystem_exists env (model_path cfg) = true
  /\ (memory_limit_bytes_ m = 0
      \/ metrics_memory_usage_bytes (metrics_ m) < memory_limit_bytes_ m)
  /\ exists mdl lm,
       llama_model_load_from_file env (model_path cfg) = Some mdl
       /\ models_ m' = <[model_name := lm]> (models_ m)
       /\ reference_count lm = 0
       /\ config lm = cfg
       /\ context_pool lm
          = Some (ContextPool_new (Some mdl) cfg (max_context_pool_size_ m))
       /\ memory_usage_bytes lm = wrap64 (model_n_params mdl * 2)
       /\ metrics_memory_usage_bytes (metrics_ m')
          = wrap64 (metrics_memory_usage_bytes (metrics_ m) + memory_usage_bytes lm)
       /\ metrics_memory_usage_bytes (metrics_ m') <= peak_memory_bytes (metrics_ m')
       /\ GetLoadedModelCount m' = GetLoadedModelCount m + 1
       /\ backend_initialized_ m' = true.
Proof.
  intros Hload.
  destruct (LoadModel_loaded _ _ _ _ _ Hload)
    as (m2 & mdl & Hms & Hmx & Hlim & Hmax & Hb & Hfree & Hcheck & Hex & Hfile & ->).
  split_and!; try done.
  - unfold CheckMemoryLimit in Hcheck. rewrite Hlim, Hmx in Hcheck.
    apply orb_true_iff in Hcheck as [Hc|Hc];
      [left; by apply N.eqb_eq|right; by apply N.ltb_lt].
  - do 2 eexists. split_and!; try done; simpl.
    + lia.
    + unfold GetLoadedModelCount. simpl.
      rewrite map_size_insert_None by done. lia.
Qed.

(** With no reference out and a pool whose two sizes agree, the call
    returns after three loop tests, without a sleep. *)
Lemma UnloadModel_without_wait model_name m lm p :
  models_ m !! model_name = Some lm ->
  reference_count lm = 0 ->
  context_pool lm = Some p ->
  pool_quiescent p = true ->
  UnloadModel 3 model_name m = Some (true, UnloadModel_erase model_name lm m).
Proof.
  intros Hlk Hrc Hp Hq. unfold UnloadModel.
  rewrite UnloadModel_from_waiting by done. cbn [UnloadModel_step]. rewrite Hlk.
  rewrite UnloadModel_from_waiting by done. cbn [UnloadModel_step].
  rewrite Hlk, Hrc, Hp. change (0 <? 0) with false. cbv iota.
  rewrite UnloadModel_from_waiting by done. cbn [UnloadModel_step].
  rewrite Hlk, Hp, Hq. change (0 <? 5000) with true. cbn [andb negb].
  apply UnloadModel_from_returned.
Qed.

(** X8: loading a model and unloading it again brings the registry back:
    the unload returns [true] without waiting (three loop tests), the
    loaded models and the usage are what they were before the load. *)
Theorem X8_load_then_unload env model_name cfg m m1 :
  LoadModel env model_name cfg m = (ret_successfully_loaded, m1) ->
  metrics_memory_usage_bytes (metrics_ m) < uint64_modulus ->
  exists m2,
    UnloadModel 3 model_name m1 = Some (true, m2)
    /\ models_ m2 = models_ m
    /\ metrics_memory_usage_bytes (metrics_ m2) = metrics_memory_usage_bytes (metrics_ m)
    /\ GetLoadedModelCount m2 = GetLoadedModelCount m.
Proof.
  intros Hload Hrange.
  destruct (LoadModel_loaded _ _ _ _ _ Hload)
    as (m0 & mdl & Hms & Hmx & Hlim & Hmax & Hb & Hfree & Hcheck & Hex & Hfile & ->).
  eexists. split.
  - eapply UnloadModel_without_wait.
    + simpl. apply lookup_insert_eq.
    + done.
    + done.
    + done.
  - assert (Hback : forall lm, delete model_name (<[model_name := lm]> (models_ m))
                               = models_ m)
      by (intros; by apply delete_insert_id).
    simpl. split_and!.
    + apply Hback.
    + by apply sub64_wrap_add.
    + unfold GetLoadedModelCount. simpl. by rewrite Hback.
Qed.

End MoreRegistry.

Section MemoryAccounting.

Lemma LoadModel_accounted env model_name cfg m :
  memory_accounted m -> memory_accounted (snd (LoadModel env model_name cfg m)).
Proof.
  intros Hacc. destruct (LoadModel env model_name cfg m) as [r m'] eqn:Hload.
  simpl. destruct (LoadModel_result r) eqn:Hres.
  - destruct r; try done.
    + destruct (LoadModel_success_loaded _ _ _ _ _ _ Hload eq_refl) as [_ Hin].
      unfold LoadModel, Initialize in Hload.
      unfold memory_accounted in *.
      destruct (backend_initialized_ m); simpl in Hload.
      * destruct (models_ m !! model_name) eqn:Hlk; [by simplify_eq|].
        repeat (case_match; simplify_eq).
      * destruct (llama_backend_init_throws env); simpl in Hload; [by simplify_eq|].
        destruct (models_ m !! model_name) eqn:Hlk; [by simplify_eq|].
        repeat (case_match; simplify_eq).
    + destruct (LoadModel_loaded _ _ _ _ _ Hload)
        as (m2 & mdl & Hms & Hmx & _ & _ & _ & Hfree & _ & _ & _ & ->).
      unfold memory_accounted in *. simpl.
      rewrite models_memory_insert_fresh by done. simpl.
      rewrite Hacc. unfold wrap64.
      rewrite N.Div0.add_mod_idemp_l, N.Div0.add_mod_idemp_r.
      rewrite N.Div0.add_mod_idemp_l. f_equal. lia.
  - unfold memory_accounted in *.
    assert (Hkeep : models_ m' = models_ m /\ metrics_ m' = metrics_ m).
    { unfold LoadModel, Initialize in Hload.
      repeat (case_match; simplify_eq; simpl in *; try done). }
    destruct Hkeep as [-> ->]. done.
Qed.

Lemma replace_accounted m model_name lm lm' :
  memory_accounted m ->
  models_ m !! model_name = Some lm ->
  memory_usage_bytes lm' = memory_usage_bytes lm ->
  memory_accounted (set_models (<[model_name := lm']> (models_ m)) m).
Proof.
  unfold memory_accounted. intros Hacc Hlk Hmem. simpl.
  by rewrite (models_memory_replace _ _ lm lm').
Qed.

Lemma GetModel_accounted now model_name m :
  memory_accounted m -> memory_accounted (snd (GetModel now model_name m)).
Proof.
  intros Hacc. unfold GetModel.
  destruct (models_ m !! model_name) as [lm|] eqn:Hlk; [|done].
  simpl. by eapply replace_accounted.
Qed.

Lemma ReleaseModelReference_accounted model_name m :
  memory_accounted m -> memory_accounted (ReleaseModelReference model_name m).
Proof.
  intros Hacc. unfold ReleaseModelReference.
  destruct (models_ m !! model_name) as [lm|] eqn:Hlk; [|done].
  by eapply replace_accounted.
Qed.

Lemma change_pool_accounted model_name p m :
  memory_accounted m -> memory_accounted (change_pool model_name p m).
Proof.
  intros Hacc. unfold change_pool.
  destruct (models_ m !! model_name) as [lm|] eqn:Hlk; [|done].
  destruct (context_pool lm); [|done]. by eapply replace_accounted.
Qed.

Lemma erase_accounted model_name lm m :
  memory_accounted m ->
  models_ m !! model_name = Some lm ->
  memory_accounted (UnloadModel_erase model_name lm m).
Proof.
  unfold memory_accounted. intros Hacc Hlk. simpl.
  rewrite Hacc, (models_memory_delete _ _ _ Hlk).
  apply sub64_wrap_sum.
Qed.

Lemma UnloadModel_step_accounted model_name pc m pc' m' :
  memory_accounted m ->
  UnloadModel_step model_name pc m = Some (pc', m') ->
  memory_accounted m'.
Proof.
  intros Hacc Hst. destruct pc as [| |w|b]; simpl in Hst.
  - destruct (models_ m !! model_name); by simplify_eq.
  - destruct (models_ m !! model_name) as [lm|] eqn:Hlk; [|done].
    destruct (0 <? reference_count lm); [by simplify_eq|].
    destruct (context_pool lm); simplify_eq; [done|]. by apply erase_accounted.
  - destruct (models_ m !! model_name) as [lm|] eqn:Hlk; [|done].
    destruct (context_pool lm) as [p|]; [|done].
    destruct ((w <? 5000) && negb (pool_quiescent p)); simplify_eq; [done|].
    by apply erase_accounted.
  - by simplify_eq.
Qed.

(** X9: the usage counter is the sum of the footprints of the loaded
    models (modulo 2^64): in every state the registry reaches from a new
    manager by loading, unloading, taking and releasing references and
    using pools. With no model loaded the usage is 0. *)
Theorem X9_usage_is_sum_of_footprints memory_limit_mb max_pool s :
  rtc registry_step
      (mkRegistry (SimpleModelManager_new memory_limit_mb max_pool) None) s ->
  metrics_memory_usage_bytes (metrics_ (mgr s))
  = wrap64 (models_memory (models_ (mgr s)))
  /\ (GetLoadedModelCount (mgr s) = 0 ->
      metrics_memory_usage_bytes (metrics_ (mgr s)) = 0
      /\ GetTotalMemoryUsage (mgr s) = 0).
Proof.
  intros Hr.
  assert (Hacc : memory_accounted (mgr s)).
  { revert s Hr. apply rtc_ind_r; [done|].
    intros y z _ Hstep Hy.
    destruct Hstep as [s name Hun | s name pc pc' m' Hun Hnr Hst | s name b Hun
                      | s env name cfg Hun | s now name Hun | s name Hun
                      | s name p]; simpl; try done.
    - by eapply UnloadModel_step_accounted.
    - by apply LoadModel_accounted.
    - by apply GetModel_accounted.
    - by apply ReleaseModelReference_accounted.
    - by apply change_pool_accounted. }
  split; [exact Hacc|].
  intros Hzero. unfold GetLoadedModelCount in Hzero.
  assert (Hempty : models_ (mgr s) = ∅) by (apply map_size_empty_iff; lia).
  assert (Hu : metrics_memory_usage_bytes (metrics_ (mgr s)) = 0).
  { rewrite Hacc, Hempty. done. }
  split; [done|]. unfold GetTotalMemoryUsage, Metrics_GetMemoryUsageMB.
  by rewrite Hu.
Qed.

(** X10: taking a reference and releasing it leaves the reference count
    as it was: after [GetModel] followed by [ReleaseModelReference] the
    registry differs from the one before only in the time of last access
    of the model. *)
Theorem X10_reference_taken_and_released now model_name m lm :
  models_ m !! model_name = Some lm ->
  reference_count lm < uint64_modulus ->
  fst (GetModel now model_name m)
  = Some (set_reference (wrap64 (reference_count lm + 1)) now lm)
  /\ ReleaseModelReference model_name (snd (GetModel now model_name m))
     = set_models
         (<[model_name := set_reference (reference_count lm) now lm]> (models_ m)) m.
Proof.
  intros Hlk Hrc. unfold GetModel. rewrite Hlk. simpl. split; [done|].
  unfold ReleaseModelReference. simpl. rewrite lookup_insert_eq.
  unfold set_models. simpl. rewrite insert_insert_eq.
  unfold set_reference. simpl.
  replace (sub64 (wrap64 (reference_count lm + 1)) 1) with (reference_count lm); [done|].
  symmetry. by apply sub64_wrap_add.
Qed.

(** X11: [ReleaseModelReference] does not test the count: on a model
    with no reference out it leaves the count at 2^64 - 1, and a call of
    [UnloadModel] on that model, run alone, then never returns. On a name
    that is not loaded it does nothing. *)
Theorem X11_release_without_reference model_name m lm :
  models_ m !! model_name = Some lm ->
  reference_count lm = 0 ->
  (exists lm', models_ (ReleaseModelReference model_name m) !! model_name = Some lm'
               /\ reference_count lm' = 18446744073709551615)
  /\ (forall fuel, UnloadModel fuel model_name (ReleaseModelReference model_name m) = None)
  /\ (forall other, models_ m !! other = None -> ReleaseModelReference other m = m).
Proof.
  intros Hlk Hrc.
  assert (Hlk' : models_ (ReleaseModelReference model_name m) !! model_name
                 = Some (set_reference 18446744073709551615 (last_access lm) lm)).
  { unfold ReleaseModelReference. rewrite Hlk. simpl. rewrite lookup_insert_eq.
    by rewrite Hrc. }
  split_and!.
  - eexists. split; [exact Hlk'|done].
  - intros fuel. eapply UnloadModel_spins; [exact Hlk'|done].
  - intros other Hother. unfold ReleaseModelReference. by rewrite Hother.
Qed.

(** X12: run alone on a model with no reference out, [UnloadModel]
    returns [true] after at most 53 loop tests (at most 50 sleeps of the
    drain wait): the model is gone, every other model is untouched, the
    count of loaded models is one less and the usage is lowered by the
    footprint of the model. *)
Theorem X12_unload_unreferenced_model model_name m lm :
  models_ m !! model_name = Some lm ->
  reference_count lm = 0 ->
  exists m',
    UnloadModel (50 + 3) model_name m = Some (true, m')
    /\ IsModelLoaded model_name m' = false
    /\ (forall other, other <> model_name -> models_ m' !! other = models_ m !! other)
    /\ GetLoadedModelCount m' + 1 = GetLoadedModelCount m
    /\ metrics_memory_usage_bytes (metrics_ m')
       = sub64 (metrics_memory_usage_bytes (metrics_ m)) (memory_usage_bytes lm)
    /\ peak_memory_bytes (metrics_ m') = peak_memory_bytes (metrics_ m).
Proof.
  intros Hlk Hrc. eexists. split; [by apply UnloadModel_returns|]. simpl.
  split_and!; try done.
  - unfold IsModelLoaded. simpl. apply bool_decide_eq_false.
    rewrite lookup_delete_eq. by intros [? ?].
  - intros other Hne. by rewrite lookup_delete_ne.
  - unfold GetLoadedModelCount. simpl.
    rewrite map_size_delete_Some by by eexists.
    assert (size (models_ m) <> 0%nat); [|lia].
    intros Hz. apply map_size_empty_iff in Hz. rewrite Hz in Hlk. done.
Qed.

(** X13: the two numbers of the memory status agree: for a manager built
    with a limit of [memory_limit_mb] megabytes, [CheckMemoryLimit] holds
    exactly when there is no limit or the usage [GetTotalMemoryUsage]
    reports, in whole megabytes, is below the limit. *)
Theorem X13_memory_status_consistent memory_limit_mb (m : SimpleModelManager) :
  memory_limit_mb < 2 ^ 44 ->
  memory_limit_bytes_ m
  = memory_limit_bytes_ (SimpleModelManager_new memory_limit_mb (max_context_pool_size_ m)) ->
  CheckMemoryLimit m = true
  <-> memory_limit_mb = 0 \/ GetTotalMemoryUsage m < memory_limit_mb.
Proof.
  intros Hmb Hlim. simpl in Hlim.
  assert (Hbytes : memory_limit_bytes_ m = memory_limit_mb * 1048576).
  { rewrite Hlim. unfold wrap64, uint64_modulus.
    rewrite N.mod_small; [lia|].
    change (2 ^ 64) with (2 ^ 44 * 1048576). nia. }
  unfold CheckMemoryLimit, GetTotalMemoryUsage, Metrics_GetMemoryUsageMB.
  rewrite Hbytes, orb_true_iff, N.eqb_eq, N.ltb_lt.
  change (1024 * 1024) with 1048576.
  set (u := metrics_memory_usage_bytes (metrics_ m)).
  split.
  - intros [Hz|Hlt]; [left; lia|]. right.
    apply N.Div0.div_lt_upper_bound. lia.
  - intros [Hz|Hlt]; [left; lia|]. right.
    pose proof (N.Div0.mul_div_le u 1048576).
    pose proof (N.mod_lt u 1048576 ltac:(lia)).
    pose proof (N.div_mod u 1048576 ltac:(lia)). nia.
Qed.

End MemoryAccounting.


(** ** Generation *)

Section MoreGeneration.

Lemma kept_refl m : kept_but_references m m.
Proof. by repeat split. Qed.

Lemma kept_trans m1 m2 m3 :
  kept_but_references m1 m2 -> kept_but_references m2 m3 -> kept_but_references m1 m3.
Proof.
  intros (A1 & A2 & A3 & A4 & A5 & A6 & A7) (B1 & B2 & B3 & B4 & B5 & B6 & B7).
  unfold kept_but_references. split_and!; congruence.
Qed.

Lemma kept_replace m model_name lm lm' :
  models_ m !! model_name = Some lm ->
  model_identity lm' = model_identity lm ->
  kept_but_references m (set_models (<[model_name := lm']> (models_ m)) m).
Proof.
  intros Hlk Hid. unfold kept_but_references. simpl. split_and!; try done.
  rewrite fmap_insert, Hid. apply insert_id. by rewrite lookup_fmap, Hlk.
Qed.

Lemma references_replace m model_name lm lm' :
  models_ m !! model_name = Some lm ->
  reference_count <$> models_ (set_models (<[model_name := lm']> (models_ m)) m)
  = <[model_name := reference_count lm']> (reference_count <$> models_ m).
Proof. intros Hlk. simpl. by rewrite fmap_insert. Qed.

Lemma references_same m model_name lm lm' :
  models_ m !! model_name = Some lm ->
  reference_count lm' = reference_count lm ->
  reference_count <$> models_ (set_models (<[model_name := lm']> (models_ m)) m)
  = reference_count <$> models_ m.
Proof.
  intros Hlk Hrc. simpl. rewrite fmap_insert, Hrc.
  apply insert_id. by rewrite lookup_fmap, Hlk.
Qed.

Lemma change_pool_kept model_name p m :
  kept_but_references m (change_pool model_name p m)
  /\ reference_count <$> models_ (change_pool model_name p m)
     = reference_count <$> models_ m.
Proof.
  unfold change_pool.
  destruct (models_ m !! model_name) as [lm|] eqn:Hlk; [|split; [apply kept_refl|done]].
  destruct (context_pool lm); [|split; [apply kept_refl|done]].
  split; [by eapply kept_replace|by eapply references_same].
Qed.

Lemma release_context_kept model_name now e m :
  kept_but_references m (release_context model_name now e m)
  /\ reference_count <$> models_ (release_context model_name now e m)
     = reference_count <$> models_ m.
Proof.
  unfold release_context.
  destruct (models_ m !! model_name) as [lm|]; [|split; [apply kept_refl|done]].
  destruct (context_pool lm); [|split; [apply kept_refl|done]].
  apply change_pool_kept.
Qed.

Lemma set_counters_kept requests tokens time_ms m :
  kept_but_references m
    (set_metrics (set_counters requests tokens time_ms (metrics_ m)) m)
  /\ models_ (set_metrics (set_counters requests tokens time_ms (metrics_ m)) m)
     = models_ m.
Proof. by repeat split. Qed.



Lemma stream_try_kept run stop_seen e s m r s1 m' :
  stream_try run stop_seen e s m = (r, s1, m') ->
  kept_but_references m m'
  /\ reference_count <$> models_ m' = reference_count <$> models_ m.
Proof.
  unfold stream_try.
  repeat (case_match; simplify_eq; try done); intros ?; simplify_eq;
    try apply release_context_kept; split; try done; apply kept_refl.
Qed.

(** A reference taken by [GetModel], whatever is done to the registry in
    between that keeps models and counts, is given back by
    [ReleaseModelReference]: the registry is kept as a whole. *)
Lemma reference_bracket now model_name m mdl m1 m2 :
  references_in_range m ->
  GetModel now model_name m = (Some mdl, m1) ->
  kept_but_references m1 m2 ->
  reference_count <$> models_ m2 = reference_count <$> models_ m1 ->
  registry_kept m (ReleaseModelReference model_name m2).
Proof.
  intros Hrange Hget Hkept Hrefs. unfold GetModel in Hget.
  destruct (models_ m !! model_name) as [lm|] eqn:Hlk; simplify_eq.
  assert (Hk1 : kept_but_references m
                  (set_models (<[model_name :=
                     set_reference (wrap64 (reference_count lm + 1)) now lm]> (models_ m)) m))
    by by eapply kept_replace.
  assert (Hlk2 : exists lm2, models_ m2 !! model_name = Some lm2
                             /\ reference_count lm2 = wrap64 (reference_count lm + 1)).
  { assert (H : (reference_count <$> models_ m2) !! model_name
                = Some (wrap64 (reference_count lm + 1))).
    { rewrite Hrefs. simpl. rewrite lookup_fmap, lookup_insert_eq. done. }
    rewrite lookup_fmap in H.
    destruct (models_ m2 !! model_name) as [lm2|]; simpl in H; [|done].
    injection H as H. by exists lm2. }
  destruct Hlk2 as (lm2 & Hlk2 & Hrc2).
  unfold ReleaseModelReference. rewrite Hlk2.
  assert (Hk3 : kept_but_references m2
                  (set_models (<[model_name :=
                     set_reference (sub64 (reference_count lm2) 1) (last_access lm2) lm2]>
                     (models_ m2)) m2))
    by by eapply kept_replace.
  destruct (kept_trans _ _ _ (kept_trans _ _ _ Hk1 Hkept) Hk3)
    as (K1 & K2 & K3 & K4 & K5 & K6 & K7).
  unfold registry_kept. split_and!; try done.
  rewrite (references_replace m2 model_name lm2) by done.
  rewrite Hrefs. simpl. rewrite fmap_insert, insert_insert_eq. simpl.
  rewrite Hrc2, sub64_wrap_add by by eapply Hrange.
  apply insert_id. by rewrite lookup_fmap, Hlk.
Qed.

Lemma registry_kept_refl m : registry_kept m m.
Proof. by repeat split. Qed.


(** X15: the streaming task gives back the reference it takes on every
    path, the exception handler included: after the task the same models
    are loaded with the reference counts they had, and the memory
    counters, the request counters and the settings are unchanged. *)
Theorem X15_streaming_keeps_registry run stop_seen s m out s' m' :
  references_in_range m ->
  StartGeneration run stop_seen s m = Some (out, s', m') ->
  registry_kept m m' /\ metrics_ m' = metrics_ m.
Proof.
  intros Hrange. unfold StartGeneration.
  destruct (GetModel _ _ _) as [[mdl|] m1] eqn:Hget.
  2: { intros ?; simplify_eq. split; [apply registry_kept_refl|done]. }
  assert (Hmx1 : metrics_ m1 = metrics_ m).
  { unfold GetModel in Hget. destruct (models_ m !! _); by simplify_eq. }
  destruct (context_pool mdl) as [p|]; [|done]. simpl.
  assert (Hmx_cp : forall n q x, metrics_ (change_pool n q x) = metrics_ x).
  { intros n q x. unfold change_pool. by repeat case_match. }
  assert (Hmx_rr : forall n x, metrics_ (ReleaseModelReference n x) = metrics_ x).
  { intros n x. unfold ReleaseModelReference. by repeat case_match. }
  assert (Hmx_rc : forall n t e x, metrics_ (release_context n t e x) = metrics_ x).
  { intros n t e x. unfold release_context. repeat case_match; rewrite ?Hmx_cp; done. }
  destruct (AcquireContext _ _ p) as [[[e|] p1]|]; [| |done]; simpl.
  - destruct (change_pool_kept (stream_model_name s) p1 m1) as [Hk2 Hr2].
    destruct (stream_try _ _ _ _ _) as [[r s1] m3] eqn:Htry.
    destruct (stream_try_kept _ _ _ _ _ _ _ _ Htry) as [Hk3 Hr3].
    assert (Hmx3 : metrics_ m3 = metrics_ m).
    { unfold stream_try in Htry.
      repeat (case_match; simplify_eq; try done);
        rewrite ?Hmx_rc, ?Hmx_cp; done. }
    assert (Hkept : registry_kept m (ReleaseModelReference (stream_model_name s) m3)).
    { eapply reference_bracket; [done|exact Hget| |].
      - eapply kept_trans; [exact Hk2|exact Hk3].
      - by rewrite Hr3. }
    destruct r; intros ?; simplify_eq; (split; [done|]); by rewrite Hmx_rr.
  - intros ?; simplify_eq.
    destruct (change_pool_kept (stream_model_name s) p1 m1) as [Hk2 Hr2].
    split; [by eapply reference_bracket|]. by rewrite Hmx_rr, Hmx_cp.
Qed.

End MoreGeneration.

Section GenerationCounters.


Lemma metrics_change_pool n q x : metrics_ (change_pool n q x) = metrics_ x.
Proof. unfold change_pool. by repeat case_match. Qed.

Lemma metrics_ReleaseModelReference n x :
  metrics_ (ReleaseModelReference n x) = metrics_ x.
Proof. unfold ReleaseModelReference. by repeat case_match. Qed.

Lemma metrics_release_context n t e x :
  metrics_ (release_context n t e x) = metrics_ x.
Proof.
  unfold release_context. repeat case_match; rewrite ?metrics_change_pool; done.
Qed.

Lemma metrics_GetModel now n x : metrics_ (snd (GetModel now n x)) = metrics_ x.
Proof. unfold GetModel. by case_match. Qed.

(** A call of [Generate] that returns the empty text has run the sampling
    loop: every error has a text of its own. *)
Lemma Generate_empty_text run model_name input params m m' :
  Generate run model_name input params m = Some (EmptyString, m') ->
  total_requests (metrics_ m') = wrap64 (total_requests (metrics_ m) + 1)
  /\ exists generated,
       generate_loop run (Z.to_nat (max_tokens params)) 0 EmptyString 0%Z
       = Ret (EmptyString, generated).
Proof.
  unfold Generate.
  pose proof (metrics_GetModel (now_get_model run) model_name m) as Hm1.
  destruct (GetModel _ _ _) as [[mdl|] m1]; simpl in Hm1; [|done].
  destruct (context_pool mdl) as [p|]; [|done]. simpl.
  destruct (AcquireContext _ _ p) as [[[e|] p1]|]; [|done|done]; simpl.
  destruct (Generate_try _ _ _ _ _ _) as [[result m4]|what] eqn:Htry; [|done].
  intros ?; simplify_eq.
  unfold Generate_try, thrown_bind in Htry.
  destruct (llama_sampler_reset run) as [[]|w]; [|done].
  destruct (tokenize_twice _ _) as [n_tokens|w]; [|done].
  destruct (n_tokens <=? 0)%Z; [done|].
  destruct (llama_decode_prompt run) as [r|w]; [|done].
  destruct (negb (r =? 0)%Z); [done|].
  destruct (generate_loop _ _ _ _ _) as [[text generated]|w]; [|done].
  simpl in Htry. simplify_eq.
  rewrite metrics_ReleaseModelReference, metrics_release_context. simpl.
  rewrite !metrics_change_pool, Hm1. split; [done|]. by exists generated.
Qed.


End GenerationCounters.

Section StreamAndGenerate.

Lemma streamed_text_app (a b : list StreamToken) :
  streamed_text (a ++ b) = streamed_text a +:+ streamed_text b.
Proof.
  unfold streamed_text. induction a as [|t a IH]; [done|].
  cbn [app map]. by rewrite !concat_cons, IH, append_assoc.
Qed.

Lemma streamed_text_cons (t : StreamToken) (ts : list StreamToken) :
  streamed_text (t :: ts) = text t +:+ streamed_text ts.
Proof. unfold streamed_text. cbn [map]. by rewrite concat_cons. Qed.

(** The two sampling loops, fed the same answers of the engine and never
    stopped, leave at the same step and for the same reason, and the text
    of the one is the concatenation of the tokens of the other. *)
Lemma loops_agree run stop_seen fuel :
  (forall i, stop_seen i = false) ->
  pieces_nonempty run ->
  forall i result g s,
    match generate_loop run fuel i result g with
    | Ret (result', g') =>
      exists s1 body,
        stream_loop run stop_seen fuel i s = (Ret tt, s1)
        /\ token_queue s1 = token_queue s ++ body
        /\ result' = result +:+ streamed_text body
        /\ g' = (g + Z.of_nat (length body))%Z
    | Throw w => exists s1, stream_loop run stop_seen fuel i s = (Throw w, s1)
    end.
Proof.
  intros Hstop Hpieces. induction fuel as [|fuel IH]; intros i result g s; simpl.
  - exists s. exists (@nil StreamToken).
    change (streamed_text []) with EmptyString.
    rewrite app_nil_r, append_empty_r. split_and!; [done..|simpl; lia].
  - rewrite Hstop. unfold thrown_bind.
    destruct (llama_sampler_sample (sample_step run i)) as [token|w]; [|by eexists].
    destruct (llama_vocab_is_eog (sample_step run i)).
    { exists s. exists (@nil StreamToken).
    change (streamed_text []) with EmptyString.
    rewrite app_nil_r, append_empty_r. split_and!; [done..|simpl; lia]. }
    pose proof (Hpieces i) as Hn.
    destruct (llama_token_to_piece (sample_step run i)) as [n piece]. simpl in Hn.
    replace (0 <? n)%Z with true by (symmetry; by apply Z.ltb_lt).
    set (t := mkStreamToken piece false _ token).
    destruct (llama_decode_token (sample_step run i)) as [r|w]; [|by eexists].
    destruct (r =? 0)%Z.
    + specialize (IH (S i) (result +:+ piece) (g + 1)%Z (emplace t s)).
      destruct (generate_loop _ _ _ _ _) as [[result' g']|w]; [|done].
      destruct IH as (s1 & body & Hloop & Hq & Hres & Hg).
      exists s1, (t :: body). split_and!; [done| | |].
      * rewrite Hq. simpl. by rewrite <- app_assoc.
      * by rewrite Hres, streamed_text_cons, append_assoc.
      * rewrite Hg. simpl length. lia.
    + exists (set_error "Failed to decode token" (emplace t s)), [t].
      split_and!; [done|done| |simpl; lia].
      by rewrite streamed_text_cons, append_empty_r.
Qed.

(** X17: [Generate] and the streaming task, given the same request, the
    same registry and the same answers of the engine, end alike. If the
    stream is never stopped and every piece is non-empty, a task that
    runs its loop to the end has queued tokens whose texts, put together,
    are the text [Generate] returns; a task that ends on an error has
    [Generate] return an error text: the message of the session after
    "Error: " for a missing model, a tokenizer failure and an exception,
    and a text of its own for a missing context and a rejected prompt. *)
Theorem X17_generate_returns_streamed_text
    run stop_seen id model_name input params m out s m2 :
  (forall i, stop_seen i = false) ->
  pieces_nonempty run ->
  StartGeneration run stop_seen (StreamingSession_new id model_name input params) m
  = Some (out, s, m2) ->
  exists m1,
    Generate run model_name input params m
    = Some (match out with
            | exit_loop_left => streamed_text (token_queue s)
            | exit_no_context => "Error: No available context for model: " +:+ model_name
            | exit_prompt_failed => "Error: Failed to process prompt"
            | _ => "Error: " +:+ error_message s
            end, m1).
Proof.
  intros Hstop Hpieces. unfold StartGeneration, Generate. simpl.
  destruct (GetModel _ _ _) as [[mdl|] m1].
  2: { intros ?; simplify_eq. by eexists. }
  destruct (context_pool mdl) as [p|]; [|done]. simpl.
  destruct (AcquireContext _ _ p) as [[[e|] p1]|]; [| |done]; simpl.
  2: { intros ?; simplify_eq. by eexists. }
  unfold stream_try, Generate_try, thrown_bind. simpl.
  destruct (llama_sampler_reset run) as [[]|w].
  2: { intros ?; simplify_eq. by eexists. }
  destruct (tokenize_twice _ _) as [n_tokens|w].
  2: { intros ?; simplify_eq. by eexists. }
  destruct (n_tokens <=? 0)%Z.
  { intros ?; simplify_eq. by eexists. }
  destruct (llama_decode_prompt run) as [r|w].
  2: { intros ?; simplify_eq. by eexists. }
  destruct (negb (r =? 0)%Z).
  { intros ?; simplify_eq. by eexists. }
  pose proof (loops_agree run stop_seen (Z.to_nat (max_tokens params)) Hstop Hpieces
                0%nat EmptyString 0%Z
                (StreamingSession_new id model_name input params)) as Hagree.
  destruct (generate_loop _ _ _ _ _) as [[result g]|w].
  - destruct Hagree as (s1 & body & Hloop & Hq & Hres & Hg). rewrite Hloop.
    intros ?; simplify_eq. eexists. do 2 f_equal.
    simpl. rewrite Hq. simpl. rewrite streamed_text_app.
    by rewrite streamed_text_cons, !append_empty_r.
  - destruct Hagree as (s1 & Hloop). rewrite Hloop.
    intros ?; simplify_eq. by eexists.
Qed.

End StreamAndGenerate.

Section StreamOrder.

(** The tokens of the loop, one per step from [i] on: none is put after
    [Stop] was seen or after an end-of-generation token. *)
Lemma stream_loop_steps run stop_seen fuel :
  forall i s r s1,
    stream_loop run stop_seen fuel i s = (r, s1) ->
    exists body,
      token_queue s1 = token_queue s ++ body
      /\ (length body <= fuel)%nat
      /\ (stop_seen i = true -> body = [])
      /\ (forall k t, body !! k = Some t ->
            let st := sample_step run (i + k) in
            stop_seen (i + k)%nat = false
            /\ llama_vocab_is_eog st = false
            /\ llama_sampler_sample st = Ret (token_id t)
            /\ probability t = llama_get_logits_probability st
            /\ text t = (if (0 <? fst (llama_token_to_piece st))%Z
                         then snd (llama_token_to_piece st) else "[UNK]")
            /\ is_final t = false).
Proof.
  induction fuel as [|fuel IH]; intros i s r s1; simpl.
  - intros ?; simplify_eq. exists []. rewrite app_nil_r. split_and!; done.
  - destruct (stop_seen i) eqn:Hstop.
    { intros ?; simplify_eq. exists []. rewrite app_nil_r.
      split_and!; [done|simpl; lia|done|done]. }
    destruct (llama_sampler_sample (sample_step run i)) as [token|w] eqn:Hsample.
    2: { intros ?; simplify_eq. exists []. rewrite app_nil_r.
         split_and!; [done|simpl; lia|done|done]. }
    destruct (llama_vocab_is_eog (sample_step run i)) eqn:Heog.
    { intros ?; simplify_eq. exists []. rewrite app_nil_r.
      split_and!; [done|simpl; lia|done|done]. }
    destruct (llama_token_to_piece (sample_step run i)) as [n_chars piece] eqn:Hpiece.
    set (t := mkStreamToken _ false _ token).
    assert (Hfirst : forall k t', [t] !! k = Some t' ->
              let st := sample_step run (i + k) in
              stop_seen (i + k)%nat = false
              /\ llama_vocab_is_eog st = false
              /\ llama_sampler_sample st = Ret (token_id t')
              /\ probability t' = llama_get_logits_probability st
              /\ text t' = (if (0 <? fst (llama_token_to_piece st))%Z
                            then snd (llama_token_to_piece st) else "[UNK]")
              /\ is_final t' = false).
    { intros [|k] t' Hk; [|done]. simpl in Hk. simplify_eq.
      rewrite Nat.add_0_r. simpl. by rewrite Hpiece. }
    destruct (llama_decode_token (sample_step run i)) as [d|w].
    2: { intros ?; simplify_eq. exists [t]. split_and!; [done|simpl; lia|done|done]. }
    destruct (d =? 0)%Z.
    + intros Hloop. apply IH in Hloop as (body & Hq & Hlen & _ & Hbody).
      exists (t :: body). split_and!; [|simpl; lia|done|].
      * rewrite Hq. simpl. by rewrite <- app_assoc.
      * intros [|k] t' Hk.
        -- apply (Hfirst 0%nat). by simpl in *.
        -- replace (i + S k)%nat with (S i + k)%nat by lia. by apply Hbody.
    + intros ?; simplify_eq. exists [t]. split_and!; [done|simpl; lia|done|done].
Qed.

(** X18: what a streaming task puts into the queue. It only appends; it
    appends at most [max_tokens] tokens and then the final one; the
    [k]-th of them is the token sampled at step [k], with its probability
    and its piece (or "[UNK]" for an empty piece), and no token is put
    for a step at which [Stop] had been seen or the end of generation
    was sampled. A task that sees [Stop] at its first test, or has
    [max_tokens <= 0], puts the final token only. *)
Theorem X18_stream_tokens_in_step_order run stop_seen s0 m out s m' :
  StartGeneration run stop_seen s0 m = Some (out, s, m') ->
  exists body closing,
    token_queue s = token_queue s0 ++ body ++ closing
    /\ (closing = match out with exit_loop_left => [final_token] | _ => [] end)
    /\ (Z.of_nat (length body) <= Z.max 0 (max_tokens (params s0)))%Z
    /\ (stop_seen 0%nat = true \/ (max_tokens (params s0) <= 0)%Z -> body = [])
    /\ (forall k t, body !! k = Some t ->
          let st := sample_step run k in
          stop_seen k = false
          /\ llama_vocab_is_eog st = false
          /\ llama_sampler_sample st = Ret (token_id t)
          /\ probability t = llama_get_logits_probability st
          /\ text t = (if (0 <? fst (llama_token_to_piece st))%Z
                       then snd (llama_token_to_piece st) else "[UNK]")
          /\ is_final t = false).
Proof.
  unfold StartGeneration.
  assert (Hnone : forall s1 : StreamingSession,
            token_queue s1 = token_queue s0 ->
            exists body closing,
              token_queue s1 = token_queue s0 ++ body ++ closing
              /\ closing = []
              /\ (Z.of_nat (length body) <= Z.max 0 (max_tokens (params s0)))%Z
              /\ (stop_seen 0%nat = true \/ (max_tokens (params s0) <= 0)%Z -> body = [])
              /\ (forall k t, body !! k = Some t ->
                    let st := sample_step run k in
                    stop_seen k = false
                    /\ llama_vocab_is_eog st = false
                    /\ llama_sampler_sample st = Ret (token_id t)
                    /\ probability t = llama_get_logits_probability st
                    /\ text t = (if (0 <? fst (llama_token_to_piece st))%Z
                                 then snd (llama_token_to_piece st) else "[UNK]")
                    /\ is_final t = false)).
  { intros s1 Hq. exists [], []. rewrite Hq, !app_nil_r.
    split_and!; [done|done|simpl; lia|done|done]. }
  destruct (GetModel _ _ _) as [[mdl|] m1].
  2: { intros ?; simplify_eq. by apply (Hnone _ eq_refl). }
  destruct (context_pool mdl) as [p|]; [|done]. simpl.
  destruct (AcquireContext _ _ p) as [[[e|] p1]|]; [| |done]; simpl.
  2: { intros ?; simplify_eq. by apply (Hnone _ eq_refl). }
  unfold stream_try.
  destruct (llama_sampler_reset run) as [[]|w].
  2: { intros ?; simplify_eq. by apply (Hnone _ eq_refl). }
  destruct (tokenize_twice _ _) as [n_tokens|w].
  2: { intros ?; simplify_eq. by apply (Hnone _ eq_refl). }
  destruct (n_tokens <=? 0)%Z.
  { intros ?; simplify_eq. by apply (Hnone _ eq_refl). }
  destruct (llama_decode_prompt run) as [r|w].
  2: { intros ?; simplify_eq. by apply (Hnone _ eq_refl). }
  destruct (negb (r =? 0)%Z).
  { intros ?; simplify_eq. by apply (Hnone _ eq_refl). }
  destruct (stream_loop _ _ _ _ _) as [[[]|w] s1] eqn:Hloop;
    apply stream_loop_steps in Hloop as (body & Hq & Hlen & Hstop & Hbody);
    intros ?; simplify_eq.
  - exists body, [final_token]. simpl. rewrite Hq, <- app_assoc.
    split_and!; [done|done|lia| |done].
    intros [H|H]; [by apply Hstop|].
    destruct body; [done|]. simpl in Hlen. lia.
  - exists body, []. simpl. rewrite Hq, app_nil_r.
    split_and!; [done|done|lia| |done].
    intros [H|H]; [by apply Hstop|].
    destruct body; [done|]. simpl in Hlen. lia.
Qed.

End StreamOrder.

(** ** Reading a stream *)

Section ReadingAStream.

Lemma next_tokens_finished n :
  forall s,
    finished s = true ->
    next_tokens n s
    = Some ((Some <$> take n (token_queue s))
              ++ replicate (n - length (token_queue s)) None,
            mkSession (session_id s) (stream_model_name s) (prompt s) (params s)
                      (drop n (token_queue s)) (finished s) (error s) (error_message s)).
Proof.
  induction n as [|n IH]; intros s Hfin.
  - simpl. rewrite drop_0. by destruct s.
  - cbn [next_tokens]. unfold GetNextToken.
    destruct (token_queue s) as [|t q] eqn:Hq.
    + rewrite Hfin. simpl. rewrite IH by done. rewrite Hq. simpl.
      rewrite drop_nil, take_nil, Nat.sub_0_r. simpl. by destruct s; simplify_eq/=.
    + simpl. rewrite IH by done. simpl. done.
Qed.

Lemma next_tokens_queued n :
  forall s,
    (n <= length (token_queue s))%nat ->
    next_tokens n s
    = Some (Some <$> take n (token_queue s),
            mkSession (session_id s) (stream_model_name s) (prompt s) (params s)
                      (drop n (token_queue s)) (finished s) (error s) (error_message s)).
Proof.
  induction n as [|n IH]; intros s Hlen.
  - simpl. rewrite drop_0. by destruct s.
  - cbn [next_tokens]. unfold GetNextToken.
    destruct (token_queue s) as [|t q] eqn:Hq; [simpl in Hlen; lia|].
    simpl. rewrite IH by (simpl in *; lia). simpl. done.
Qed.

Lemma next_tokens_waits n :
  forall s,
    finished s = false ->
    (length (token_queue s) < n)%nat ->
    next_tokens n s = None.
Proof.
  induction n as [|n IH]; intros s Hfin Hlen; [lia|].
  cbn [next_tokens]. unfold GetNextToken.
  destruct (token_queue s) as [|t q] eqn:Hq.
  - by rewrite Hfin.
  - simpl. rewrite IH; [done|done|]. simpl in *. lia.
Qed.

(** X19: successive calls of [GetNextToken] hand out the queued tokens
    first in, first out, each once. On a finished session no call ever
    waits: once the queue is empty every further call returns false and
    leaves the session as it is. On a session that is not finished a call
    waits as soon as the queue is empty. *)
Theorem X19_tokens_read_in_order n s :
  let q := token_queue s in
  let rest := mkSession (session_id s) (stream_model_name s) (prompt s) (params s)
                        (drop n q) (finished s) (error s) (error_message s) in
  (finished s = true ->
   next_tokens n s
   = Some ((Some <$> take n q) ++ replicate (n - length q) None, rest))
  /\ ((n <= length q)%nat -> next_tokens n s = Some (Some <$> take n q, rest))
  /\ (finished s = false -> (length q < n)%nat -> next_tokens n s = None).
Proof.
  simpl. split_and!.
  - apply next_tokens_finished.
  - apply next_tokens_queued.
  - apply next_tokens_waits.
Qed.

End ReadingAStream.

(** ** The table of sessions *)

Section Sessions.

Lemma to_string_inj (a b : Z) : to_string a = to_string b -> a = b.
Proof. unfold to_string. apply pretty_Z_inj. Qed.

Lemma prefixed_inj (prefix a b : string) : prefix +:+ a = prefix +:+ b -> a = b.
Proof.
  induction prefix as [|c prefix IH]; [done|].
  change (String c (prefix +:+ a) = String c (prefix +:+ b) -> a = b).
  intros H. apply IH. by injection H.
Qed.

(** X20: the id of a streaming session is "stream_" followed by the tick
    count of the clock, so two sessions get different ids exactly when
    they are started at different ticks. Started at different ticks, both
    are in the table afterwards and no other entry has changed; started
    at the same tick, the second takes the place of the first, which is
    gone from the table. *)
Theorem X20_session_ids_follow_the_clock
    now1 now2 model1 prompt1 params1 model2 prompt2 params2 table :
  let '(id1, table1) := StartStreamingSession now1 model1 prompt1 params1 table in
  let '(id2, table2) := StartStreamingSession now2 model2 prompt2 params2 table1 in
  (id1 = id2 <-> now1 = now2)
  /\ table2 !! id2 = Some (StreamingSession_new id2 model2 prompt2 params2)
  /\ (now1 <> now2 ->
      table2 !! id1 = Some (StreamingSession_new id1 model1 prompt1 params1))
  /\ (now1 = now2 ->
      table2 = <[id2 := StreamingSession_new id2 model2 prompt2 params2]> table)
  /\ (forall other, other <> id1 -> other <> id2 -> table2 !! other = table !! other).
Proof.
  unfold StartStreamingSession, SessionTable in *. simpl.
  assert (Hid : "stream_" +:+ to_string now1 = "stream_" +:+ to_string now2
                <-> now1 = now2).
  { split; [|by intros ->]. intros H. by apply to_string_inj, (prefixed_inj "stream_"). }
  split_and!.
  - exact Hid.
  - by rewrite lookup_insert_eq.
  - intros Hne. rewrite lookup_insert_ne by (intros H; by apply Hne, Hid).
    by rewrite lookup_insert_eq.
  - intros ->. by rewrite insert_insert_eq.
  - intros other H1 H2. by rewrite !lookup_insert_ne.
Qed.

Lemma CleanupExpiredSessions_lookup table id :
  CleanupExpiredSessions table !! id
  = match table !! id with
    | Some s => if finished s then None else Some s
    | None => None
    end.
Proof.
  unfold CleanupExpiredSessions, SessionTable in *.
  destruct (table !! id) as [s|] eqn:Hlk.
  - destruct (finished s) eqn:Hfin.
    + apply map_lookup_filter_None. right. intros s' Hs'. simplify_eq/=. congruence.
    + apply map_lookup_filter_Some. by split.
  - apply map_lookup_filter_None. by left.
Qed.

(** X21: [CleanupExpiredSessions] removes exactly the finished sessions,
    whatever is left in their queues, and keeps the others as they are.
    The tokens a finished session still holds are lost: the next
    [GetNextStreamToken] for its id finds no session and returns false,
    and [cpp_llama_get_stream_token] answers with an empty final token.
    A sweep of a swept table changes nothing. *)
Theorem X21_sweep_drops_finished_sessions table id :
  (forall s, CleanupExpiredSessions table !! id = Some s
             <-> table !! id = Some s /\ finished s = false)
  /\ (forall s, table !! id = Some s -> finished s = true ->
        let swept := CleanupExpiredSessions table in
        GetNextStreamToken id swept = Some (None, swept)
        /\ cpp_llama_get_stream_token id swept
           = Some (mkStreamTokenResponse EmptyString true 0, swept))
  /\ CleanupExpiredSessions (CleanupExpiredSessions table)
     = CleanupExpiredSessions table.
Proof.
  split_and!.
  - intros s. rewrite CleanupExpiredSessions_lookup.
    unfold SessionTable in *.
    destruct (table !! id) as [s'|]; [|by split; [|intros []]].
    destruct (finished s') eqn:Hfin.
    + split; [done|]. intros [? ?]. simplify_eq. congruence.
    + split; [by intros ?; simplify_eq|]. by intros [? ?].
  - intros s Hlk Hfin. simpl.
    assert (Hgone : CleanupExpiredSessions table !! id = None).
    { by rewrite CleanupExpiredSessions_lookup, Hlk, Hfin. }
    unfold cpp_llama_get_stream_token, GetNextStreamToken. by rewrite Hgone.
  - apply map_eq. intros i. rewrite !CleanupExpiredSessions_lookup.
    destruct (table !! i) as [s|]; [|done].
    destruct (finished s) eqn:Hfin; [done|]. by rewrite Hfin.
Qed.

Lemma StopStreamingSession_gone (table : SessionTable) id :
  StopStreamingSession id table !! id = None.
Proof.
  unfold StopStreamingSession, SessionTable in *.
  destruct (table !! id) eqn:Hlk; [|exact Hlk]. apply lookup_delete_eq.
Qed.

(** X22: [GetNextStreamToken] and [StopStreamingSession]. A call for an
    id that is not in the table returns false at once and changes
    nothing. A call for a session with a queued token returns the oldest
    one and changes that session only. A call for a session with an
    empty queue that is not finished waits, with the table locked. After
    [StopStreamingSession] the id is unknown, every other session is as
    before, and reading the stopped id returns false. *)
Theorem X22_session_lookup table id :
  (table !! id = None -> GetNextStreamToken id table = Some (None, table))
  /\ (forall s t q, table !! id = Some s -> token_queue s = t :: q ->
        exists s1, GetNextStreamToken id table = Some (Some t, <[id := s1]> table)
                   /\ token_queue s1 = q /\ finished s1 = finished s
                   /\ error s1 = error s /\ error_message s1 = error_message s)
  /\ (forall s, table !! id = Some s -> token_queue s = [] ->
        GetNextStreamToken id table
        = if finished s then Some (None, table) else None)
  /\ (let stopped := StopStreamingSession id table in
      stopped !! id = None
      /\ (forall other, other <> id -> stopped !! other = table !! other)
      /\ GetNextStreamToken id stopped = Some (None, stopped)).
Proof.
  unfold GetNextStreamToken, GetNextToken, SessionTable in *. split_and!.
  - by intros ->.
  - intros s t q -> ->. simpl. by eexists.
  - intros s Hlk Hq. rewrite Hlk, Hq. destruct (finished s) eqn:Hfin; [|done].
    simpl. by rewrite insert_id.
  - apply StopStreamingSession_gone.
  - intros other Hne. unfold StopStreamingSession, SessionTable.
    destruct (table !! id); [|done]. by apply lookup_delete_ne.
  - by rewrite StopStreamingSession_gone.
Qed.

End Sessions.

(** ** Reading a stream through the bridge *)

Section BridgeStream.





End BridgeStream.

(** ** Batch requests *)

Section Batch.

Lemma batch_step_results b b' : batch_step b b' -> batch_results_ b' = batch_results_ b.
Proof. by intros []. Qed.

Lemma batch_steps_results b b' :
  rtc batch_step b b' -> batch_results_ b' = batch_results_ b.
Proof.
  induction 1 as [|b1 b2 b3 Hstep _ IH]; [done|].
  rewrite IH. by apply batch_step_results.
Qed.

Lemma batch_steps_queue b b' :
  rtc batch_step b b' ->
  exists later, batch_queue_ b' = batch_queue_ b ++ later
                /\ Forall (fun r => completed r = false) later.
Proof.
  induction 1 as [|b1 b2 b3 Hstep _ (later & IH & Hlater)].
  - exists []. by rewrite app_nil_r.
  - destruct Hstep as [b now submitted model_name prompt_text gen_params].
    simpl in IH. eexists (_ :: later). split.
    + rewrite IH, <- app_assoc. done.
    + by constructor.
Qed.

(** X24: a batch request is queued and never answered. The id returned by
    [SubmitBatchRequest] is "batch_" followed by the tick count; the
    request is put at the back of the queue, not completed, and nothing
    takes a request out of the queue. Whatever has been submitted since
    the manager was built, the table of results is empty:
    [GetBatchResult] answers every id, the one just returned included,
    with [success = false] and "Request not found", and
    [GetAllBatchResults] returns no result. *)
Theorem X24_batch_requests_stay_queued
    b now submitted model_name prompt_text gen_params indeterminate :
  rtc batch_step BatchState_new b ->
  let '(id, b') := SubmitBatchRequest now submitted model_name prompt_text gen_params b in
  id = "batch_" +:+ to_string now
  /\ batch_queue_ b'
     = batch_queue_ b
         ++ [mkBatchRequest id model_name prompt_text gen_params submitted false]
  /\ (forall b'', rtc batch_step b' b'' ->
        (exists later, batch_queue_ b'' = batch_queue_ b' ++ later)
        /\ Forall (fun r => completed r = false) (batch_queue_ b'')
        /\ (forall any,
              GetBatchResult indeterminate any b''
              = mkBatchResult any EmptyString false "Request not found" 0%Z indeterminate)
        /\ success (GetBatchResult indeterminate id b'') = false
        /\ GetAllBatchResults b'' = []).
Proof.
  intros Hreach. simpl. split_and!; [done|done|].
  intros b'' Hlater.
  assert (Hall : rtc batch_step BatchState_new b'').
  { etrans; [exact Hreach|]. etrans; [|exact Hlater].
    apply rtc_once. apply (batch_submit b now submitted model_name prompt_text gen_params). }
  pose proof (batch_steps_results _ _ Hall) as Hres. simpl in Hres.
  assert (Hget : forall any,
            GetBatchResult indeterminate any b''
            = mkBatchResult any EmptyString false "Request not found" 0%Z indeterminate).
  { intros any. unfold GetBatchResult. by rewrite Hres, lookup_empty. }
  split_and!.
  - apply batch_steps_queue in Hlater as (later & Hq & _). by exists later.
  - apply batch_steps_queue in Hall as (later & Hq & Hlater'). by rewrite Hq.
  - exact Hget.
  - by rewrite Hget.
  - unfold GetAllBatchResults. by rewrite Hres, map_to_list_empty.
Qed.

End Batch.

(** ** Raw pointers, reset and cleanup *)

Section RawAndCleanup.

(** X25: [GetModelRaw] returns a pointer that holds no reference: the
    reference [GetModel] took is released before the function returns,
    so the count of the model is what it was and only the time of last
    access has changed. [UnloadModel] therefore does not wait for the
    holder of a raw pointer: on a model without other references it
    returns true and the model is gone. For an unknown name the answer is
    null and nothing changes. *)
Theorem X25_raw_pointer_holds_no_reference now model_name m lm :
  models_ m !! model_name = Some lm ->
  reference_count lm < uint64_modulus ->
  let kept := set_reference (reference_count lm) now lm in
  let m2 := set_models (<[model_name := kept]> (models_ m)) m in
  GetModelRaw now model_name m = (Some kept, m2)
  /\ (reference_count lm = 0 ->
      exists m3, UnloadModel (50 + 3) model_name m2 = Some (true, m3)
                 /\ IsModelLoaded model_name m3 = false)
  /\ (forall other, models_ m !! other = None -> GetModelRaw now other m = (None, m)).
Proof.
  intros Hlk Hrc. cbv zeta.
  assert (Hraw : GetModelRaw now model_name m
                 = (Some (set_reference (reference_count lm) now lm),
                    set_models (<[model_name := set_reference (reference_count lm) now lm]>
                                  (models_ m)) m)).
  { unfold GetModelRaw, GetModel. rewrite Hlk.
    unfold ReleaseModelReference. simpl. rewrite lookup_insert_eq. simpl.
    rewrite insert_insert_eq, lookup_insert_eq.
    unfold set_reference. simpl.
    by rewrite sub64_wrap_add. }
  split_and!; [done| |].
  - intros Hzero. eexists. split.
    + apply UnloadModel_returns with (lm := set_reference (reference_count lm) now lm).
      * simpl. by rewrite lookup_insert_eq.
      * done.
    + unfold IsModelLoaded. simpl. apply bool_decide_eq_false.
      rewrite lookup_delete_eq. by intros [? ?].
  - intros other Hother. unfold GetModelRaw, GetModel. by rewrite Hother.
Qed.

(** X26: [Cleanup] takes the registry back to the state the constructor
    leaves it in, with the limits it was built with, and empties the
    table of sessions, but leaves the batch queue and the batch results
    as they are: the manager as a whole is in its constructor state
    afterwards exactly when no batch request is queued and no result
    stored, and never when a request had been submitted. [Cleanup] does
    not wait for references: a model with references out is removed like
    any other, and a reference given back afterwards finds no model and
    changes nothing. A second [Cleanup] changes nothing. *)
Theorem X26_cleanup_resets_all_but_batch
    memory_limit_mb m (table : SessionTable) (b : BatchState) :
  memory_limit_bytes_ m
  = memory_limit_bytes_ (SimpleModelManager_new memory_limit_mb (max_context_pool_size_ m)) ->
  let m' := SimpleModelManager_new memory_limit_mb (max_context_pool_size_ m) in
  Cleanup m table b = (m', ∅, b)
  /\ (Cleanup m table b = ManagerState_new memory_limit_mb (max_context_pool_size_ m)
      <-> batch_queue_ b = [] /\ batch_results_ b = ∅)
  /\ (forall now submitted model_name prompt_text gen_params b0,
        b = snd (SubmitBatchRequest now submitted model_name prompt_text gen_params b0) ->
        Cleanup m table b
        <> ManagerState_new memory_limit_mb (max_context_pool_size_ m))
  /\ (forall model_name,
        IsModelLoaded model_name m' = false
        /\ ReleaseModelReference model_name m' = m'
        /\ forall fuel, UnloadModel (S fuel) model_name m' = Some (false, m'))
  /\ Cleanup m' ∅ b = (m', ∅, b).
Proof.
  intros Hlim. cbv zeta. simpl in Hlim.
  assert (Hclean : Cleanup m table b
                   = (SimpleModelManager_new memory_limit_mb (max_context_pool_size_ m),
                      ∅, b)).
  { unfold Cleanup, ResetMetrics, SimpleModelManager_new, set_metrics, set_models,
      set_backend_initialized. simpl.
    destruct (backend_initialized_ m); simpl; by rewrite Hlim. }
  assert (Hnew : Cleanup m table b
                 = ManagerState_new memory_limit_mb (max_context_pool_size_ m)
                 <-> batch_queue_ b = [] /\ batch_results_ b = ∅).
  { rewrite Hclean. unfold ManagerState_new, BatchState_new. split.
    - intros H. injection H as ->. done.
    - intros [Hq Hr]. destruct b as [q r]. simpl in *. by subst. }
  split_and!; [exact Hclean|exact Hnew| | |done].
  - intros now submitted model_name prompt_text gen_params b0 -> H.
    apply Hnew in H as [Hq _]. simpl in Hq. by destruct (batch_queue_ b0).
  - intros model_name. split_and!.
    + unfold IsModelLoaded. simpl. apply bool_decide_eq_false.
      rewrite lookup_empty. by intros [? ?].
    + unfold ReleaseModelReference. simpl. by rewrite lookup_empty.
    + intros fuel. by apply UnloadModel_unknown.
Qed.

(** X27: [ResetMetrics] zeroes the memory counters whatever is loaded.
    Called with a model loaded, it leaves the usage counter below the
    footprints of the models: unloading that model afterwards takes its
    footprint from zero, the counter wraps around to 2^64 minus the
    footprint, and with a limit set that is not above this value
    [CheckMemoryLimit] fails from then on, with no model loaded. *)
Theorem X27_reset_then_unload_wraps_usage model_name m lm :
  models_ m !! model_name = Some lm ->
  reference_count lm = 0 ->
  0 < memory_usage_bytes lm < uint64_modulus ->
  metrics_memory_usage_bytes (metrics_ (ResetMetrics m)) = 0
  /\ peak_memory_bytes (metrics_ (ResetMetrics m)) = 0
  /\ models_ (ResetMetrics m) = models_ m
  /\ exists m',
       UnloadModel (50 + 3) model_name (ResetMetrics m) = Some (true, m')
       /\ metrics_memory_usage_bytes (metrics_ m')
          = uint64_modulus - memory_usage_bytes lm
       /\ (memory_limit_bytes_ m <> 0 ->
           memory_limit_bytes_ m <= uint64_modulus - memory_usage_bytes lm ->
           CheckMemoryLimit m' = false).
Proof.
  intros Hlk Hrc Hfoot. split_and!; [done|done|done|].
  eexists. split; [by apply UnloadModel_returns|]. simpl.
  assert (Hwrap : sub64 0 (memory_usage_bytes lm)
                  = uint64_modulus - memory_usage_bytes lm).
  { unfold sub64, uint64_modulus in *. simpl Z.of_N at 1.
    rewrite <- (Z.mod_add _ 1) by lia.
    rewrite Z.mod_small by lia. lia. }
  split; [exact Hwrap|].
  intros Hlimit Hle. unfold CheckMemoryLimit. simpl. rewrite Hwrap.
  apply orb_false_iff. split; [by apply N.eqb_neq|]. by apply N.ltb_ge.
Qed.

End RawAndCleanup.

(** ** The C interface *)

Section Bridge.

Lemma string_to_cstring_null (str : string) :
  string_to_cstring true str = None <-> str = EmptyString.
Proof. destruct str; simpl; [done|]. split; done. Qed.

(** X28: [cpp_llama_generate] returns a null pointer, memory permitting,
    exactly when [Generate] returns the empty text, and that is never an
    error: every error of [Generate] has a text that begins with
    "Error: ". A null answer means that the model was found, a context
    acquired, the request counted, and the sampling loop left with an
    empty text. A call without a model name or without a
    prompt is answered with an error text and does not reach the
    manager. *)
Theorem X28_null_answer_is_empty_generation
    run model_arg prompt_arg gen_params m r m' :
  cpp_llama_generate true run model_arg prompt_arg gen_params m = Some (r, m') ->
  (model_arg = None \/ prompt_arg = None ->
   r = Some "Error: Model name and prompt are required" /\ m' = m)
  /\ (forall model_name input,
        model_arg = Some model_name -> prompt_arg = Some input ->
        exists response,
          Generate run model_name input gen_params m = Some (response, m')
          /\ (r = None <-> response = EmptyString)
          /\ (r = None ->
              total_requests (metrics_ m') = wrap64 (total_requests (metrics_ m) + 1)
              /\ exists generated,
                   generate_loop run (Z.to_nat (max_tokens gen_params)) 0 EmptyString 0%Z
                   = Ret (EmptyString, generated))).
Proof.
  unfold cpp_llama_generate. intros Hcall. split.
  - intros [-> | ->]; [|destruct model_arg]; by simplify_eq/=.
  - intros model_name input -> ->. simpl in Hcall.
    destruct (Generate run model_name input gen_params m) as [[response m1]|] eqn:Hgen;
      simplify_eq/=.
    exists response. split; [done|]. split; [apply string_to_cstring_null|].
    intros Hnull%string_to_cstring_null. subst response.
    by apply Generate_empty_text in Hgen.
Qed.

End Bridge.

(** ** Snapshots *)

Section Snapshots.

(** X29: the snapshot [GetMetrics] returns reports what the live counters
    report: the two averages and the memory usage computed from the
    snapshot are those computed from the counters of the manager. The
    usage in megabytes is the byte count rounded down to a whole number
    of 2^20 bytes. After [ResetMetrics] all three are zero. *)
Theorem X29_snapshot_reports_live_counters (m : SimpleModelManager) :
  let snapshot := GetMetrics m in
  Snapshot_GetAverageTokensPerSecond snapshot
  = Metrics_GetAverageTokensPerSecond (metrics_ m)
  /\ Snapshot_GetAverageLatencyMs snapshot = Metrics_GetAverageLatencyMs (metrics_ m)
  /\ Snapshot_GetMemoryUsageMB snapshot = GetTotalMemoryUsage m
  /\ (GetTotalMemoryUsage m * 1048576 <= metrics_memory_usage_bytes (metrics_ m)
      < (GetTotalMemoryUsage m + 1) * 1048576)
  /\ (let cleared := GetMetrics (ResetMetrics m) in
      Snapshot_GetAverageTokensPerSecond cleared = double_zero
      /\ Snapshot_GetAverageLatencyMs cleared = double_zero
      /\ Snapshot_GetMemoryUsageMB cleared = 0).
Proof.
  cbv zeta. split_and!; try done.
  - unfold GetTotalMemoryUsage, Metrics_GetMemoryUsageMB.
    change (1024 * 1024) with 1048576.
    pose proof (N.Div0.mul_div_le (metrics_memory_usage_bytes (metrics_ m)) 1048576). lia.
  - unfold GetTotalMemoryUsage, Metrics_GetMemoryUsageMB.
    change (1024 * 1024) with 1048576.
    pose proof (N.mul_succ_div_gt (metrics_memory_usage_bytes (metrics_ m)) 1048576). lia.
Qed.

End Snapshots.

(** ** The further properties at concrete inputs *)

Section MoreWitnesses.

(** X1 at a pool with one entry out. *)
Lemma X1_witness :
  pool_reachable (Some tiny_model) tiny_config 4 one_held
  /\ Forall (fun e => in_use e = true) (held one_held)
  /\ NoDup (map entry_addr (all_contexts_ (pool one_held))
              ++ map entry_addr (held one_held)).
Proof.
  split; [exact one_held_reachable|].
  destruct (X1_entry_idle_or_held (Some tiny_model) tiny_config 4 one_held
              one_held_reachable) as (_ & H2 & _ & H4 & _).
  by split.
Defined.

(** X2 at a pool with two idle entries. *)
Lemma X2_witness :
  pool_reachable (Some tiny_model) tiny_config 4 two_idle
  /\ is_Some (AcquireContext 5%Z (alloc_at 3) (pool two_idle))
  /\ is_Some (CleanupExpiredContexts 5%Z (pool two_idle)).
Proof.
  split; [exact two_idle_reachable|].
  destruct (X2_queue_pointers_never_dangle (Some tiny_model) tiny_config 4 two_idle
              two_idle_reachable) as (_ & H2 & H3).
  split; [apply H2|apply H3].
Defined.

(** X3 at a pool with two idle entries: the one released first is handed
    out. *)
Lemma X3_witness :
  pool_reachable (Some tiny_model) tiny_config 4 two_idle
  /\ all_contexts_ (pool two_idle)
     = [mkEntry 1 1001 2001 0%Z false 1; mkEntry 2 1002 2002 1000000000000%Z false 1]
  /\ exists p, AcquireContext 5%Z (alloc_at 3) (pool two_idle)
               = Some (Some (mkEntry 1 1001 2001 5%Z true 2), p).
Proof.
  split; [exact two_idle_reachable|]. split; [reflexivity|].
  destruct (X3_acquire_reuses_oldest_idle (Some tiny_model) tiny_config 4 two_idle
              (mkEntry 1 1001 2001 0%Z false 1)
              [mkEntry 2 1002 2002 1000000000000%Z false 1] 5%Z (alloc_at 3)
              two_idle_reachable eq_refl) as (H1 & _).
  eexists. exact H1.
Defined.

(** X4 at a pool with no idle entry: a new entry is made. *)
Lemma X4_witness :
  pool_reachable (Some tiny_model) tiny_config 4 one_held
  /\ all_contexts_ (pool one_held) = []
  /\ exists r, AcquireContext 5%Z (alloc_at 3) (pool one_held) = Some (r, pool one_held)
               /\ r <> None.
Proof.
  split; [exact one_held_reachable|]. split; [reflexivity|].
  destruct (X4_acquire_from_empty_pool (Some tiny_model) tiny_config 4 one_held
              5%Z (alloc_at 3) one_held_reachable eq_refl) as (r & H1 & H2 & _).
  exists r. split; [exact H1|].
  intros Hr. apply H2 in Hr. destruct Hr as [H|[H|[H|H]]]; discriminate H.
Defined.

(** X5 at a pool with two idle entries, swept at tick 5 and at a tick
    more than 30 minutes later. *)
Lemma X5_witness :
  pool_reachable (Some tiny_model) tiny_config 4 two_idle
  /\ (5 <= 1800000000005)%Z
  /\ exists p1 p2,
       CleanupExpiredContexts 5%Z (pool two_idle) = Some p1
       /\ CleanupExpiredContexts 1800000000005%Z p1 = Some p2
       /\ CleanupExpiredContexts 1800000000005%Z (pool two_idle) = Some p2.
Proof.
  split; [exact two_idle_reachable|]. split; [lia|].
  destruct (X5_cleanup_twice (Some tiny_model) tiny_config 4 two_idle
              5%Z 1800000000005%Z two_idle_reachable ltac:(lia))
    as (p1 & p2 & H1 & H2 & H3 & _).
  by exists p1, p2.
Defined.

Lemma tiny_loaded :
  LoadModel willing_engine "tiny" tiny_config one_megabyte_manager
  = (ret_successfully_loaded, tiny_manager).
Proof. reflexivity. Defined.

(** X6 at a registry over its limit: the load of a second model fails
    and the registry is as before. *)
Lemma X6_witness :
  LoadModel willing_engine "other" tiny_config tiny_manager
  = (ret_memory_limit_reached, tiny_manager)
  /\ LoadModel_result ret_memory_limit_reached = false
  /\ IsModelLoaded "other" tiny_manager = false.
Proof.
  assert (H1 : LoadModel willing_engine "other" tiny_config tiny_manager
               = (ret_memory_limit_reached, tiny_manager)) by (vm_compute; reflexivity).
  split; [exact H1|]. split; [reflexivity|].
  destruct (X6_failed_load_keeps_registry willing_engine "other" tiny_config
              tiny_manager ret_memory_limit_reached tiny_manager H1 eq_refl)
    as (_ & _ & _ & _ & H5).
  by apply H5.
Defined.

(** X7 at the first load of "tiny". *)
Lemma X7_witness :
  LoadModel willing_engine "tiny" tiny_config one_megabyte_manager
  = (ret_successfully_loaded, tiny_manager)
  /\ models_ one_megabyte_manager !! "tiny" = None
  /\ GetLoadedModelCount tiny_manager = GetLoadedModelCount one_megabyte_manager + 1
  /\ backend_initialized_ tiny_manager = true.
Proof.
  split; [exact tiny_loaded|].
  destruct (X7_successful_load willing_engine "tiny" tiny_config one_megabyte_manager
              tiny_manager tiny_loaded)
    as (H1 & _ & _ & mdl & lm & _ & _ & _ & _ & _ & _ & _ & _ & H9 & H10).
  by split_and!.
Defined.

(** X8 at the first load of "tiny", unloaded again. *)
Lemma X8_witness :
  LoadModel willing_engine "tiny" tiny_config one_megabyte_manager
  = (ret_successfully_loaded, tiny_manager)
  /\ metrics_memory_usage_bytes (metrics_ one_megabyte_manager) < uint64_modulus
  /\ exists m2, UnloadModel 3 "tiny" tiny_manager = Some (true, m2)
                /\ models_ m2 = models_ one_megabyte_manager.
Proof.
  split; [exact tiny_loaded|].
  assert (H2 : metrics_memory_usage_bytes (metrics_ one_megabyte_manager) < uint64_modulus)
    by (vm_compute; reflexivity).
  split; [exact H2|].
  destruct (X8_load_then_unload willing_engine "tiny" tiny_config one_megabyte_manager
              tiny_manager tiny_loaded H2) as (m2 & H3 & H4 & _).
  by exists m2.
Defined.

(** X9 at the registry after one load into a new manager. *)
Lemma X9_witness :
  let s := mkRegistry
             (snd (LoadModel willing_engine "tiny" tiny_config (SimpleModelManager_new 1 10)))
             None in
  rtc registry_step (mkRegistry (SimpleModelManager_new 1 10) None) s
  /\ metrics_memory_usage_bytes (metrics_ (mgr s))
     = wrap64 (models_memory (models_ (mgr s))).
Proof.
  cbv zeta.
  assert (H1 : rtc registry_step (mkRegistry (SimpleModelManager_new 1 10) None)
                 (mkRegistry
                    (snd (LoadModel willing_engine "tiny" tiny_config
                            (SimpleModelManager_new 1 10))) None)).
  { apply rtc_once.
    by apply (reg_load (mkRegistry (SimpleModelManager_new 1 10) None)
                       willing_engine "tiny" tiny_config). }
  split; [exact H1|].
  exact (proj1 (X9_usage_is_sum_of_footprints 1 10 _ H1)).
Defined.

Lemma tiny_lookup :
  exists lm, models_ tiny_manager !! "tiny" = Some lm /\ reference_count lm = 0.
Proof. eexists. split; [vm_compute; reflexivity|reflexivity]. Defined.

(** X10 at the registry with "tiny" loaded. *)
Lemma X10_witness :
  exists lm,
    models_ tiny_manager !! "tiny" = Some lm
    /\ reference_count lm < uint64_modulus
    /\ ReleaseModelReference "tiny" (snd (GetModel 5%Z "tiny" tiny_manager))
       = set_models (<["tiny" := set_reference (reference_count lm) 5%Z lm]>
                       (models_ tiny_manager)) tiny_manager.
Proof.
  destruct tiny_lookup as (lm & Hlk & Hrc). exists lm.
  assert (H2 : reference_count lm < uint64_modulus) by (rewrite Hrc; reflexivity).
  split; [exact Hlk|]. split; [exact H2|].
  exact (proj2 (X10_reference_taken_and_released 5%Z "tiny" tiny_manager lm Hlk H2)).
Defined.

(** X11 at the registry with "tiny" loaded and no reference out. *)
Lemma X11_witness :
  exists lm,
    models_ tiny_manager !! "tiny" = Some lm
    /\ reference_count lm = 0
    /\ UnloadModel 100 "tiny" (ReleaseModelReference "tiny" tiny_manager) = None.
Proof.
  destruct tiny_lookup as (lm & Hlk & Hrc). exists lm.
  split; [exact Hlk|]. split; [exact Hrc|].
  destruct (X11_release_without_reference "tiny" tiny_manager lm Hlk Hrc) as (_ & H & _).
  apply H.
Defined.

(** X12 at the registry with "tiny" loaded and no reference out. *)
Lemma X12_witness :
  exists lm,
    models_ tiny_manager !! "tiny" = Some lm
    /\ reference_count lm = 0
    /\ exists m', UnloadModel (50 + 3) "tiny" tiny_manager = Some (true, m')
                  /\ IsModelLoaded "tiny" m' = false.
Proof.
  destruct tiny_lookup as (lm & Hlk & Hrc). exists lm.
  split; [exact Hlk|]. split; [exact Hrc|].
  destruct (X12_unload_unreferenced_model "tiny" tiny_manager lm Hlk Hrc)
    as (m' & H1 & H2 & _).
  by exists m'.
Defined.

(** X13 at a manager with a limit of 1 MB that holds 2 000 000 bytes. *)
Lemma X13_witness :
  1 < 2 ^ 44
  /\ memory_limit_bytes_ tiny_manager
     = memory_limit_bytes_ (SimpleModelManager_new 1 (max_context_pool_size_ tiny_manager))
  /\ (CheckMemoryLimit tiny_manager = true
      <-> 1 = 0 \/ GetTotalMemoryUsage tiny_manager < 1).
Proof.
  assert (H1 : 1 < 2 ^ 44) by reflexivity.
  assert (H2 : memory_limit_bytes_ tiny_manager
               = memory_limit_bytes_
                   (SimpleModelManager_new 1 (max_context_pool_size_ tiny_manager)))
    by reflexivity.
  split; [exact H1|]. split; [exact H2|].
  exact (X13_memory_status_consistent 1 tiny_manager H1 H2).
Defined.

Lemma tiny_references : references_in_range tiny_manager.
Proof.
  intros name lm Hlk.
  destruct (LoadModel_loaded _ _ _ _ _ tiny_loaded)
    as (m2 & mdl & _ & _ & _ & _ & _ & _ & _ & _ & _ & Hm).
  rewrite Hm in Hlk. simpl in Hlk.
  destruct (decide (name = "tiny")) as [->|Hne].
  - rewrite lookup_insert_eq in Hlk. injection Hlk as <-. reflexivity.
  - rewrite lookup_insert_ne in Hlk by done. by rewrite lookup_empty in Hlk.
Defined.


(** X15 at a stream of three tokens from "tiny". *)
Lemma X15_witness :
  references_in_range tiny_manager
  /\ exists out s m',
       StartGeneration steady_run never_stopped
         (StreamingSession_new "stream_1" "tiny" "hello" three_tokens) tiny_manager
       = Some (out, s, m')
       /\ registry_kept tiny_manager m'
       /\ metrics_ m' = metrics_ tiny_manager.
Proof.
  split; [exact tiny_references|].
  destruct (StartGeneration steady_run never_stopped
              (StreamingSession_new "stream_1" "tiny" "hello" three_tokens) tiny_manager)
    as [[[out s] m']|] eqn:Hgen; [|by vm_compute in Hgen].
  exists out, s, m'. split; [reflexivity|].
  exact (X15_streaming_keeps_registry steady_run never_stopped _ tiny_manager out s m'
           tiny_references Hgen).
Defined.


Lemma steady_pieces : pieces_nonempty steady_run.
Proof. intros i. reflexivity. Defined.

(** X17 at a stream and a generation of three tokens from "tiny": both
    give the text "aaa". *)
Lemma X17_witness :
  (forall i, never_stopped i = false)
  /\ pieces_nonempty steady_run
  /\ exists out s m2 m1,
       StartGeneration steady_run never_stopped
         (StreamingSession_new "stream_1" "tiny" "hello" three_tokens) tiny_manager
       = Some (out, s, m2)
       /\ out = exit_loop_left
       /\ Generate steady_run "tiny" "hello" three_tokens tiny_manager
          = Some (streamed_text (token_queue s), m1).
Proof.
  split; [reflexivity|]. split; [exact steady_pieces|].
  destruct (StartGeneration steady_run never_stopped
              (StreamingSession_new "stream_1" "tiny" "hello" three_tokens) tiny_manager)
    as [[[out s] m2]|] eqn:Hgen; [|by vm_compute in Hgen].
  assert (Hout : out = exit_loop_left).
  { vm_compute in Hgen. by injection Hgen as <- _ _. }
  destruct (X17_generate_returns_streamed_text steady_run never_stopped "stream_1" "tiny"
              "hello" three_tokens tiny_manager out s m2 (fun _ => eq_refl)
              steady_pieces Hgen) as (m1 & H).
  exists out, s, m2, m1. split; [reflexivity|]. split; [exact Hout|].
  rewrite H. by rewrite Hout.
Defined.

(** X18 at a stream of three tokens from "tiny". *)
Lemma X18_witness :
  exists out s m' body closing,
    StartGeneration steady_run never_stopped
      (StreamingSession_new "stream_1" "tiny" "hello" three_tokens) tiny_manager
    = Some (out, s, m')
    /\ token_queue s = body ++ closing
    /\ (Z.of_nat (length body) <= 3)%Z.
Proof.
  destruct (StartGeneration steady_run never_stopped
              (StreamingSession_new "stream_1" "tiny" "hello" three_tokens) tiny_manager)
    as [[[out s] m']|] eqn:Hgen; [|by vm_compute in Hgen].
  destruct (X18_stream_tokens_in_step_order steady_run never_stopped _ tiny_manager
              out s m' Hgen) as (body & closing & H1 & _ & H3 & _).
  exists out, s, m', body, closing. split; [reflexivity|]. split; [exact H1|exact H3].
Defined.

(** X19 at a finished session that holds the final token only, read
    three times. *)
Lemma X19_witness :
  let s := mkSession "stream_1" "tiny" "hello" three_tokens [final_token]
                     true false EmptyString in
  finished s = true
  /\ next_tokens 3 s
     = Some ([Some final_token; None; None],
             mkSession "stream_1" "tiny" "hello" three_tokens [] true false EmptyString).
Proof.
  cbv zeta. split; [reflexivity|].
  exact (proj1 (X19_tokens_read_in_order 3
                  (mkSession "stream_1" "tiny" "hello" three_tokens [final_token]
                             true false EmptyString)) eq_refl).
Defined.

(** X20 at two sessions started at the ticks 1 and 2. *)
Lemma X20_witness :
  (1 <> 2)%Z
  /\ snd (StartStreamingSession 2%Z "tiny" "b" three_tokens
            (snd (StartStreamingSession 1%Z "tiny" "a" three_tokens ∅)))
       !! fst (StartStreamingSession 1%Z "tiny" "a" three_tokens ∅)
     = Some (StreamingSession_new
               (fst (StartStreamingSession 1%Z "tiny" "a" three_tokens ∅))
               "tiny" "a" three_tokens).
Proof.
  assert (H1 : (1 <> 2)%Z) by discriminate.
  split; [exact H1|].
  exact (proj1 (proj2 (proj2
           (X20_session_ids_follow_the_clock 1%Z 2%Z "tiny" "a" three_tokens
              "tiny" "b" three_tokens ∅))) H1).
Defined.

(** X21 at a table with one finished session that still holds a token. *)
Lemma X21_witness :
  let s := mkSession "stream_1" "tiny" "hello" three_tokens [final_token]
                     true false EmptyString in
  let table : SessionTable := <["stream_1" := s]> ∅ in
  table !! "stream_1" = Some s
  /\ finished s = true
  /\ GetNextStreamToken "stream_1" (CleanupExpiredSessions table)
     = Some (None, CleanupExpiredSessions table).
Proof.
  cbv zeta. split; [reflexivity|]. split; [reflexivity|].
  exact (proj1 (proj1 (proj2
           (X21_sweep_drops_finished_sessions
              (<["stream_1" := mkSession "stream_1" "tiny" "hello" three_tokens
                                         [final_token] true false EmptyString]> ∅)
              "stream_1")) _ eq_refl eq_refl)).
Defined.

(** X22 at an empty table. *)
Lemma X22_witness :
  (∅ : SessionTable) !! "stream_9" = None
  /\ GetNextStreamToken "stream_9" ∅ = Some (None, ∅).
Proof.
  split; [reflexivity|].
  exact (proj1 (X22_session_lookup ∅ "stream_9") eq_refl).
Defined.


(** X24 at the first request submitted to a new manager. *)
Lemma X24_witness :
  rtc batch_step BatchState_new BatchState_new
  /\ success
       (GetBatchResult 0
          (fst (SubmitBatchRequest 7%Z 8%Z "tiny" "hello" three_tokens BatchState_new))
          (snd (SubmitBatchRequest 7%Z 8%Z "tiny" "hello" three_tokens BatchState_new)))
     = false.
Proof.
  assert (H1 : rtc batch_step BatchState_new BatchState_new) by apply rtc_refl.
  split; [exact H1|].
  destruct (proj2 (proj2
              (X24_batch_requests_stay_queued BatchState_new 7%Z 8%Z "tiny" "hello"
                 three_tokens 0 H1)) _ (rtc_refl _ _)) as (_ & _ & _ & H & _).
  exact H.
Defined.

(** X25 at the registry with "tiny" loaded. *)
Lemma X25_witness :
  exists lm,
    models_ tiny_manager !! "tiny" = Some lm
    /\ reference_count lm < uint64_modulus
    /\ fst (GetModelRaw 5%Z "tiny" tiny_manager)
       = Some (set_reference (reference_count lm) 5%Z lm).
Proof.
  destruct tiny_lookup as (lm & Hlk & Hrc). exists lm.
  assert (H2 : reference_count lm < uint64_modulus) by (rewrite Hrc; reflexivity).
  split; [exact Hlk|]. split; [exact H2|].
  destruct (X25_raw_pointer_holds_no_reference 5%Z "tiny" tiny_manager lm Hlk H2)
    as (H & _).
  by rewrite H.
Defined.

(** X26 at the registry with "tiny" loaded, built with a limit of 1 MB,
    with one batch request queued. *)
Lemma X26_witness :
  let b := snd (SubmitBatchRequest 7%Z 8%Z "tiny" "hello" three_tokens BatchState_new) in
  memory_limit_bytes_ tiny_manager
  = memory_limit_bytes_ (SimpleModelManager_new 1 (max_context_pool_size_ tiny_manager))
  /\ Cleanup tiny_manager ∅ b
     = (SimpleModelManager_new 1 (max_context_pool_size_ tiny_manager), ∅, b)
  /\ Cleanup tiny_manager ∅ b
     <> ManagerState_new 1 (max_context_pool_size_ tiny_manager).
Proof.
  cbv zeta.
  assert (H1 : memory_limit_bytes_ tiny_manager
               = memory_limit_bytes_
                   (SimpleModelManager_new 1 (max_context_pool_size_ tiny_manager)))
    by reflexivity.
  split; [exact H1|].
  destruct (X26_cleanup_resets_all_but_batch 1 tiny_manager ∅
              (snd (SubmitBatchRequest 7%Z 8%Z "tiny" "hello" three_tokens BatchState_new))
              H1) as (H2 & _ & H3 & _).
  split; [exact H2|].
  exact (H3 7%Z 8%Z "tiny" "hello" three_tokens BatchState_new eq_refl).
Defined.

(** X27 at the registry with "tiny" loaded, which takes 2 000 000 bytes. *)
Lemma X27_witness :
  exists lm,
    models_ tiny_manager !! "tiny" = Some lm
    /\ reference_count lm = 0
    /\ 0 < memory_usage_bytes lm < uint64_modulus
    /\ exists m',
         UnloadModel (50 + 3) "tiny" (ResetMetrics tiny_manager) = Some (true, m')
         /\ metrics_memory_usage_bytes (metrics_ m')
            = uint64_modulus - memory_usage_bytes lm.
Proof.
  eexists. split; [vm_compute; reflexivity|]. split; [reflexivity|].
  split; [split; reflexivity|].
  match goal with
  | |- context [memory_usage_bytes ?lm] =>
    destruct (X27_reset_then_unload_wraps_usage "tiny" tiny_manager lm
                ltac:(vm_compute; reflexivity) eq_refl (conj eq_refl eq_refl))
      as (_ & _ & _ & m' & H1 & H2 & _)
  end.
  by exists m'.
Defined.

(** X28 at a generation of three tokens from "tiny": the answer is not
    null. *)
Lemma X28_witness :
  exists r m',
    cpp_llama_generate true steady_run (Some "tiny") (Some "hello") three_tokens
      tiny_manager = Some (r, m')
    /\ exists response,
         Generate steady_run "tiny" "hello" three_tokens tiny_manager
         = Some (response, m')
         /\ (r = None <-> response = EmptyString).
Proof.
  destruct (cpp_llama_generate true steady_run (Some "tiny") (Some "hello") three_tokens
              tiny_manager) as [[r m']|] eqn:Hgen; [|by vm_compute in Hgen].
  exists r, m'. split; [reflexivity|].
  destruct (proj2 (X28_null_answer_is_empty_generation steady_run (Some "tiny")
                     (Some "hello") three_tokens tiny_manager r m' Hgen)
              "tiny" "hello" eq_refl eq_refl) as (response & H1 & H2 & _).
  by exists response.
Defined.

End MoreWitnesses.
